(** * Text-to-record parsers of the cisco package

    A shallow embedding of the parsers of github.com/xtokio/cisco and of
    the Go library functions they call, with the properties the
    specification states about them.

    Go strings are byte sequences; they are modelled by [string], one
    [ascii] per byte.  A Go function returning [(value, error)] returns a
    pair whose second component is [None] for a nil error.  A run-time
    panic (index or slice bounds out of range) is [None] in the [option]
    monad.  Calls to [log] have no effect on results and are left out. *)

From stdpp Require Import base option list strings gmap.
From Stdlib Require Import Ascii ZArith Lia.

Local Open Scope string_scope.
Local Open Scope list_scope.
Local Open Scope Z_scope.

(** ** The functions of Go's [strings] package used by the parsers *)

Module Strings.

Definition byteOf (c : ascii) : N := Ascii.N_of_ascii c.

(** [len(s)] *)
Definition len (s : string) : Z := Z.of_nat (String.length s).

Fixpoint HasPrefix (s prefix : string) : bool :=
  match prefix, s with
  | EmptyString, _ => true
  | String a p, String b t => Ascii.eqb a b && HasPrefix t p
  | String _ _, EmptyString => false
  end.

Fixpoint Contains (s substr : string) : bool :=
  HasPrefix s substr ||
  match s with
  | EmptyString => false
  | String _ t => Contains t substr
  end.

Fixpoint indexFrom (i : Z) (s substr : string) : Z :=
  if HasPrefix s substr then i
  else match s with
       | EmptyString => -1
       | String _ t => indexFrom (i + 1) t substr
       end.

(** [strings.Index]: offset of the first occurrence, [-1] when absent. *)
Definition Index (s substr : string) : Z := indexFrom 0 s substr.

(** The slice expression [s[lo:hi]]; it panics unless
    [0 <= lo <= hi <= len(s)]. *)
Definition slice (s : string) (lo hi : Z) : option string :=
  if (0 <=? lo) && (lo <=? hi) && (hi <=? len s)
  then Some (String.substring (Z.to_nat lo) (Z.to_nat (hi - lo)) s)
  else None.

(** [s[lo:]] *)
Definition sliceFrom (s : string) (lo : Z) : option string :=
  slice s lo (len s).

(** [strings.Split(s, sep)] for a separator of one byte, the only kind
    the parsers use. *)
Fixpoint Split (s : string) (sep : ascii) : list string :=
  match s with
  | EmptyString => [EmptyString]
  | String c t =>
      if Ascii.eqb c sep then EmptyString :: Split t sep
      else match Split t sep with
           | [] => [String c EmptyString]
           | w :: ws => String c w :: ws
           end
  end.

Fixpoint Join (elems : list string) (sep : string) : string :=
  match elems with
  | [] => EmptyString
  | [e] => e
  | e :: es => e +:+ sep +:+ Join es sep
  end.

Fixpoint inCutset (c : ascii) (cutset : string) : bool :=
  match cutset with
  | EmptyString => false
  | String d t => Ascii.eqb c d || inCutset c t
  end.

(** [strings.TrimRight(s, cutset)] for a cutset of ASCII bytes. *)
Fixpoint TrimRight (s cutset : string) : string :=
  match s with
  | EmptyString => EmptyString
  | String c t =>
      match TrimRight t cutset with
      | EmptyString =>
          if inCutset c cutset then EmptyString else String c EmptyString
      | r => String c r
      end
  end.

(** [unicode.IsSpace] on the UTF-8 encoding: the number of bytes of the
    white-space code point that [s] starts with, [0] when it starts with
    none.  The code points are U+0009..U+000D, U+0020, U+0085, U+00A0,
    U+1680, U+2000..U+200A, U+2028, U+2029, U+202F, U+205F, U+3000. *)
Definition spaceWidth (s : string) : nat :=
  match s with
  | EmptyString => 0%nat
  | String a r =>
      let x := byteOf a in
      if ((9 <=? x) && (x <=? 13) || (x =? 32))%N then 1%nat
      else match r with
      | EmptyString => 0%nat
      | String b r2 =>
          let y := byteOf b in
          if ((x =? 194) && ((y =? 133) || (y =? 160)))%N then 2%nat
          else match r2 with
          | EmptyString => 0%nat
          | String c _ =>
              let z := byteOf c in
              if ((x =? 225) && (y =? 154) && (z =? 128))%N then 3%nat
              else if ((x =? 226) && (y =? 128) &&
                       ((128 <=? z) && (z <=? 138) || (z =? 168) ||
                        (z =? 169) || (z =? 175)))%N then 3%nat
              else if ((x =? 226) && (y =? 129) && (z =? 159))%N then 3%nat
              else if ((x =? 227) && (y =? 128) && (z =? 128))%N then 3%nat
              else 0%nat
          end
      end
  end.

(** Leading white space is dropped code point by code point; [skip]
    counts the bytes of the current code point still to drop. *)
Fixpoint trimLeftSpace (skip : nat) (s : string) {struct s} : string :=
  match s with
  | EmptyString => EmptyString
  | String _ t =>
      match skip with
      | S k => trimLeftSpace k t
      | O => match spaceWidth s with
             | O => s
             | S k => trimLeftSpace k t
             end
      end
  end.

(** [onlySpace 0 s]: [s] decodes to white space only. *)
Fixpoint onlySpace (skip : nat) (s : string) {struct s} : bool :=
  match s with
  | EmptyString => true
  | String _ t =>
      match skip with
      | S k => onlySpace k t
      | O => match spaceWidth s with
             | O => false
             | S k => onlySpace k t
             end
      end
  end.

Fixpoint trimRightSpace (s : string) : string :=
  match s with
  | EmptyString => EmptyString
  | String c t => if onlySpace 0 s then EmptyString
                  else String c (trimRightSpace t)
  end.

(** [strings.TrimSpace] *)
Definition TrimSpace (s : string) : string :=
  trimRightSpace (trimLeftSpace 0 s).

Definition flush (cur : string) : list string :=
  match cur with
  | EmptyString => []
  | _ => [cur]
  end.

Fixpoint fieldsFrom (skip : nat) (cur : string) (s : string) {struct s}
  : list string :=
  match s with
  | EmptyString => flush cur
  | String c t =>
      match skip with
      | S k => fieldsFrom k cur t
      | O => match spaceWidth s with
             | O => fieldsFrom 0 (cur +:+ String c EmptyString) t
             | S k => flush cur ++ fieldsFrom k EmptyString t
             end
      end
  end.

(** [strings.Fields]: the maximal runs of bytes between white space. *)
Definition Fields (s : string) : list string := fieldsFrom 0 EmptyString s.

(** [strings.ReplaceAll(s, old, new)] for a non-empty [old]; [skip]
    counts the bytes of a replaced occurrence still to pass over. *)
Fixpoint replaceAllFrom (skip : nat) (s old new : string) {struct s}
  : string :=
  match s with
  | EmptyString => EmptyString
  | String c t =>
      match skip with
      | S k => replaceAllFrom k t old new
      | O =>
          if HasPrefix s old
          then new +:+ replaceAllFrom (String.length old - 1) t old new
          else String c (replaceAllFrom 0 t old new)
      end
  end.

Definition ReplaceAll (s old new : string) : string :=
  replaceAllFrom 0 s old new.

(** [strings.NewReplacer(old1, new1, old2, new2, ...)], with non-empty
    old strings. *)
Record Replacer := NewReplacer { oldnew : list (string * string) }.

(** At one position the old strings are compared in argument order. *)
Definition lookup (r : Replacer) (s : string) : option (string * string) :=
  List.find (fun p => HasPrefix s (fst p)) (oldnew r).

(** Replacements are made in the order they appear in [s], without
    overlapping matches. *)
Fixpoint replaceFrom (r : Replacer) (skip : nat) (s : string) {struct s}
  : string :=
  match s with
  | EmptyString => EmptyString
  | String c t =>
      match skip with
      | S k => replaceFrom r k t
      | O =>
          match lookup r s with
          | Some (old, new) =>
              new +:+ replaceFrom r (String.length old - 1) t
          | None => String c (replaceFrom r 0 t)
          end
      end
  end.

Definition Replace (r : Replacer) (s : string) : string := replaceFrom r 0 s.

End Strings.

(** ** cisco_connection.go: the interface-name normalizer *)

Definition aliasTable : list (string * string) :=
  [ ("AppGigabitEthernet", "Ap");
    ("FastEthernet", "Fa");
    ("GigabitEthernet", "Gi");
    ("FiveGigabitEthernet", "Fi");
    ("FiveGi", "Fi");
    ("TenGigabitEthernet", "Te");
    ("TenGi", "Te");
    ("Ten", "Te");
    ("TwentyGigabitEthernet", "Twe");
    ("TwentyFiveGigE", "Twe");
    ("TwentyFigE", "Twe");
    ("FortyGigabitEthernet", "Fo");
    ("FortyGi", "Fo");
    ("HundredGigE", "Hu");
    ("Gig", "Gi") ].

Definition normalizeInterfaceName (name : string) : string :=
  let name := Strings.ReplaceAll name " " EmptyString in
  let replacer := Strings.NewReplacer aliasTable in
  Strings.Replace replacer name.

(** A name holds a verbose alias when an old string of the table occurs
    in it. *)
Definition holdsAlias (name : string) : bool :=
  existsb (fun p => Strings.Contains name (fst p)) aliasTable.

Definition shortPrefixes : list string :=
  ["Gi"; "Te"; "Fa"; "Fi"; "Fo"; "Hu"; "Twe"; "Ap"].

(** The canonical names of the specification: a short prefix first, no
    verbose alias and no space anywhere. *)
Definition canonical (name : string) : bool :=
  existsb (Strings.HasPrefix name) shortPrefixes &&
  negb (holdsAlias name) && negb (Strings.Contains name " ").


(** ** Go's [regexp] package

    Patterns are parsed from their source text.  Matching is by
    backtracking, which gives the leftmost match and, among the matches at
    one position, the one preferred by the order of the alternatives and
    the greediness of the repetitions: the match [regexp] returns.  The
    matcher reads bytes; for the patterns of this package that selects the
    same matches as reading UTF-8 code points.  Under the flag [i] the
    letters k and s also match U+212A and U+017F, as in Go. *)

Module Regexp.

Inductive node : Type :=
| Empty
| Byte (fold neg : bool) (ranges : list (N * N))
| Cat (r1 r2 : node)
| Alt (r1 r2 : node)
| Star (greedy : bool) (r : node)
| Cap (i : nat) (r : node)
| Bol
| Eol.

Record Regexp := mkRegexp { prog : node; numSubexp : nat }.

(** *** Parsing *)

Definition classDigit : list (N * N) := [(48, 57)]%N.
Definition classWord : list (N * N) :=
  [(48, 57); (65, 90); (95, 95); (97, 122)]%N.
Definition classSpace : list (N * N) := [(9, 10); (12, 13); (32, 32)]%N.

Definition swapCase (b : N) : N :=
  if ((65 <=? b) && (b <=? 90))%N then (b + 32)%N
  else if ((97 <=? b) && (b <=? 122))%N then (b - 32)%N
  else b.

Definition inRanges (ranges : list (N * N)) (b : N) : bool :=
  existsb (fun r => (fst r <=? b)%N && (b <=? snd r)%N) ranges.

Definition inClass (fold neg : bool) (ranges : list (N * N)) (c : ascii)
  : bool :=
  let b := Strings.byteOf c in
  xorb neg (inRanges ranges b || (fold && inRanges ranges (swapCase b))).

Fixpoint literal (s : string) : node :=
  match s with
  | EmptyString => Empty
  | String c t => Cat (Byte false false [(Strings.byteOf c, Strings.byteOf c)]) (literal t)
  end.

(** U+017F and U+212A in UTF-8. *)
Definition longS : node := literal (String "197" (String "191" EmptyString)).
Definition kelvin : node :=
  literal (String "226" (String "132" (String "170" EmptyString))).

(** A class that is not negated, with the two code points that fold to a
    letter of the class. *)
Definition foldedClass (fold : bool) (ranges : list (N * N)) : node :=
  let base := Byte fold false ranges in
  let withS :=
    if fold && (inRanges ranges 115 || inRanges ranges 83)
    then Alt base longS else base in
  if fold && (inRanges ranges 107 || inRanges ranges 75)
  then Alt withS kelvin else withS.

(** The ranges of an escape inside or outside a class; [None] for one
    that is not a set of bytes given by ranges. *)
Definition escapeRanges (c : ascii) : option (list (N * N)) :=
  if Ascii.eqb c "d" then Some classDigit
  else if Ascii.eqb c "w" then Some classWord
  else if Ascii.eqb c "s" then Some classSpace
  else if Ascii.eqb c "n" then Some [(10, 10)]%N
  else if inRanges classWord (Strings.byteOf c) then None
  else Some [(Strings.byteOf c, Strings.byteOf c)].

(** The items of a bracket class up to the closing bracket. *)
Fixpoint parseClassItems (s : string) (acc : list (N * N)) {struct s}
  : option (list (N * N) * string) :=
  match s with
  | EmptyString => None
  | String c t =>
      if Ascii.eqb c "]" then Some (acc, t)
      else if Ascii.eqb c "\" then
        match t with
        | EmptyString => None
        | String e t' =>
            match escapeRanges e with
            | Some rs => parseClassItems t' (acc ++ rs)
            | None => None
            end
        end
      else
        match t with
        | String d (String hi t') =>
            if Ascii.eqb d "-" && negb (Ascii.eqb hi "]") &&
               negb (Ascii.eqb hi "\")
            then parseClassItems t'
                   (acc ++ [(Strings.byteOf c, Strings.byteOf hi)])
            else parseClassItems t
                   (acc ++ [(Strings.byteOf c, Strings.byteOf c)])
        | _ => parseClassItems t
                 (acc ++ [(Strings.byteOf c, Strings.byteOf c)])
        end
  end.

Definition parseClass (fold : bool) (s : string) : option (node * string) :=
  match s with
  | String c t =>
      if Ascii.eqb c "^" then
        '(rs, rest) ← parseClassItems t [];
        if fold && (inRanges rs 115 || inRanges rs 83 ||
                    inRanges rs 107 || inRanges rs 75)
        then None
        else Some (Byte fold true rs, rest)
      else
        '(rs, rest) ← parseClassItems s [];
        Some (foldedClass fold rs, rest)
  | EmptyString => None
  end.

Definition parseEscape (fold : bool) (c : ascii) : option node :=
  if Ascii.eqb c "S" then Some (Byte false true classSpace)
  else match escapeRanges c with
       | Some rs => Some (foldedClass fold rs)
       | None => None
       end.

(** The repetition operator after an atom, if any. *)
Definition parsePostfix (a : node) (s : string) : node * string :=
  match s with
  | String op t =>
      let '(greedy, rest) :=
        match t with
        | String q t' => if Ascii.eqb q "?" then (false, t') else (true, t)
        | EmptyString => (true, t)
        end in
      if Ascii.eqb op "*" then (Star greedy a, rest)
      else if Ascii.eqb op "+" then (Cat a (Star greedy a), rest)
      else if Ascii.eqb op "?" then
        (if greedy then Alt a Empty else Alt Empty a, rest)
      else (a, s)
  | EmptyString => (a, s)
  end.

Definition isMeta (c : ascii) : bool :=
  Strings.inCutset c "*+?()|[]{}".

Fixpoint parseAlt (fuel : nat) (fold dotall : bool) (s : string) (g : nat)
  {struct fuel} : option (node * string * nat) :=
  match fuel with
  | O => None
  | S n =>
      '(r1, s1, g1) ← parseCat n fold dotall s g;
      match s1 with
      | String c s2 =>
          if Ascii.eqb c "|" then
            '(r2, s3, g2) ← parseAlt n fold dotall s2 g1;
            Some (Alt r1 r2, s3, g2)
          else Some (r1, s1, g1)
      | EmptyString => Some (r1, s1, g1)
      end
  end
with parseCat (fuel : nat) (fold dotall : bool) (s : string) (g : nat)
  {struct fuel} : option (node * string * nat) :=
  match fuel with
  | O => None
  | S n =>
      match s with
      | EmptyString => Some (Empty, s, g)
      | String c _ =>
          if Ascii.eqb c "|" || Ascii.eqb c ")" then Some (Empty, s, g)
          else
            '(a, s1, g1) ← parseAtom n fold dotall s g;
            let '(r1, s2) := parsePostfix a s1 in
            '(r2, s3, g2) ← parseCat n fold dotall s2 g1;
            Some (Cat r1 r2, s3, g2)
      end
  end
with parseAtom (fuel : nat) (fold dotall : bool) (s : string) (g : nat)
  {struct fuel} : option (node * string * nat) :=
  match fuel with
  | O => None
  | S n =>
      match s with
      | EmptyString => None
      | String c t =>
          if Ascii.eqb c "(" then
            let '(capture, body) :=
              match t with
              | String q (String k t') =>
                  if Ascii.eqb q "?" && Ascii.eqb k ":" then (false, t')
                  else (true, t)
              | _ => (true, t)
              end in
            '(r, s1, g1) ← parseAlt n fold dotall body
                              (if capture then S g else g);
            match s1 with
            | String e s2 =>
                if Ascii.eqb e ")"
                then Some (if capture then Cap g r else r, s2, g1)
                else None
            | EmptyString => None
            end
          else if Ascii.eqb c "[" then
            '(r, s1) ← parseClass fold t; Some (r, s1, g)
          else if Ascii.eqb c "." then
            Some (Byte false true (if dotall then [] else [(10, 10)]%N), t, g)
          else if Ascii.eqb c "^" then Some (Bol, t, g)
          else if Ascii.eqb c "$" then Some (Eol, t, g)
          else if Ascii.eqb c "\" then
            match t with
            | String e t' => r ← parseEscape fold e; Some (r, t', g)
            | EmptyString => None
            end
          else if isMeta c then None
          else Some (foldedClass fold [(Strings.byteOf c, Strings.byteOf c)],
                     t, g)
      end
  end.

(** The flags [(?i)] and [(?s)] are read at the head of a pattern, where
    the package writes them. *)
Definition parseFlags (s : string) : bool * bool * string :=
  if Strings.HasPrefix s "(?i)"
  then (true, false, String.substring 4 (String.length s - 4) s)
  else if Strings.HasPrefix s "(?s)"
  then (false, true, String.substring 4 (String.length s - 4) s)
  else (false, false, s).

Definition Compile (pattern : string) : option Regexp :=
  let '(fold, dotall, body) := parseFlags pattern in
  '(r, rest, g) ← parseAlt (4 * String.length pattern + 4) fold dotall body 1;
  match rest with
  | EmptyString => Some (mkRegexp r (g - 1))
  | _ => None
  end.

(** [regexp.MustCompile] panics on a pattern that does not parse; every
    pattern of the package parses ([patterns_compile] below), so the
    fallback, which matches nothing, is never used. *)
Definition MustCompile (pattern : string) : Regexp :=
  default (mkRegexp (Byte false false []) 0) (Compile pattern).

(** *** Matching *)

(** The matcher is in continuation-passing style: [k] is called with the
    end offset, the text left and the captures so far, and a failing [k]
    makes the matcher try its next choice. *)
Definition cont : Type := nat -> string -> list string -> option (nat * list string).

Definition orElse {A} (x y : option A) : option A :=
  match x with
  | Some _ => x
  | None => y
  end.

Fixpoint run (r : node) (i : nat) (s : string) (caps : list string)
  (k : cont) {struct r} : option (nat * list string) :=
  match r with
  | Empty => k i s caps
  | Byte fold neg ranges =>
      match s with
      | String c t => if inClass fold neg ranges c then k (S i) t caps else None
      | EmptyString => None
      end
  | Cat r1 r2 => run r1 i s caps (fun i' s' caps' => run r2 i' s' caps' k)
  | Alt r1 r2 => orElse (run r1 i s caps k) (run r2 i s caps k)
  | Star greedy r1 =>
      (fix loop (n : nat) (i : nat) (s : string) (caps : list string)
         {struct n} : option (nat * list string) :=
         match n with
         | O => k i s caps
         | S n' =>
             let again :=
               run r1 i s caps
                 (fun i' s' caps' =>
                    if (i <? i')%nat then loop n' i' s' caps' else None) in
             if greedy then orElse again (k i s caps)
             else orElse (k i s caps) again
         end) (S (String.length s)) i s caps
  | Cap g r1 =>
      run r1 i s caps
        (fun i' s' caps' =>
           k i' s' (<[g := String.substring 0 (i' - i) s]> caps'))
  | Bol => if (i =? 0)%nat then k i s caps else None
  | Eol => match s with
           | EmptyString => k i s caps
           | String _ _ => None
           end
  end.

(** The leftmost match: the start offsets are tried in order. *)
Fixpoint findFrom (re : Regexp) (i : nat) (s : string) : list string :=
  match run (prog re) i s (replicate (S (numSubexp re)) EmptyString)
          (fun j _ caps => Some (j, caps)) with
  | Some (j, caps) => <[0%nat := String.substring 0 (j - i) s]> caps
  | None =>
      match s with
      | EmptyString => []
      | String _ t => findFrom re (S i) t
      end
  end.

(** [re.FindStringSubmatch(s)]: the match and the text of each group, the
    empty string for a group that took no part; nil when nothing matches. *)
Definition FindStringSubmatch (re : Regexp) (s : string) : list string :=
  findFrom re 0 s.

(** [re.MatchString(s)] *)
Definition MatchString (re : Regexp) (s : string) : bool :=
  match FindStringSubmatch re s with
  | [] => false
  | _ :: _ => true
  end.

End Regexp.


(** ** Shared conventions of the parsers *)

Definition newline : ascii := "010".

Definition isEmpty (s : string) : bool :=
  match s with
  | EmptyString => true
  | String _ _ => false
  end.

(** A Go error value: [None] is nil. *)
Definition error : Type := option string.

(** [fmt.Errorf] with a constant format. *)
Definition Errorf (msg : string) : error := Some msg.

(** Index of the first element satisfying [p], as found by a [for] loop
    that breaks at the first hit. *)
Fixpoint firstIndex {A} (p : A -> bool) (l : list A) : option nat :=
  match l with
  | [] => None
  | x :: t => if p x then Some 0%nat else S <$> firstIndex p t
  end.

(** A [for] loop over lines whose body may panic. *)
Fixpoint foldLines {S} (step : S -> string -> option S) (st : S)
  (lines : list string) : option S :=
  match lines with
  | [] => Some st
  | l :: ls => st' ← step st l; foldLines step st' ls
  end.

(** The slice expression [l[lo:hi]] on a Go slice of length [length l]. *)
Definition subslice {A} (l : list A) (lo hi : nat) : option (list A) :=
  if ((lo <=? hi) && (hi <=? length l))%nat
  then Some (take (hi - lo) (drop lo l))
  else None.

(** The collaborator that runs a command on a switch and hands back its
    output, or an error. *)
Definition Transport : Type := string -> string -> string * error.

(** ** show cdp neighbors *)

Module Cdp.

Record CdpNeighbor := mkCdpNeighbor {
  Neighbor : string;
  Interface : string;
  HoldTime : string;
  Capability : string;
  Platform : string;
  NeighborInterface : string
}.

Record columns := mkColumns {
  localIntfIndex : Z;
  holdtmeIndex : Z;
  capabilityIndex : Z;
  platformIndex : Z;
  portIDIndex : Z
}.

Definition isHeader (line : string) : bool :=
  Strings.Contains line "Device" && Strings.Contains line "Port ID".

Definition headerColumns (headerLine : string) : columns :=
  let holdtme := Strings.Index headerLine "Hldtme" in
  {| localIntfIndex := Strings.Index headerLine "Local Intrfce";
     holdtmeIndex :=
       if holdtme =? -1 then Strings.Index headerLine "Holdtme" else holdtme;
     capabilityIndex := Strings.Index headerLine "Capability";
     platformIndex := Strings.Index headerLine "Platform";
     portIDIndex := Strings.Index headerLine "Port ID" |}.

Definition isSkipped (trimmedLine : string) : bool :=
  isEmpty trimmedLine || Strings.Contains trimmedLine "Total cdp entries" ||
  Strings.Contains trimmedLine "Device-ID" ||
  Strings.Contains trimmedLine "---".

(** The record cut out of [line] at the column offsets. *)
Definition entry (c : columns) (deviceID line : string) : option CdpNeighbor :=
  intf ← Strings.slice line (localIntfIndex c) (holdtmeIndex c);
  hold ← Strings.slice line (holdtmeIndex c) (capabilityIndex c);
  cap ← Strings.slice line (capabilityIndex c) (platformIndex c);
  plat ← Strings.slice line (platformIndex c) (portIDIndex c);
  port ← Strings.sliceFrom line (portIDIndex c);
  Some {| Neighbor := deviceID;
          Interface := Strings.TrimSpace intf;
          HoldTime := Strings.TrimSpace hold;
          Capability := Strings.TrimSpace cap;
          Platform := Strings.TrimSpace plat;
          NeighborInterface := Strings.TrimSpace port |}.

(** One turn of the data loop; the state is the records so far and
    [lastDeviceID]. *)
Definition step (c : columns) (st : list CdpNeighbor * string) (line : string)
  : option (list CdpNeighbor * string) :=
  let '(neighbors, lastDeviceID) := st in
  let trimmedLine := Strings.TrimSpace line in
  if isSkipped trimmedLine then Some st
  else
    isDetailLine ←
      (if Strings.len line >? localIntfIndex c then
         deviceIDArea ← Strings.slice line 0 (localIntfIndex c);
         if isEmpty (Strings.TrimSpace deviceIDArea) then
           rest ← Strings.sliceFrom line (localIntfIndex c);
           Some (negb (isEmpty (Strings.TrimSpace rest)))
         else Some false
       else Some false);
    if isDetailLine : bool then
      if isEmpty lastDeviceID then Some st
      else if (Strings.len line <? portIDIndex c) &&
              (Strings.len line <? platformIndex c) then Some st
      else
        neighbor ← entry c lastDeviceID line;
        Some (neighbors ++ [neighbor], EmptyString)
    else if Strings.len line >=? platformIndex c then
      deviceID ←
        (if Strings.len line >? localIntfIndex c
         then Strings.TrimSpace <$> Strings.slice line 0 (localIntfIndex c)
         else Some trimmedLine);
      neighbor ← entry c deviceID line;
      Some (neighbors ++ [neighbor], EmptyString)
    else Some (neighbors, trimmedLine).

Definition parseCdpNeighbors (rawOutput : string)
  : option (list CdpNeighbor * error) :=
  let lines := Strings.Split rawOutput newline in
  match firstIndex isHeader lines with
  | None => Some ([], None)
  | Some headerIndex =>
      let headerLine := default EmptyString (lines !! headerIndex) in
      let dataStartIndex := S headerIndex in
      let c := headerColumns headerLine in
      if (localIntfIndex c =? -1) || (holdtmeIndex c =? -1) ||
         (capabilityIndex c =? -1) || (platformIndex c =? -1) ||
         (portIDIndex c =? -1)
      then Some ([], Errorf "could not parse CDP neighbors header columns correctly (check alignment)")
      else
        '(neighbors, _) ← foldLines (step c) ([], EmptyString)
                             (drop dataStartIndex lines);
        Some (neighbors, None)
  end.

Definition normalize (n : CdpNeighbor) : CdpNeighbor :=
  {| Neighbor := Neighbor n;
     Interface := normalizeInterfaceName (Interface n);
     HoldTime := HoldTime n;
     Capability := Capability n;
     Platform := Platform n;
     NeighborInterface := normalizeInterfaceName (NeighborInterface n) |}.

Section Wrapper.
Variable RunCommand : Transport.

Definition Show_cdp_neighbors (switch_hostname : string)
  : option (list CdpNeighbor * error) :=
  let '(outputString, err) := RunCommand switch_hostname "show cdp neighbors" in
  match err with
  | Some _ => Some ([], err)
  | None =>
      '(cdp_neighbors_data, _) ← parseCdpNeighbors outputString;
      let cdp_neighbors_data := normalize <$> cdp_neighbors_data in
      match cdp_neighbors_data with
      | [] => Some ([], None)
      | _ => Some (cdp_neighbors_data, None)
      end
  end.
End Wrapper.

(** The blob of end-to-end case 1, as the specification writes it. *)
Definition case1Blob : string :=
  "Device ID        Local Intf     Hldtme   Capability  Platform  Port ID" +:+
  String newline
  ("switch-core.local Gig 1/0/1      120      R S I       WS-C3850  Gig 1/0/24" +:+
   String newline EmptyString).

(** The same two lines under the column label the parser looks for. *)
Definition case1BlobIntrfce : string :=
  "Device ID        Local Intrfce  Hldtme   Capability  Platform  Port ID" +:+
  String newline
  ("switch-core.local Gig 1/0/1      120      R S I       WS-C3850  Gig 1/0/24" +:+
   String newline EmptyString).

Definition case1Record : CdpNeighbor :=
  {| Neighbor := "switch-core.local";
     Interface := "Gi1/0/1";
     HoldTime := "120";
     Capability := "R S I";
     Platform := "WS-C3850";
     NeighborInterface := "Gi1/0/24" |}.

End Cdp.


(** ** show interface status *)

Module Status.

Record InterfaceStatus := mkInterfaceStatus {
  Interface : string;
  Description : string;
  Status : string;
  VlanID : string;
  Duplex : string;
  Speed : string;
  Type_ : string
}.

Definition isHeader (line : string) : bool :=
  let line := Strings.TrimSpace line in
  Strings.Contains line "Port" && Strings.Contains line "Vlan".

Definition statusKeywords : list string :=
  ["connected"; "notconnect"; "disabled"; "err-disabled"; "suspended";
   "monitoring"].

Definition isStatusKeyword (s : string) : bool :=
  existsb (String.eqb s) statusKeywords.

Definition isSkipped (line : string) : bool :=
  isEmpty line || Strings.HasPrefix line "----" ||
  Strings.HasPrefix line "Name".

(** The search [for j := 1; j <= len(fields) - 5; j++] for the first
    status keyword. *)
Definition findStatusIndex (fields : list string) : option nat :=
  S <$> firstIndex isStatusKeyword (take (length fields - 5) (drop 1 fields)).

(** The body of the data loop: the records one line adds. *)
Definition lineRecords (rawLine : string) : option (list InterfaceStatus) :=
  let line := Strings.TrimSpace rawLine in
  if isSkipped line then Some []
  else
    let fields := Strings.Fields line in
    if (length fields <? 6)%nat then Some []
    else
      interface ← fields !! 0%nat;
      match findStatusIndex fields with
      | None => Some []
      | Some statusIndex =>
          description ← subslice fields 1 statusIndex;
          status ← fields !! statusIndex;
          vlan ← fields !! (statusIndex + 1)%nat;
          duplex ← fields !! (statusIndex + 2)%nat;
          speed ← fields !! (statusIndex + 3)%nat;
          type ← subslice fields (statusIndex + 4) (length fields);
          Some [ {| Interface := interface;
                    Description := Strings.Join description " ";
                    Status := status;
                    VlanID := vlan;
                    Duplex := duplex;
                    Speed := speed;
                    Type_ := Strings.Join type " " |} ]
      end.

Definition step (interfaces : list InterfaceStatus) (rawLine : string)
  : option (list InterfaceStatus) :=
  rs ← lineRecords rawLine; Some (interfaces ++ rs).

Definition parseInterfaceStatus (rawOutput : string)
  : option (list InterfaceStatus * error) :=
  let lines := Strings.Split rawOutput newline in
  (* the header search starts at the second line: for i := 1; ... *)
  match firstIndex isHeader (drop 1 lines) with
  | None => Some ([], Errorf "could not find interface status header in output")
  | Some k =>
      let dataStartIndex := S (S k) in
      if (length lines <=? dataStartIndex)%nat
      then Some ([], Errorf "could not find interface status header in output")
      else
        interfaces ← foldLines step [] (drop dataStartIndex lines);
        Some (interfaces, None)
  end.

Section Wrapper.
Variable RunCommand : Transport.

End Wrapper.

Definition case3Line : string :=
  "Gi1/0/1  Uplink to core  connected  1  full  1000  10/100/1000BaseTX".

Definition case3Record : InterfaceStatus :=
  {| Interface := "Gi1/0/1";
     Description := "Uplink to core";
     Status := "connected";
     VlanID := "1";
     Duplex := "full";
     Speed := "1000";
     Type_ := "10/100/1000BaseTX" |}.

End Status.


(** ** show vlan *)

Module Vlan.

Record VlanInfo := mkVlanInfo {
  VLANID : string;
  VLANName : string;
  Status : string;
  Ports : list string
}.

Definition isNewVlanLine : Regexp.Regexp := Regexp.MustCompile "^\d".

Definition isHeader (line : string) : bool := Strings.HasPrefix line "VLAN Name".

(** [lastVlan.Ports = append(lastVlan.Ports, ports...)] through the
    pointer to the last element. *)
Definition appendToLast (vlans : list VlanInfo) (ports : list string)
  : list VlanInfo :=
  alter (fun v => {| VLANID := VLANID v; VLANName := VLANName v;
                     Status := Status v; Ports := Ports v ++ ports |})
        (length vlans - 1)%nat vlans.

(** The data loop; it returns at the line that opens the second table. *)
Fixpoint loop (vlans : list VlanInfo) (lines : list string)
  : option (list VlanInfo) :=
  match lines with
  | [] => Some vlans
  | raw :: rest =>
      let line := Strings.TrimRight raw (String "013" EmptyString) in
      if Strings.HasPrefix line "VLAN Type" then Some vlans
      else if isEmpty line then loop vlans rest
      else if Regexp.MatchString isNewVlanLine line then
        let fields := Strings.Fields line in
        if (length fields <? 3)%nat then loop vlans rest
        else
          id ← fields !! 0%nat;
          name ← fields !! 1%nat;
          status ← fields !! 2%nat;
          ports ←
            (if (3 <? length fields)%nat then
               tail ← subslice fields 3 (length fields);
               Some (Strings.Split (Strings.Join tail EmptyString) ",")
             else Some []);
          loop (vlans ++ [ {| VLANID := id; VLANName := name;
                              Status := status; Ports := ports |} ]) rest
      else
        match vlans with
        | [] => loop vlans rest
        | _ :: _ =>
            let portStr := Strings.TrimSpace line in
            loop (appendToLast vlans (Strings.Split portStr ",")) rest
        end
  end.

Definition cleanPorts (ports : list string) : list string :=
  List.filter (fun p => negb (isEmpty p)) (Strings.TrimSpace <$> ports).

Definition clean (v : VlanInfo) : VlanInfo :=
  {| VLANID := VLANID v; VLANName := VLANName v; Status := Status v;
     Ports := cleanPorts (Ports v) |}.

Definition parseVlanInfo (rawOutput : string) : option (list VlanInfo * error) :=
  let lines := Strings.Split rawOutput newline in
  match firstIndex isHeader lines with
  | None => Some ([], Errorf "could not find VLAN header in output")
  | Some i =>
      let dataStartIndex := (i + 2)%nat in
      vlans ← loop [] (drop dataStartIndex lines);
      Some (clean <$> (vlans : list VlanInfo), None)
  end.

Section Wrapper.
Variable RunCommand : Transport.

End Wrapper.

End Vlan.

(** ** show mac address-table *)

Module Mac.

Record MacAddressEntry := mkMacAddressEntry {
  Interface : string;
  MacAddress : string;
  VlanID : string;
  Type_ : string
}.

Definition reEntry : Regexp.Regexp :=
  Regexp.MustCompile "^\s*\*?\s*(\d+)\s+([\w\.]+)\s+([\w]+)(?:\s+[\w\-])*\s+(\S+)".

Definition isSkipped (line : string) : bool :=
  (Strings.len line =? 0) ||
  Strings.Contains line "Mac Address Table" ||
  Strings.Contains line "Vlan" ||
  Strings.Contains line "----" ||
  Strings.Contains line "Total Mac Addresses" ||
  Strings.Contains line "CPU".

Definition lineEntries (rawLine : string) : option (list MacAddressEntry) :=
  let line := Strings.TrimSpace rawLine in
  if isSkipped line then Some []
  else
    let matches := Regexp.FindStringSubmatch reEntry line in
    if (length matches =? 5)%nat then
      vlan ← matches !! 1%nat;
      mac ← matches !! 2%nat;
      type ← matches !! 3%nat;
      interface ← matches !! 4%nat;
      Some [ {| VlanID := Strings.TrimSpace vlan; MacAddress := mac;
                Type_ := type; Interface := interface |} ]
    else Some [].

Definition step (macEntries : list MacAddressEntry) (rawLine : string)
  : option (list MacAddressEntry) :=
  es ← lineEntries rawLine; Some (macEntries ++ es).


Section Wrapper.
Variable RunCommand : Transport.

End Wrapper.

End Mac.


(** ** show version *)

Module Version.

Record VersionInfo := mkVersionInfo {
  Hardware : string;
  Version : string;
  Release : string;
  SoftwareImage : string;
  SerialNumber : string;
  Uptime : string;
  Restarted : string;
  ReloadReason : string;
  Rommon : string
}.

(** The fields of the struct, in declaration order, as reflection
    enumerates them. *)
Inductive field : Type :=
| FHardware | FVersion | FRelease | FSoftwareImage | FSerialNumber
| FUptime | FRestarted | FReloadReason | FRommon.

Definition fields : list field :=
  [FHardware; FVersion; FRelease; FSoftwareImage; FSerialNumber;
   FUptime; FRestarted; FReloadReason; FRommon].

(** [t.Field(i).Name] *)
Definition fieldName (f : field) : string :=
  match f with
  | FHardware => "Hardware"
  | FVersion => "Version"
  | FRelease => "Release"
  | FSoftwareImage => "SoftwareImage"
  | FSerialNumber => "SerialNumber"
  | FUptime => "Uptime"
  | FRestarted => "Restarted"
  | FReloadReason => "ReloadReason"
  | FRommon => "Rommon"
  end.

(** [v.Field(i).String()] *)
Definition getField (f : field) (info : VersionInfo) : string :=
  match f with
  | FHardware => Hardware info
  | FVersion => Version info
  | FRelease => Release info
  | FSoftwareImage => SoftwareImage info
  | FSerialNumber => SerialNumber info
  | FUptime => Uptime info
  | FRestarted => Restarted info
  | FReloadReason => ReloadReason info
  | FRommon => Rommon info
  end.

(** [v.Field(i).SetString(x)] *)
Definition setField (f : field) (x : string) (info : VersionInfo)
  : VersionInfo :=
  let '(mkVersionInfo h v r s n u t l m) := info in
  match f with
  | FHardware => mkVersionInfo x v r s n u t l m
  | FVersion => mkVersionInfo h x r s n u t l m
  | FRelease => mkVersionInfo h v x s n u t l m
  | FSoftwareImage => mkVersionInfo h v r x n u t l m
  | FSerialNumber => mkVersionInfo h v r s x u t l m
  | FUptime => mkVersionInfo h v r s n x t l m
  | FRestarted => mkVersionInfo h v r s n u x l m
  | FReloadReason => mkVersionInfo h v r s n u t x m
  | FRommon => mkVersionInfo h v r s n u t l x
  end.

Definition dq : string := String "034" EmptyString.

Definition patHardware : string :=
  "(?i)cisco ([\w-]+[a-z\d\-]+) .* processor|Board Type\s*:\s*(\S+)|Product\s*:\s*Cisco ([\w\s]+) Switch|cisco (Nexus\S+ [\w-]+ Chassis)|cisco ([\w-]+ Chassis)".
Definition patVersion : string :=
  "(?i)Version ([^,]+),|NXOS:\s*version\s*(\S+).*|Active Image\s*:\s*.*?\nVersion\s*:\s*(\S+)|Software Version\s*:\s*(\S+)|system:\s*version\s*(\S+)".
Definition patRelease : string :=
  "(?i)Version [^,]+, (RELEASE SOFTWARE .*)".
Definition patSoftwareImage : string :=
  "(?i)System image file is " +:+ dq +:+ "([^" +:+ dq +:+ "]+)" +:+ dq +:+
  "|NXOS image file is:\s*(\S+)|Active Image\s*:\s*([^\s(]+)|system image file is:\s*(\S+)".
Definition patSerialNumber : string :=
  "(?i)(?:System serial number\s*:\s*(\S+)|Processor board ID\s*(\S+)|MAC Address\s*:\s*(\S+)|Processor Board ID\s*(\S+))".
Definition patUptime : string :=
  "(?i)uptime is (.+)|System Uptime\s*:\s*(\S+)|Kernel uptime is (.+)".
Definition patRestarted : string :=
  "(?i)System restarted at (.*)|Previous Restart\s*:\s*(.*)|Last reset\s*\n\s*Reason:\s*(\S+)".
Definition patReloadReason : string :=
  "(?i)(?:Last reload reason: (.*)|System returned to ROM by (.*)|Last reset\s*\n\s*Reason:\s*(.*))".
Definition patRommon : string :=
  "(?i)ROM: (.*)|Bootloader\s*:\s*(\S+)|BIOS:\s*version\s*(\S+)".

Definition pattern (f : field) : string :=
  match f with
  | FHardware => patHardware
  | FVersion => patVersion
  | FRelease => patRelease
  | FSoftwareImage => patSoftwareImage
  | FSerialNumber => patSerialNumber
  | FUptime => patUptime
  | FRestarted => patRestarted
  | FReloadReason => patReloadReason
  | FRommon => patRommon
  end.

(** The map from field name to compiled pattern. *)
Definition regexes : gmap string Regexp.Regexp :=
  list_to_map ((fun f => (fieldName f, Regexp.MustCompile (pattern f))) <$> fields).

(** The loop over the sub-matches [matches[1:]]: the first one that is not
    empty once trimmed. *)
Fixpoint firstNonEmpty (groups : list string) : option string :=
  match groups with
  | [] => None
  | g :: rest =>
      let m := Strings.TrimSpace g in
      if isEmpty m then firstNonEmpty rest else Some m
  end.

(** The body of the loop over the fields, for one field and one line. *)
Definition scanField (cleanLine : string) (info : VersionInfo) (f : field)
  : VersionInfo :=
  if isEmpty (getField f info) then
    match regexes !! fieldName f with
    | Some re =>
        let matches := Regexp.FindStringSubmatch re cleanLine in
        if (1 <? length matches)%nat then
          match firstNonEmpty (drop 1 matches) with
          | Some m => setField f m info
          | None => info
          end
        else info
    | None => info
    end
  else info.

Definition scanLine (info : VersionInfo) (line : string) : VersionInfo :=
  let cleanLine := Strings.TrimSpace line in
  foldl (scanField cleanLine) info fields.

Definition zero : VersionInfo :=
  mkVersionInfo EmptyString EmptyString EmptyString EmptyString EmptyString
                EmptyString EmptyString EmptyString EmptyString.

(** The struct after the scan of every line of the blob. *)
Definition scan (rawOutput : string) : VersionInfo :=
  foldl scanLine zero (Strings.Split rawOutput newline).

(** The conversion of the populated struct to a map: a key is added for
    each value that was found. *)
Definition addField (info : VersionInfo) (result : gmap string string)
  (f : field) : gmap string string :=
  let value := getField f info in
  if isEmpty value then result else <[fieldName f := value]> result.

Definition toMap (info : VersionInfo) : gmap string string :=
  foldl (addField info) ∅ fields.

Definition parseVersionInfo (rawOutput : string)
  : option (gmap string string) * error :=
  let info := scan rawOutput in
  if isEmpty (Version info) || isEmpty (SerialNumber info)
  then (None, Errorf "could not parse essential version info from output")
  else (Some (toMap info), None).

End Version.


(** ** show power inline *)

Module Power.

Record PowerModuleInfo := mkPowerModuleInfo {
  Module_ : string;
  Available : string;
  Used : string;
  Remaining : string
}.

Record PowerInterfaceInfo := mkPowerInterfaceInfo {
  Interface : string;
  Admin : string;
  Oper : string;
  Power : string;
  Device : string;
  Class : string;
  Max : string
}.

Inductive section : Type := NoSection | ModuleSection | InterfaceSection.

Record state := mkState {
  currentSection : section;
  modules : list PowerModuleInfo;
  interfaces : list PowerInterfaceInfo
}.

Definition initial : state := mkState NoSection [] [].

(** The shape of a data line of the Module section. *)
Definition moduleShape (fields : list string) : bool :=
  (length fields =? 4)%nat &&
  negb (Strings.HasPrefix (default EmptyString (fields !! 0%nat)) "---").

(** The shape of a data line of the Interface section. *)
Definition interfaceShape (fields : list string) : bool :=
  (6 <=? length fields)%nat &&
  Strings.Contains (default EmptyString (fields !! 0%nat)) "/".

Definition moduleEntry (fields : list string) : option PowerModuleInfo :=
  m ← fields !! 0%nat;
  a ← fields !! 1%nat;
  u ← fields !! 2%nat;
  r ← fields !! 3%nat;
  Some {| Module_ := m; Available := a; Used := u; Remaining := r |}.

Definition interfaceEntry (fields : list string) : option PowerInterfaceInfo :=
  i ← fields !! 0%nat;
  a ← fields !! 1%nat;
  o ← fields !! 2%nat;
  p ← fields !! 3%nat;
  d ← subslice fields 4 (length fields - 2);
  c ← fields !! (length fields - 2)%nat;
  m ← fields !! (length fields - 1)%nat;
  Some {| Interface := i; Admin := a; Oper := o; Power := p;
          Device := Strings.Join d " "; Class := c; Max := m |}.

(** One turn of the loop over the lines. *)
Definition step (st : state) (line : string) : option state :=
  let fields := Strings.Fields line in
  match fields with
  | [] => Some (mkState NoSection (modules st) (interfaces st))
  | first :: _ =>
      if String.eqb first "Module"
      then Some (mkState ModuleSection (modules st) (interfaces st))
      else if String.eqb first "Interface"
      then Some (mkState InterfaceSection (modules st) (interfaces st))
      else
        match currentSection st with
        | ModuleSection =>
            if moduleShape fields then
              module ← moduleEntry fields;
              Some (mkState ModuleSection (modules st ++ [module]) (interfaces st))
            else Some st
        | InterfaceSection =>
            if interfaceShape fields then
              iface ← interfaceEntry fields;
              Some (mkState InterfaceSection (modules st) (interfaces st ++ [iface]))
            else Some st
        | NoSection => Some st
        end
  end.

(** The state when the lines are exhausted. *)
Definition scan (rawOutput : string) : option state :=
  foldLines step initial (Strings.Split rawOutput newline).

(** The closing test on the two sequences. *)
Definition outcome (modules : list PowerModuleInfo)
  (interfaces : list PowerInterfaceInfo)
  : list PowerModuleInfo * list PowerInterfaceInfo * error :=
  match modules, interfaces with
  | [], [] => ([], [], Errorf "could not find module or interface data in output")
  | _, _ => (modules, interfaces, None)
  end.

Definition parsePowerInline (rawOutput : string)
  : option (list PowerModuleInfo * list PowerInterfaceInfo * error) :=
  st ← scan rawOutput;
  Some (outcome (modules st) (interfaces st)).

End Power.

(** ** show running-config *)

Module Config.

Record InterfaceConfig := mkInterfaceConfig {
  Interface : string;
  ConfigLines : list string
}.

Definition interfaceStartRegex : Regexp.Regexp :=
  Regexp.MustCompile "^interface\s+(\S+)$".

Definition isSkipped (line : string) : bool :=
  isEmpty line || Strings.HasPrefix line "!" ||
  Strings.HasPrefix line "version" || Strings.HasPrefix line "hostname".

(** The state of the loop: the blocks closed so far and [currentConfig],
    [None] for the nil pointer. *)
Definition state : Type := (list InterfaceConfig * option InterfaceConfig)%type.

Definition step (st : state) (rawLine : string) : option state :=
  let '(configs, currentConfig) := st in
  let line := Strings.TrimSpace rawLine in
  if isSkipped line then Some st
  else
    let matches := Regexp.FindStringSubmatch interfaceStartRegex line in
    if (1 <? length matches)%nat then
      let configs :=
        match currentConfig with
        | Some c => configs ++ [c]
        | None => configs
        end in
      interfaceName ← matches !! 1%nat;
      Some (configs, Some {| Interface := interfaceName; ConfigLines := [line] |})
    else
      match currentConfig with
      | Some c =>
          Some (configs, Some {| Interface := Interface c;
                                 ConfigLines := ConfigLines c ++ [line] |})
      | None => Some st
      end.

Definition parseInterfaceConfig (rawOutput : string)
  : option (list InterfaceConfig * error) :=
  let lines := Strings.Split rawOutput newline in
  '(configs, currentConfig) ← foldLines step ([], None) lines;
  let configs :=
    match currentConfig with
    | Some c => configs ++ [c]
    | None => configs
    end in
  match configs with
  | [] => Some ([], Errorf "no interface configurations found")
  | _ => Some (configs, None)
  end.

Definition normalize (c : InterfaceConfig) : InterfaceConfig :=
  {| Interface := normalizeInterfaceName (Interface c);
     ConfigLines := ConfigLines c |}.

Section Wrapper.
Variable RunCommand : Transport.

End Wrapper.

End Config.

(** ** show lldp neighbors *)

Module Lldp.

Record LldpNeighbor := mkLldpNeighbor {
  Interface : string;
  Neighbor : string;
  NeighborInterface : string;
  HoldTime : string;
  Capability : string
}.

Record columns := mkColumns {
  deviceIDIndex : Z;
  localIntfIndex : Z;
  holdtmeIndex : Z;
  capabilityIndex : Z;
  portIDIndex : Z
}.

Definition isHeader (line : string) : bool := Strings.HasPrefix line "Device ID".

Definition headerColumns (headerLine : string) : columns :=
  {| deviceIDIndex := Strings.Index headerLine "Device ID";
     localIntfIndex := Strings.Index headerLine "Local Intf";
     holdtmeIndex := Strings.Index headerLine "Hold-time";
     capabilityIndex := Strings.Index headerLine "Capability";
     portIDIndex := Strings.Index headerLine "Port ID" |}.

(** A data line as the loop reads it: trailing carriage returns removed. *)
Definition dataLine (raw : string) : string :=
  Strings.TrimRight raw (String "013" EmptyString).

Definition isSkipped (c : columns) (line : string) : bool :=
  isEmpty (Strings.TrimSpace line) ||
  Strings.Contains line "Total entries displayed" ||
  (Strings.len line <? portIDIndex c).

(** The five field substrings between adjacent column offsets. *)
Definition entry (c : columns) (line : string) : option LldpNeighbor :=
  intf ← Strings.slice line (localIntfIndex c) (holdtmeIndex c);
  dev ← Strings.slice line (deviceIDIndex c) (localIntfIndex c);
  port ← Strings.sliceFrom line (portIDIndex c);
  hold ← Strings.slice line (holdtmeIndex c) (capabilityIndex c);
  cap ← Strings.slice line (capabilityIndex c) (portIDIndex c);
  Some {| Interface := Strings.TrimSpace intf;
          Neighbor := Strings.TrimSpace dev;
          NeighborInterface := Strings.TrimSpace port;
          HoldTime := Strings.TrimSpace hold;
          Capability := Strings.TrimSpace cap |}.

(** The body of the data loop: the records one line adds. *)
Definition lineNeighbors (c : columns) (raw : string)
  : option (list LldpNeighbor) :=
  let line := dataLine raw in
  if isSkipped c line then Some []
  else neighbor ← entry c line; Some [neighbor].

Definition step (c : columns) (neighbors : list LldpNeighbor) (raw : string)
  : option (list LldpNeighbor) :=
  rs ← lineNeighbors c raw; Some (neighbors ++ rs).

Definition parseLldpNeighbors (rawOutput : string)
  : option (list LldpNeighbor * error) :=
  let lines := Strings.Split rawOutput newline in
  match firstIndex isHeader lines with
  | None => Some ([], None)
  | Some i =>
      let headerLine := default EmptyString (lines !! i) in
      let dataStartIndex := S i in
      let c := headerColumns headerLine in
      if (deviceIDIndex c =? -1) || (localIntfIndex c =? -1) ||
         (holdtmeIndex c =? -1) || (capabilityIndex c =? -1) ||
         (portIDIndex c =? -1)
      then Some ([], Errorf "could not parse LLDP neighbors header columns")
      else
        neighbors ← foldLines (step c) [] (drop dataStartIndex lines);
        Some (neighbors, None)
  end.

Definition normalize (n : LldpNeighbor) : LldpNeighbor :=
  {| Interface := normalizeInterfaceName (Interface n);
     Neighbor := Neighbor n;
     NeighborInterface := normalizeInterfaceName (NeighborInterface n);
     HoldTime := HoldTime n;
     Capability := Capability n |}.

Section Wrapper.
Variable RunCommand : Transport.

Definition Show_lldp_neighbors (switch_hostname : string)
  : option (list LldpNeighbor * error) :=
  let '(outputString, err) := RunCommand switch_hostname "show lldp neighbors" in
  match err with
  | Some _ => Some ([], err)
  | None =>
      '(lldp_neighbors_data, _) ← parseLldpNeighbors outputString;
      let lldp_neighbors_data := normalize <$> (lldp_neighbors_data : list LldpNeighbor) in
      match lldp_neighbors_data with
      | [] => Some ([], None)
      | _ => Some (lldp_neighbors_data, None)
      end
  end.
End Wrapper.

End Lldp.


(** ** show interface *)

Module Interfaces.

Record InterfaceDetails := mkInterfaceDetails {
  Interface : string;
  Description : string;
  Hardware : string;
  MacAddress : string;
  IPAddress : string;
  LinkStatus : string;
  ProtocolStatus : string;
  Duplex : string;
  Speed : string;
  MediaType : string;
  Mtu : string;
  Bandwidth : string;
  Delay : string;
  Reliability : string;
  TxLoad : string;
  RxLoad : string;
  Encapsulation : string;
  LastInput : string;
  LastOutput : string;
  OutputHang : string;
  QueueStrategy : string;
  InputRateBps : string;
  OutputRateBps : string;
  PacketsInput : string;
  PacketsOutput : string;
  Runts : string;
  Giants : string;
  Throttles : string;
  BytesInput : string;
  BytesOutput : string;
  InputErrors : string;
  OutputErrors : string;
  CrcErrors : string;
  Collisions : string
}.

Definition reInterfaceStart := Regexp.MustCompile "^(\S+\d+\S*)\s+is\s+.*".
Definition rePrompt := Regexp.MustCompile "^\S+[>#]\s*$".

Definition reStatus := Regexp.MustCompile
  "^(\S+)\s+is\s+(administratively down|down|up|err-disabled|deleted)(?:,\s+line\s+protocol\s+is\s+(down|up|down \(disabled\)))?".
Definition reHardware := Regexp.MustCompile
  "Hardware(?::| is) ([^,]+), address is ([\w\.]+)".
Definition reDescription := Regexp.MustCompile "Description:\s*(.*)".
Definition reAddress := Regexp.MustCompile "Internet address is ([\d\.]+\/\d+)".
Definition reMtuBwDly := Regexp.MustCompile
  "MTU (\d+) bytes, BW (\d+) Kbit(?:/sec)?, DLY (\d+) usec(?:,)?".
Definition reDuplexSpeedMedia := Regexp.MustCompile
  "\s*(\S+-duplex),\s*([^,]+)(?:,\s*media type is (.*))?".
Definition reEncapsulation := Regexp.MustCompile "\s*Encapsulation ([^,]+),?".
Definition reReliabilityLoad := Regexp.MustCompile
  "reliability\s+(\d+\/\d+),\s+txload\s+(\d+\/\d+),\s+rxload\s+(\d+\/\d+)".
Definition reRates := Regexp.MustCompile
  "(?s)(?:5 minute|30 seconds) input rate (\d+) bits/sec,.*(?:5 minute|30 seconds) output rate (\d+) bits/sec".
Definition reInputCounters := Regexp.MustCompile
  "(\d+)\s+(?:packets\s+input|input\s+packets)(?:,)?\s+(\d+)\s+bytes".
Definition reInputErrors := Regexp.MustCompile
  "(\d+)\s+input\s+errors,\s+(\d+)\s+CRC".
Definition reInputErrorsNexus := Regexp.MustCompile "(\d+)\s+input\s+error(?:s)?".
Definition reCrcErrorsNexus := Regexp.MustCompile "(\d+)\s+CRC".
Definition reOutputCounters := Regexp.MustCompile
  "(\d+)\s+(?:packets\s+output|output\s+packets)(?:,)?\s+(\d+)\s+bytes".
Definition reOutputErrors := Regexp.MustCompile
  "(\d+)\s+output\s+errors(?:,)?\s+(\d+)\s+collision(?:s)?".
Definition reLastIO := Regexp.MustCompile
  ("\s*Last input\s+(.*?)," +:+ "\s+output\s+(.*?)," +:+ "\s+output hang\s+(.*)").
Definition reQueueStrategy := Regexp.MustCompile "Queueing strategy:\s*(.*)".
Definition reRuntsGiantsThrottles := Regexp.MustCompile
  "\s*(\d+)\s+runts,\s+(\d+)\s+giants,\s+(\d+)\s+throttles".
Definition reRuntsGiantsNexus := Regexp.MustCompile
  "\s*(\d+)\s+runts\s+(\d+)\s+giants".

Definition findString (re : Regexp.Regexp) (s : string) : option string :=
  let matches := Regexp.FindStringSubmatch re s in
  if (1 <? length matches)%nat
  then Strings.TrimSpace <$> matches !! 1%nat
  else Some EmptyString.

(** The first [n] groups of the match of [re] when it has more than [n]
    entries; the fields they fill keep their zero value otherwise. *)
Definition groups (n : nat) (re : Regexp.Regexp) (block : string)
  : option (option (list string)) :=
  let matches := Regexp.FindStringSubmatch re block in
  if (n <? length matches)%nat
  then Some <$> subslice matches 1 (S n)
  else Some None.

Definition group (gs : option (list string)) (i : nat) : string :=
  match gs with
  | Some l => default EmptyString (l !! i)
  | None => EmptyString
  end.

Definition empty : InterfaceDetails :=
  let e := EmptyString in
  mkInterfaceDetails e e e e e e e e e e e e e e e e e e e e e e e e e e e e
                     e e e e e e.

(** The protocol status: the third group of the status match when it is
    there and not empty, the link status otherwise. *)
Definition protocolStatus (matches : list string) (link : string)
  : option string :=
  if (3 <? length matches)%nat then
    g ← matches !! 3%nat;
    Some (if isEmpty g then link else g)
  else Some link.

Definition mediaType (block : string) : option string :=
  let m := Regexp.FindStringSubmatch reDuplexSpeedMedia block in
  if ((2 <? length m) && (3 <? length m))%nat then
    g ← m !! 3%nat; Some (Strings.TrimSpace g)
  else Some EmptyString.

(** Input and CRC errors: from one line, or else from the two patterns of
    the other dialect. *)
Definition inputAndCrcErrors (block : string) : option (string * string) :=
  inErrors ← groups 2 reInputErrors block;
  match inErrors with
  | Some _ => Some (group inErrors 0, group inErrors 1)
  | None =>
      i ← findString reInputErrorsNexus block;
      c ← findString reCrcErrorsNexus block;
      Some (i, c)
  end.

Definition parseSingleInterface (block : string) : option InterfaceDetails :=
  let matches := Regexp.FindStringSubmatch reStatus block in
  if (2 <? length matches)%nat then
    interface ← matches !! 1%nat;
    link ← matches !! 2%nat;
    protocol ← protocolStatus matches link;
    hw ← groups 2 reHardware block;
    description ← findString reDescription block;
    address ← findString reAddress block;
    mtu ← groups 3 reMtuBwDly block;
    dsm ← groups 2 reDuplexSpeedMedia block;
    media ← mediaType block;
    encapsulation ← findString reEncapsulation block;
    load ← groups 3 reReliabilityLoad block;
    rates ← groups 2 reRates block;
    inCounters ← groups 2 reInputCounters block;
    '(inputErrors, crcErrors) ← inputAndCrcErrors block;
    outCounters ← groups 2 reOutputCounters block;
    outErrors ← groups 2 reOutputErrors block;
    lastIO ← groups 3 reLastIO block;
    queue ← findString reQueueStrategy block;
    rgt ← groups 3 reRuntsGiantsThrottles block;
    rgNexus ← groups 2 reRuntsGiantsNexus block;
    let rg := match rgt with Some _ => rgt | None => rgNexus end in
    Some {| Interface := interface;
            Description := Strings.TrimSpace description;
            Hardware := Strings.TrimSpace (group hw 0);
            MacAddress := Strings.TrimSpace (group hw 1);
            IPAddress := address;
            LinkStatus := link;
            ProtocolStatus := protocol;
            Duplex := Strings.TrimSpace (group dsm 0);
            Speed := Strings.TrimSpace (group dsm 1);
            MediaType := media;
            Mtu := group mtu 0;
            Bandwidth := group mtu 1;
            Delay := group mtu 2;
            Reliability := group load 0;
            TxLoad := group load 1;
            RxLoad := group load 2;
            Encapsulation := encapsulation;
            LastInput := Strings.TrimSpace (group lastIO 0);
            LastOutput := Strings.TrimSpace (group lastIO 1);
            OutputHang := Strings.TrimSpace (group lastIO 2);
            QueueStrategy := queue;
            InputRateBps := group rates 0;
            OutputRateBps := group rates 1;
            PacketsInput := group inCounters 0;
            PacketsOutput := group outCounters 0;
            Runts := group rg 0;
            Giants := group rg 1;
            Throttles := group rgt 2;
            BytesInput := group inCounters 1;
            BytesOutput := group outCounters 1;
            InputErrors := inputErrors;
            OutputErrors := group outErrors 0;
            CrcErrors := crcErrors;
            Collisions := group outErrors 1 |}
  else Some empty.

(** The cleaning loop: the lines between the echo of the command and the
    next prompt.  The state is [parsingActive] and [cleanLines]. *)
Definition cleanStep (st : bool * list string) (raw : string)
  : bool * list string :=
  let '(parsingActive, cleanLines) := st in
  let line := Strings.TrimRight raw (String "013" EmptyString) in
  if negb parsingActive && Strings.Contains line "show interface"
  then (true, cleanLines)
  else
    let parsingActive :=
      if parsingActive && Regexp.MatchString rePrompt line then false
      else parsingActive in
    if parsingActive then (parsingActive, cleanLines ++ [line])
    else (parsingActive, cleanLines).

Definition cleanLines (rawOutput : string) : list string :=
  snd (foldl cleanStep (false, []) (Strings.Split rawOutput newline)).

(** Parsing of a finished block; blocks whose record has no name are
    dropped. *)
Definition emit (interfaces : list InterfaceDetails) (currentBlock : list string)
  : option (list InterfaceDetails) :=
  match currentBlock with
  | [] => Some interfaces
  | _ :: _ =>
      iface ← parseSingleInterface (Strings.Join currentBlock (String newline EmptyString));
      Some (if isEmpty (Interface iface) then interfaces
            else interfaces ++ [iface])
  end.

(** The stitching loop; the state is [interfaces] and [currentBlock]. *)
Definition step (st : list InterfaceDetails * list string) (line : string)
  : option (list InterfaceDetails * list string) :=
  let '(interfaces, currentBlock) := st in
  if Regexp.MatchString reInterfaceStart line then
    interfaces ← emit interfaces currentBlock;
    Some (interfaces, [line])
  else
    match currentBlock with
    | [] => Some st
    | _ :: _ => Some (interfaces, currentBlock ++ [line])
    end.

Definition parseInterfaces (rawOutput : string)
  : option (list InterfaceDetails * error) :=
  '(interfaces, currentBlock) ← foldLines step ([], []) (cleanLines rawOutput);
  interfaces ← emit interfaces currentBlock;
  Some (interfaces, None).

Definition normalize (d : InterfaceDetails) : InterfaceDetails :=
  let '(mkInterfaceDetails i a b c d e f g h j k l m n o p q r s t u v w x y z
                           a1 b1 c1 d1 e1 f1 g1 h1) := d in
  mkInterfaceDetails (normalizeInterfaceName i) a b c d e f g h j k l m n o p
                     q r s t u v w x y z a1 b1 c1 d1 e1 f1 g1 h1.

Section Wrapper.
Variable RunCommand : Transport.

Definition Show_interfaces (switch_hostname : string)
  : option (list InterfaceDetails * error) :=
  let '(outputString, err) := RunCommand switch_hostname "show interface" in
  match err with
  | Some _ => Some ([], err)
  | None =>
      '(show_interface_data, err) ← parseInterfaces outputString;
      match err with
      | Some e =>
          Some ([], Errorf ("error during parsing 'show interfaces' output for "
                            +:+ switch_hostname +:+ ": " +:+ e))
      | None =>
          match show_interface_data with
          | [] => Some ([], None)
          | _ => Some (normalize <$> (show_interface_data : list InterfaceDetails), None)
          end
      end
  end.
End Wrapper.

End Interfaces.


(** ** The patterns of the package *)

Definition compiledPatterns : list Regexp.Regexp :=
  ((fun f => Regexp.MustCompile (Version.pattern f)) <$> Version.fields) ++
  [ Vlan.isNewVlanLine; Mac.reEntry; Config.interfaceStartRegex;
    Interfaces.reInterfaceStart; Interfaces.rePrompt; Interfaces.reStatus;
    Interfaces.reHardware; Interfaces.reDescription; Interfaces.reAddress;
    Interfaces.reMtuBwDly; Interfaces.reDuplexSpeedMedia;
    Interfaces.reEncapsulation; Interfaces.reReliabilityLoad;
    Interfaces.reRates; Interfaces.reInputCounters; Interfaces.reInputErrors;
    Interfaces.reInputErrorsNexus; Interfaces.reCrcErrorsNexus;
    Interfaces.reOutputCounters; Interfaces.reOutputErrors;
    Interfaces.reLastIO; Interfaces.reQueueStrategy;
    Interfaces.reRuntsGiantsThrottles; Interfaces.reRuntsGiantsNexus ].

(** The program [MustCompile] falls back on for a pattern that does not
    parse. *)
Definition isFallback (re : Regexp.Regexp) : bool :=
  match Regexp.prog re with
  | Regexp.Byte false false [] => true
  | _ => false
  end.

(** ** Notions used to state the properties *)

(** The records a loop of the shape "append what this line gives" emits
    for a list of lines. *)
Definition emitted {A} (f : string -> option (list A)) (lines : list string)
  : list A :=
  flat_map (fun l => default [] (f l)) lines.


(** The value a line offers for a field of the device identity: the first
    group of the match of the field's pattern on the trimmed line that is
    not empty once trimmed. *)
Definition lineValue (f : Version.field) (line : string) : option string :=
  Version.firstNonEmpty
    (drop 1 (Regexp.FindStringSubmatch
               (Regexp.MustCompile (Version.pattern f))
               (Strings.TrimSpace line))).

(** A line matches a field when the field's pattern matches its trimmed
    text, the text the scan hands to the pattern. *)
Definition lineMatches (f : Version.field) (line : string) : bool :=
  Regexp.MatchString (Regexp.MustCompile (Version.pattern f))
                     (Strings.TrimSpace line).

(** The sections of the inline-power report.  A blank line and a line
    whose first token is a section keyword decide the section of the lines
    that follow; any other line is a data line of the current section. *)
Definition isBlank (line : string) : bool :=
  match Strings.Fields line with
  | [] => true
  | _ :: _ => false
  end.

Definition isSectionHeader (line : string) : bool :=
  match Strings.Fields line with
  | first :: _ => String.eqb first "Module" || String.eqb first "Interface"
  | [] => false
  end.

Definition track (sec : Power.section) (line : string) : Power.section :=
  match Strings.Fields line with
  | [] => Power.NoSection
  | first :: _ =>
      if String.eqb first "Module" then Power.ModuleSection
      else if String.eqb first "Interface" then Power.InterfaceSection
      else sec
  end.

Definition sectionEq (a b : Power.section) : bool :=
  match a, b with
  | Power.NoSection, Power.NoSection => true
  | Power.ModuleSection, Power.ModuleSection => true
  | Power.InterfaceSection, Power.InterfaceSection => true
  | _, _ => false
  end.

(** The valid rows of a section: the data lines read while the section is
    current whose tokens have the shape of the section. *)
Definition rowAt (want : Power.section) (shape : list string -> bool)
  (sec : Power.section) (line : string) : list (list string) :=
  if negb (isBlank line) && negb (isSectionHeader line) &&
     sectionEq sec want && shape (Strings.Fields line)
  then [Strings.Fields line] else [].

Fixpoint rows (want : Power.section) (shape : list string -> bool)
  (sec : Power.section) (lines : list string) : list (list string) :=
  match lines with
  | [] => []
  | l :: ls => rowAt want shape sec l ++ rows want shape (track sec l) ls
  end.

Definition moduleRows (lines : list string) : list (list string) :=
  rows Power.ModuleSection Power.moduleShape Power.NoSection lines.

Definition interfaceRows (lines : list string) : list (list string) :=
  rows Power.InterfaceSection Power.interfaceShape Power.NoSection lines.

(** A parse that ends with an error. *)
Definition failed {A} (r : option (A * error)) : Prop :=
  exists x e, r = Some (x, Some e).

(** The blob of end-to-end case 5: one module row, no interface row. *)
Definition case5Blob : string :=
  "Module   Available     Used     Remaining" +:+ String newline
  ("          (Watts)     (Watts)    (Watts) " +:+ String newline
   ("------   ---------   --------   ---------" +:+ String newline
    ("1          1440.0      123.2      1316.8" +:+ String newline
     (EmptyString +:+ String newline
      ("Interface Admin  Oper       Power   Device              Class Max" +:+ String newline
       ("                            (Watts)                            " +:+ String newline
        "--------- ------ ---------- ------- ------------------- ----- ----")))))).

(** A blob with a unit line and a rule between the Interface header and
    the first interface row. *)
Definition wattsBlob : string :=
  "Interface Admin  Oper       Power   Device              Class Max" +:+ String newline
  ("                            (Watts)                            " +:+ String newline
   ("--------- ------ ---------- ------- ------------------- ----- ----" +:+ String newline
    "Gi1/0/1   auto   on         15.4    Cisco IP Phone 7962 3     30.0")).

(** A pattern anchored at the start of the text that begins with the
    bytes of [lit]. *)
Fixpoint spells (n : Regexp.node) (lit : string) {struct lit} : bool :=
  match lit with
  | EmptyString => true
  | String c t =>
      match n with
      | Regexp.Cat (Regexp.Byte false false [(lo, hi)]) r =>
          (lo =? Strings.byteOf c)%N && (hi =? Strings.byteOf c)%N && spells r t
      | _ => false
      end
  end.

Definition anchoredLiteral (n : Regexp.node) (lit : string) : bool :=
  match n with
  | Regexp.Cat Regexp.Bol r => spells r lit
  | _ => false
  end.

(** The record-start lines of the running configuration: the lines whose
    trimmed text matches the interface pattern. *)
Definition isConfigStart (raw : string) : bool :=
  (1 <? length (Regexp.FindStringSubmatch Config.interfaceStartRegex
                  (Strings.TrimSpace raw)))%nat.

Definition startName (raw : string) : string :=
  default EmptyString
    (Regexp.FindStringSubmatch Config.interfaceStartRegex
       (Strings.TrimSpace raw) !! 1%nat).

(** The lines a block keeps of the lines below its start: their trimmed
    text, without the skipped ones. *)
Definition bodyLines (raws : list string) : list string :=
  List.filter (fun l => negb (Config.isSkipped l)) (Strings.TrimSpace <$> raws).

(** ** Notions used by the further properties *)

(** A byte that is an ASCII letter. *)
Definition isLetter (c : ascii) : bool :=
  let b := Strings.byteOf c in
  ((65 <=? b) && (b <=? 90) || (97 <=? b) && (b <=? 122))%N.

(** The text that follows the type of an interface in its name: port
    numbers and separators, with no letter and no space. *)
Fixpoint isPortSuffix (s : string) : bool :=
  match s with
  | EmptyString => true
  | String c t => negb (isLetter c) && negb (Ascii.eqb c " ") && isPortSuffix t
  end.

Fixpoint allLetters (s : string) : bool :=
  match s with
  | EmptyString => true
  | String c t => isLetter c && allLetters t
  end.

(** The block of the running configuration still open in the stitching
    loop, as a list: [currentConfig] when it is not nil. *)
Definition openBlock (cur : option Config.InterfaceConfig)
  : list Config.InterfaceConfig :=
  match cur with
  | Some c => [c]
  | None => []
  end.

(** What one line does to the VLAN records in the data loop of
    parseVlanInfo, for a line that does not open the second table: a
    line starting with a digit and holding at least three tokens adds a
    record, any other non-empty line extends the ports of the last
    record. *)
Definition vlanLine (vlans : list Vlan.VlanInfo) (raw : string)
  : list Vlan.VlanInfo :=
  let line := Strings.TrimRight raw (String "013" EmptyString) in
  if isEmpty line then vlans
  else if Regexp.MatchString Vlan.isNewVlanLine line then
    let fields := Strings.Fields line in
    if (length fields <? 3)%nat then vlans
    else
      vlans ++
      [ {| Vlan.VLANID := default EmptyString (fields !! 0%nat);
           Vlan.VLANName := default EmptyString (fields !! 1%nat);
           Vlan.Status := default EmptyString (fields !! 2%nat);
           Vlan.Ports :=
             if (3 <? length fields)%nat
             then Strings.Split (Strings.Join (drop 3 fields) EmptyString) ","
             else [] |} ]
  else
    match vlans with
    | [] => vlans
    | _ :: _ => Vlan.appendToLast vlans (Strings.Split (Strings.TrimSpace line) ",")
    end.

(** The line that opens the second table of the VLAN report. *)
Definition isVlanTypeLine (raw : string) : bool :=
  Strings.HasPrefix (Strings.TrimRight raw (String "013" EmptyString)) "VLAN Type".

Definition isDigit (c : ascii) : bool :=
  let b := Strings.byteOf c in ((48 <=? b) && (b <=? 57))%N.

Definition startsWithDigit (s : string) : bool :=
  match s with
  | String c _ => isDigit c
  | EmptyString => false
  end.

(** The properties of a VLAN record the data loop keeps. *)
Definition vlanShape (v : Vlan.VlanInfo) : Prop :=
  startsWithDigit (Vlan.VLANID v) = true /\
  Vlan.VLANName v <> EmptyString /\ Vlan.Status v <> EmptyString.

(** Column offsets of the CDP header in the order of the columns. *)
Definition cdpOrdered (c : Cdp.columns) : Prop :=
  0 <= Cdp.localIntfIndex c /\
  Cdp.localIntfIndex c <= Cdp.holdtmeIndex c /\
  Cdp.holdtmeIndex c <= Cdp.capabilityIndex c /\
  Cdp.capabilityIndex c <= Cdp.platformIndex c /\
  Cdp.platformIndex c <= Cdp.portIDIndex c.

(** ** The wrappers of show version and show power inline *)

Section Wrapper.
Variable RunCommand : Transport.

Definition Show_version (switch_hostname : string)
  : option (gmap string string) * error :=
  let '(outputString, err) := RunCommand switch_hostname "show version" in
  match err with
  | Some _ => (None, err)
  | None =>
      let '(show_version_data, err) := Version.parseVersionInfo outputString in
      match err with
      | Some e =>
          (None, Errorf ("error parsing 'show version' output for "
                         +:+ switch_hostname +:+ ": " +:+ e))
      | None => (show_version_data, None)
      end
  end.

(** A parse failure is logged and dropped: the wrapper then returns nil
    for both sequences and a nil error. *)
Definition Show_power_inline (switch_hostname : string)
  : option (list Power.PowerModuleInfo * list Power.PowerInterfaceInfo * error) :=
  let '(outputString, err) := RunCommand switch_hostname "show power inline" in
  match err with
  | Some _ => Some ([], [], err)
  | None =>
      '(power_inline_modules_data, power_inline_interfaces_data, err) ←
        Power.parsePowerInline outputString;
      match err with
      | Some _ => Some ([], [], None)
      | None =>
          Some (power_inline_modules_data, power_inline_interfaces_data, None)
      end
  end.
End Wrapper.

(** The shape of a block of the running configuration: its lines begin
    with a line that starts with "interface", and none of them is a line
    the stitching loop skips. *)
Definition configShape (c : Config.InterfaceConfig) : Prop :=
  (exists first rest,
     Config.ConfigLines c = first :: rest /\
     Strings.HasPrefix first "interface" = true) /\
  forall l, In l (Config.ConfigLines c) -> Config.isSkipped l = false.

(** ** show cdp neighbors, the earlier parser

    The package text holds a second parseCdpNeighbors, with the same
    record, the same header search, the same column offsets and the same
    skipped lines, and a data loop that knows two kinds of lines: the
    detail line of a split entry and the line that names a device. *)

Module CdpLegacy.

(** One turn of the data loop; the state is the records so far and
    [lastDeviceID]. *)
Definition step (c : Cdp.columns) (st : list Cdp.CdpNeighbor * string)
  (line : string) : option (list Cdp.CdpNeighbor * string) :=
  let '(neighbors, lastDeviceID) := st in
  let trimmedLine := Strings.TrimSpace line in
  if Cdp.isSkipped trimmedLine then Some st
  else
    let isLongEnoughForDetail := Strings.len line >? Cdp.platformIndex c in
    deviceIDFromColumn ←
      (if isLongEnoughForDetail
       then Strings.TrimSpace <$> Strings.slice line 0 (Cdp.localIntfIndex c)
       else Some EmptyString);
    isDetailLine ←
      (if isEmpty deviceIDFromColumn && isLongEnoughForDetail then
         rest ← Strings.sliceFrom line (Cdp.localIntfIndex c);
         Some (negb (isEmpty (Strings.TrimSpace rest)))
       else Some false);
    if isDetailLine : bool then
      if isEmpty lastDeviceID then Some st
      else
        intf ← Strings.slice line (Cdp.localIntfIndex c) (Cdp.holdtmeIndex c);
        cap ← Strings.slice line (Cdp.capabilityIndex c) (Cdp.platformIndex c - 1);
        plat ← Strings.slice line (Cdp.platformIndex c - 1) (Cdp.portIDIndex c - 1);
        port ← Strings.sliceFrom line (Cdp.portIDIndex c - 1);
        Some (neighbors ++
              [ {| Cdp.Neighbor := lastDeviceID;
                   Cdp.Interface := Strings.TrimSpace intf;
                   Cdp.HoldTime := EmptyString;
                   Cdp.Capability := Strings.TrimSpace cap;
                   Cdp.Platform := Strings.TrimSpace plat;
                   Cdp.NeighborInterface := Strings.TrimSpace port |} ],
              EmptyString)
    else if negb (isEmpty trimmedLine) then Some (neighbors, trimmedLine)
    else Some st.

Definition parseCdpNeighbors (rawOutput : string)
  : option (list Cdp.CdpNeighbor * error) :=
  let lines := Strings.Split rawOutput newline in
  match firstIndex Cdp.isHeader lines with
  | None => Some ([], None)
  | Some headerIndex =>
      let headerLine := default EmptyString (lines !! headerIndex) in
      let dataStartIndex := S headerIndex in
      let c := Cdp.headerColumns headerLine in
      if (Cdp.localIntfIndex c =? -1) || (Cdp.holdtmeIndex c =? -1) ||
         (Cdp.capabilityIndex c =? -1) || (Cdp.platformIndex c =? -1) ||
         (Cdp.portIDIndex c =? -1)
      then Some ([], Errorf "could not parse CDP neighbors header columns correctly (check alignment)")
      else
        '(neighbors, _) ← foldLines (step c) ([], EmptyString)
                             (drop dataStartIndex lines);
        Some (neighbors, None)
  end.

End CdpLegacy.

(** * Properties *)

Arguments Regexp.FindStringSubmatch : simpl never.
Arguments Regexp.MatchString : simpl never.
Arguments Regexp.MustCompile : simpl never.
Arguments Strings.Fields : simpl never.
Arguments Strings.TrimSpace : simpl never.
Arguments Strings.TrimRight : simpl never.
Arguments Strings.Split : simpl never.

(** Every pattern of the package parses. *)
Lemma patterns_compile :
  forallb (fun re => negb (isFallback re)) compiledPatterns = true.
Proof. vm_compute. reflexivity. Qed.

(** ** Facts on the string functions *)

Section StringFacts.

Lemma HasPrefix_space c s :
  Strings.HasPrefix (String c s) " " = Ascii.eqb " " c.
Proof. destruct s; cbn [Strings.HasPrefix]; apply andb_true_r. Qed.

Lemma Contains_cons c s sub :
  Strings.Contains (String c s) sub =
  Strings.HasPrefix (String c s) sub || Strings.Contains s sub.
Proof. reflexivity. Qed.

Lemma Contains_app_space a b :
  Strings.Contains (a +:+ b) " " =
  Strings.Contains a " " || Strings.Contains b " ".
Proof.
  induction a as [|c a IH].
  - reflexivity.
  - change (String c a +:+ b) with (String c (a +:+ b)).
    rewrite !Contains_cons, !HasPrefix_space, IH.
    apply orb_assoc.
Qed.

(** Nothing is replaced where the old string does not occur. *)
Lemma ReplaceAll_absent s old new :
  Strings.Contains s old = false -> Strings.ReplaceAll s old new = s.
Proof.
  unfold Strings.ReplaceAll.
  induction s as [|c s IH]; intros H; [reflexivity|].
  rewrite Contains_cons in H. apply orb_false_elim in H as [Hp Hc].
  cbn [Strings.replaceAllFrom]. rewrite Hp, (IH Hc). reflexivity.
Qed.

(** Once the spaces are taken out, none is left. *)
Lemma ReplaceAll_space_free s skip :
  Strings.Contains (Strings.replaceAllFrom skip s " " EmptyString) " " = false.
Proof.
  revert skip. induction s as [|c s IH]; intros skip; [reflexivity|].
  cbn [Strings.replaceAllFrom]. destruct skip as [|k]; [|apply IH].
  rewrite HasPrefix_space. destruct (Ascii.eqb " " c) eqn:E.
  - cbn. apply IH.
  - rewrite Contains_cons, HasPrefix_space, E, IH. reflexivity.
Qed.

Variable r : Strings.Replacer.

Lemma lookup_absent s :
  (forall p, In p (Strings.oldnew r) -> Strings.HasPrefix s (fst p) = false) ->
  Strings.lookup r s = None.
Proof.
  unfold Strings.lookup. induction (Strings.oldnew r) as [|p l IH]; intros H.
  - reflexivity.
  - cbn. rewrite (H p (or_introl eq_refl)). apply IH.
    intros q Hq. apply H. right. exact Hq.
Qed.

Lemma lookup_in s old new :
  Strings.lookup r s = Some (old, new) -> In (old, new) (Strings.oldnew r).
Proof. unfold Strings.lookup. intros H. apply find_some in H. tauto. Qed.

(** A string in which no old string occurs is left as it is. *)
Lemma Replace_absent s :
  (forall p, In p (Strings.oldnew r) -> Strings.Contains s (fst p) = false) ->
  Strings.Replace r s = s.
Proof.
  unfold Strings.Replace.
  induction s as [|c s IH]; intros H; [reflexivity|].
  cbn [Strings.replaceFrom]. rewrite lookup_absent.
  - f_equal. apply IH. intros p Hp. specialize (H p Hp).
    rewrite Contains_cons in H. apply orb_false_elim in H. tauto.
  - intros p Hp. specialize (H p Hp).
    rewrite Contains_cons in H. apply orb_false_elim in H. tauto.
Qed.

(** Replacing brings in no space when no new string has one. *)
Lemma Replace_space_free s skip :
  (forall p, In p (Strings.oldnew r) -> Strings.Contains (snd p) " " = false) ->
  Strings.Contains s " " = false ->
  Strings.Contains (Strings.replaceFrom r skip s) " " = false.
Proof.
  intros Hnew. revert skip.
  induction s as [|c s IH]; intros skip H; [reflexivity|].
  rewrite Contains_cons in H. apply orb_false_elim in H as [Hp Hc].
  cbn [Strings.replaceFrom]. destruct skip as [|k]; [|apply IH, Hc].
  destruct (Strings.lookup r (String c s)) as [[old new]|] eqn:E.
  - pose proof (Hnew _ (lookup_in _ _ _ E)) as Hn. cbn [snd] in Hn.
    rewrite Contains_app_space, Hn. apply IH, Hc.
  - rewrite HasPrefix_space in Hp.
    rewrite Contains_cons, HasPrefix_space, Hp. apply IH, Hc.
Qed.

End StringFacts.

(** ** The interface-name normalizer *)

Lemma holdsAlias_false name :
  holdsAlias name = false ->
  forall p, In p aliasTable -> Strings.Contains name (fst p) = false.
Proof.
  unfold holdsAlias. intros H p Hp.
  destruct (Strings.Contains name (fst p)) eqn:E; [|reflexivity].
  rewrite <- H. symmetry. apply existsb_exists. exists p. split; assumption.
Qed.

Lemma normalize_space_free name :
  Strings.Contains (normalizeInterfaceName name) " " = false.
Proof.
  unfold normalizeInterfaceName, Strings.Replace.
  apply Replace_space_free.
  - intros p Hp. cbn in Hp.
    repeat (destruct Hp as [<-|Hp]; [reflexivity|]). destruct Hp.
  - apply ReplaceAll_space_free.
Qed.

Lemma normalize_alias_free name :
  Strings.Contains name " " = false -> holdsAlias name = false ->
  normalizeInterfaceName name = name.
Proof.
  intros Hs Ha. unfold normalizeInterfaceName.
  rewrite (ReplaceAll_absent _ _ _ Hs).
  apply Replace_absent. exact (holdsAlias_false name Ha).
Qed.

(** C5, as stated, fails: normalizing "Tenn" gives "Ten", and normalizing
    that gives "Te". *)
Lemma normalize_twice_differs :
  normalizeInterfaceName "Tenn" = "Ten" /\
  normalizeInterfaceName (normalizeInterfaceName "Tenn") = "Te" /\
  normalizeInterfaceName (normalizeInterfaceName "Tenn")
    <> normalizeInterfaceName "Tenn".
Proof. vm_compute. repeat split; discriminate. Qed.

(** C5, amended: a name with no space in which no verbose alias occurs is
    returned unchanged, so every canonical name is; and normalizing twice
    equals normalizing once whenever no verbose alias occurs in the
    once-normalized name. *)
Theorem normalize_canonical_fixed (name : string) :
  (Strings.Contains name " " = false -> holdsAlias name = false ->
   normalizeInterfaceName name = name) /\
  (canonical name = true -> normalizeInterfaceName name = name) /\
  (holdsAlias (normalizeInterfaceName name) = false ->
   normalizeInterfaceName (normalizeInterfaceName name)
     = normalizeInterfaceName name).
Proof.
  split; [apply normalize_alias_free|]. split.
  - unfold canonical. intros H.
    apply andb_prop in H as [H Hs]. apply andb_prop in H as [_ Ha].
    apply negb_true_iff in Hs, Ha. apply normalize_alias_free; assumption.
  - intros H. apply normalize_alias_free; [apply normalize_space_free|exact H].
Qed.

Lemma normalize_canonical_fixed_witness :
  canonical "Gi1/0/1" = true /\ normalizeInterfaceName "Gi1/0/1" = "Gi1/0/1" /\
  holdsAlias (normalizeInterfaceName "TenGigabitEthernet1/1/4") = false /\
  normalizeInterfaceName (normalizeInterfaceName "TenGigabitEthernet1/1/4")
    = normalizeInterfaceName "TenGigabitEthernet1/1/4".
Proof.
  split; [reflexivity|]. split.
  - apply (normalize_canonical_fixed "Gi1/0/1"). reflexivity.
  - split; [reflexivity|].
    apply (normalize_canonical_fixed "TenGigabitEthernet1/1/4"). reflexivity.
Defined.

(** ** CDP neighbors *)

(** C1, as stated, fails: the header of the blob labels the second column
    "Local Intf", the parser looks for "Local Intrfce", so the parse ends
    with the header-columns error and the caller gets no record. *)
Lemma cdp_case1_no_record :
  Cdp.parseCdpNeighbors Cdp.case1Blob =
    Some ([], Errorf "could not parse CDP neighbors header columns correctly (check alignment)") /\
  Cdp.Show_cdp_neighbors (fun _ _ => (Cdp.case1Blob, None)) "switch" = Some ([], None) /\
  Cdp.Show_cdp_neighbors (fun _ _ => (Cdp.case1Blob, None)) "switch"
    <> Some ([Cdp.case1Record], None).
Proof. vm_compute. repeat split; discriminate. Qed.

(** C1, amended: for the same two lines with the second column labelled
    "Local Intrfce", the parse followed by the normalization returns exactly
    the record of end-to-end case 1 and no failure; before normalization
    the two interface fields read "Gig 1/0/1" and "Gig 1/0/24". *)
Theorem cdp_case1_intrfce_header :
  Cdp.Show_cdp_neighbors (fun _ _ => (Cdp.case1BlobIntrfce, None)) "switch"
    = Some ([Cdp.case1Record], None) /\
  Cdp.parseCdpNeighbors Cdp.case1BlobIntrfce =
    Some ([ {| Cdp.Neighbor := "switch-core.local";
               Cdp.Interface := "Gig 1/0/1";
               Cdp.HoldTime := "120";
               Cdp.Capability := "R S I";
               Cdp.Platform := "WS-C3850";
               Cdp.NeighborInterface := "Gig 1/0/24" |} ], None).
Proof. vm_compute. split; reflexivity. Qed.

(** ** Loops over lines *)

Lemma firstIndex_Some {A} (p : A -> bool) (l : list A) (k : nat) :
  firstIndex p l = Some k ->
  (exists x, l !! k = Some x /\ p x = true) /\
  (forall i y, (i < k)%nat -> l !! i = Some y -> p y = false).
Proof.
  revert k. induction l as [|x l IH]; intros k H; [discriminate|].
  cbn in H. destruct (p x) eqn:E.
  - injection H as <-. split; [exists x; split; [reflexivity|exact E]|].
    intros i y Hi. lia.
  - destruct (firstIndex p l) as [k'|]; [|discriminate].
    injection H as <-. destruct (IH k' eq_refl) as [Hx Hlt]. split; [exact Hx|].
    intros [|i] y Hi Hy.
    + injection Hy as <-. exact E.
    + apply (Hlt i y); [lia|exact Hy].
Qed.

Lemma firstIndex_first {A} (p : A -> bool) (l : list A) (k : nat) (x : A) :
  l !! k = Some x -> p x = true ->
  (forall i y, (i < k)%nat -> l !! i = Some y -> p y = false) ->
  firstIndex p l = Some k.
Proof.
  revert k. induction l as [|a l IH]; intros k Hk Hp Hlt; [discriminate|].
  cbn. destruct k as [|k].
  - injection Hk as ->. rewrite Hp. reflexivity.
  - rewrite (Hlt 0%nat a) by (lia || reflexivity).
    rewrite (IH k); [reflexivity|exact Hk|exact Hp|].
    intros i y Hi Hy. apply (Hlt (S i) y); [lia|exact Hy].
Qed.

Lemma firstIndex_tail {A} (p : A -> bool) (x : A) (l : list A) (k : nat) :
  firstIndex p (x :: l) = Some (S k) -> firstIndex p l = Some k.
Proof.
  cbn. destruct (p x); [discriminate|].
  destruct (firstIndex p l); [|discriminate]. cbn. congruence.
Qed.

Lemma foldLines_app {S} (step : S -> string -> option S) (st : S)
  (l1 l2 : list string) :
  foldLines step st (l1 ++ l2) = st' ← foldLines step st l1; foldLines step st' l2.
Proof.
  revert st. induction l1 as [|l l1 IH]; intros st; [reflexivity|].
  cbn. destruct (step st l); [apply IH|reflexivity].
Qed.

Section Appending.

Context {A : Type}.
Variable f : string -> option (list A).
Hypothesis total : forall l, is_Some (f l).

(** A loop that appends what each line gives never panics and emits the
    records of the lines in order. *)
Lemma foldLines_emitted (acc : list A) (lines : list string) :
  foldLines (fun acc l => rs ← f l; Some (acc ++ rs)) acc lines
    = Some (acc ++ emitted f lines).
Proof using total.
  revert acc. induction lines as [|l lines IH]; intros acc.
  - cbn. rewrite app_nil_r. reflexivity.
  - cbn. destruct (total l) as [rs ->]. cbn. rewrite IH, <- app_assoc.
    reflexivity.
Qed.

Lemma emitted_app (l1 l2 : list string) :
  emitted f (l1 ++ l2) = emitted f l1 ++ emitted f l2.
Proof. apply flat_map_app. Qed.

Lemma emitted_In (lines : list string) (r : A) :
  In r (emitted f lines) ->
  exists l rs, In l lines /\ f l = Some rs /\ In r rs.
Proof using total.
  unfold emitted. rewrite in_flat_map. intros (l & Hl & Hr).
  destruct (total l) as [rs E]. rewrite E in Hr. eauto.
Qed.

End Appending.

Lemma list_split_at {A} (l : list A) (i : nat) (x : A) :
  l !! i = Some x -> l = take i l ++ x :: drop (S i) l.
Proof.
  intros H. rewrite <- (take_drop_middle l i x H) at 1. reflexivity.
Qed.

(** ** Interface status *)

Lemma findStatusIndex_Some (fields : list string) (j : nat) :
  Status.findStatusIndex fields = Some j ->
  (1 <= j <= length fields - 5)%nat /\
  (exists s, fields !! j = Some s /\ Status.isStatusKeyword s = true) /\
  (forall k s, (1 <= k < j)%nat -> fields !! k = Some s ->
               Status.isStatusKeyword s = false).
Proof.
  unfold Status.findStatusIndex. intros H.
  destruct (firstIndex _ _) as [k|] eqn:E; [|discriminate].
  injection H as <-. apply firstIndex_Some in E as [(x & Hx & Hp) Hlt].
  apply lookup_take_Some in Hx as [Hx Hk]. rewrite lookup_drop in Hx.
  split; [lia|]. split; [exists x; split; assumption|].
  intros i s Hi Hs. apply (Hlt (i - 1)%nat s); [lia|].
  rewrite lookup_take_lt by lia. rewrite lookup_drop.
  replace (1 + (i - 1))%nat with i by lia. exact Hs.
Qed.

Lemma findStatusIndex_first (fields : list string) (j : nat) (s : string) :
  (1 <= j <= length fields - 5)%nat ->
  fields !! j = Some s -> Status.isStatusKeyword s = true ->
  (forall k t, (1 <= k < j)%nat -> fields !! k = Some t ->
               Status.isStatusKeyword t = false) ->
  Status.findStatusIndex fields = Some j.
Proof.
  intros Hj Hs Hp Hlt. unfold Status.findStatusIndex.
  rewrite (firstIndex_first _ _ (j - 1)%nat s).
  - cbn. f_equal. lia.
  - rewrite lookup_take_lt by lia. rewrite lookup_drop.
    replace (1 + (j - 1))%nat with j by lia. exact Hs.
  - exact Hp.
  - intros i y Hi Hy. apply lookup_take_Some in Hy as [Hy _].
    rewrite lookup_drop in Hy. apply (Hlt (1 + i)%nat y); [lia|exact Hy].
Qed.

(** The body of the data loop never indexes out of range. *)
Lemma lineRecords_total (rawLine : string) : is_Some (Status.lineRecords rawLine).
Proof.
  unfold Status.lineRecords.
  destruct (Status.isSkipped _); [eauto|].
  set (fields := Strings.Fields _).
  destruct (length fields <? 6)%nat eqn:Hlen; [eauto|].
  apply Nat.ltb_ge in Hlen.
  destruct (lookup_lt_is_Some_2 fields 0%nat) as [f0 ->]; [lia|]. cbn.
  destruct (Status.findStatusIndex fields) as [j|] eqn:E; [|eauto].
  apply findStatusIndex_Some in E as [Hj _].
  unfold subslice.
  replace ((1 <=? j)%nat && (j <=? length fields)%nat) with true
    by (symmetry; apply andb_true_intro; split; apply Nat.leb_le; lia).
  cbn.
  destruct (lookup_lt_is_Some_2 fields j) as [a ->]; [lia|]. cbn.
  destruct (lookup_lt_is_Some_2 fields (j + 1)%nat) as [b ->]; [lia|]. cbn.
  destruct (lookup_lt_is_Some_2 fields (j + 2)%nat) as [c ->]; [lia|]. cbn.
  destruct (lookup_lt_is_Some_2 fields (j + 3)%nat) as [d ->]; [lia|]. cbn.
  replace ((j + 4 <=? length fields)%nat && (length fields <=? length fields)%nat)
    with true
    by (symmetry; apply andb_true_intro; split; apply Nat.leb_le; lia).
  cbn. eauto.
Qed.

Lemma subslice_Some {A} (l : list A) (lo hi : nat) :
  (lo <= hi <= length l)%nat -> subslice l lo hi = Some (take (hi - lo) (drop lo l)).
Proof.
  intros H. unfold subslice.
  replace ((lo <=? hi)%nat && (hi <=? length l)%nat) with true; [reflexivity|].
  symmetry. apply andb_true_intro. split; apply Nat.leb_le; lia.
Qed.

Lemma subslice_to_end {A} (l : list A) (lo : nat) :
  (lo <= length l)%nat -> subslice l lo (length l) = Some (drop lo l).
Proof.
  intros H. rewrite subslice_Some by lia. f_equal.
  apply take_ge. rewrite length_drop. lia.
Qed.

(** The record of a data line whose status keyword is found at index [j]. *)
Lemma lineRecords_pivot (rawLine : string) (fields : list string) (j : nat) :
  fields = Strings.Fields (Strings.TrimSpace rawLine) ->
  Status.isSkipped (Strings.TrimSpace rawLine) = false ->
  (6 <= length fields)%nat ->
  Status.findStatusIndex fields = Some j ->
  exists r,
    Status.lineRecords rawLine = Some [r] /\
    fields !! 0%nat = Some (Status.Interface r) /\
    Status.Description r = Strings.Join (take (j - 1) (drop 1 fields)) " " /\
    fields !! j = Some (Status.Status r) /\
    fields !! (j + 1)%nat = Some (Status.VlanID r) /\
    fields !! (j + 2)%nat = Some (Status.Duplex r) /\
    fields !! (j + 3)%nat = Some (Status.Speed r) /\
    Status.Type_ r = Strings.Join (drop (j + 4) fields) " ".
Proof.
  intros -> Hskip Hlen Hj. unfold Status.lineRecords. rewrite Hskip.
  set (fields := Strings.Fields _) in *.
  replace (length fields <? 6)%nat with false
    by (symmetry; apply Nat.ltb_ge; lia).
  rewrite Hj.
  apply findStatusIndex_Some in Hj as [Hj _].
  destruct (lookup_lt_is_Some_2 fields 0%nat) as [f0 E0]; [lia|].
  destruct (lookup_lt_is_Some_2 fields j) as [a Ea]; [lia|].
  destruct (lookup_lt_is_Some_2 fields (j + 1)%nat) as [b Eb]; [lia|].
  destruct (lookup_lt_is_Some_2 fields (j + 2)%nat) as [c Ec]; [lia|].
  destruct (lookup_lt_is_Some_2 fields (j + 3)%nat) as [d Ed]; [lia|].
  rewrite E0, Ea, Eb, Ec, Ed, subslice_to_end, subslice_Some by lia.
  cbn. eexists. split; [reflexivity|]. cbn. auto 10.
Qed.

(** With the header on a line after the first, the parse emits the
    records of the lines below the header, in order. *)
Lemma parseInterfaceStatus_emitted (rawOutput : string) (h : nat) :
  let lines := Strings.Split rawOutput newline in
  firstIndex Status.isHeader lines = Some h -> (0 < h)%nat ->
  (S h < length lines)%nat ->
  Status.parseInterfaceStatus rawOutput
    = Some (emitted Status.lineRecords (drop (S h) lines), None).
Proof.
  intros lines. unfold Status.parseInterfaceStatus. fold lines.
  clearbody lines. intros Hh Hpos Hlen.
  destruct lines as [|l0 rest]; [discriminate|].
  destruct h as [|h']; [lia|]. apply firstIndex_tail in Hh.
  change (drop 1 (l0 :: rest)) with rest. rewrite Hh.
  replace (length (l0 :: rest) <=? S (S h'))%nat with false
    by (symmetry; apply Nat.leb_gt; exact Hlen).
  unfold Status.step.
  rewrite (foldLines_emitted _ lineRecords_total). reflexivity.
Qed.

(** C3, as stated, fails: a line below the header with seven tokens and
    the status keyword at index 2 is skipped when its text begins with
    "Name" (and likewise with "----"); no record is emitted for it. *)
Lemma status_name_line_skipped :
  let line := "Name1 x connected 1 full 1000 T" in
  let blob := "sw1#show interface status" +:+ String newline
              ("Port      Name   Status  Vlan  Duplex  Speed Type" +:+
               String newline line) in
  Strings.Fields (Strings.TrimSpace line)
    = ["Name1"; "x"; "connected"; "1"; "full"; "1000"; "T"] /\
  Status.findStatusIndex (Strings.Fields (Strings.TrimSpace line)) = Some 2%nat /\
  Status.lineRecords line = Some [] /\
  Status.parseInterfaceStatus blob = Some ([], None).
Proof. vm_compute. repeat split; reflexivity. Qed.

(** C3, amended: when the header anchor is not the first line of the
    blob, every line below it whose trimmed text begins with neither
    "----" nor "Name", that splits into at least six tokens and whose
    first status keyword among the indices 1..n-5 is at index [j], adds
    one record, placed after the records of the lines before it and before
    those of the lines after it: Interface is token 0, Description the
    tokens 1..j-1 joined by single spaces, Status, VlanID, Duplex and Speed
    the tokens j..j+3, Type the tokens from j+4 on joined by single
    spaces.  The line of end-to-end case 3 gives the record of that
    case. *)
Theorem status_line_record (rawOutput line : string) (h i j : nat)
  (fields : list string) :
  let lines := Strings.Split rawOutput newline in
  firstIndex Status.isHeader lines = Some h -> (0 < h)%nat ->
  lines !! i = Some line -> (h < i)%nat ->
  fields = Strings.Fields (Strings.TrimSpace line) ->
  (6 <= length fields)%nat ->
  Status.isSkipped (Strings.TrimSpace line) = false ->
  (1 <= j <= length fields - 5)%nat ->
  (exists s, fields !! j = Some s /\ Status.isStatusKeyword s = true) ->
  (forall k s, (1 <= k < j)%nat -> fields !! k = Some s ->
               Status.isStatusKeyword s = false) ->
  (exists r,
     Status.parseInterfaceStatus rawOutput
       = Some (emitted Status.lineRecords (take (i - S h) (drop (S h) lines))
               ++ r :: emitted Status.lineRecords (drop (S i) lines), None) /\
     fields !! 0%nat = Some (Status.Interface r) /\
     Status.Description r = Strings.Join (take (j - 1) (drop 1 fields)) " " /\
     fields !! j = Some (Status.Status r) /\
     fields !! (j + 1)%nat = Some (Status.VlanID r) /\
     fields !! (j + 2)%nat = Some (Status.Duplex r) /\
     fields !! (j + 3)%nat = Some (Status.Speed r) /\
     Status.Type_ r = Strings.Join (drop (j + 4) fields) " ") /\
  Status.lineRecords Status.case3Line = Some [Status.case3Record].
Proof.
  intros lines Hh Hpos Hi Hhi Hf Hlen Hskip Hj (s & Hs & Hkw) Hfirst.
  split; [|vm_compute; reflexivity].
  pose proof (findStatusIndex_first fields j s Hj Hs Hkw Hfirst) as Hidx.
  destruct (lineRecords_pivot line fields j Hf Hskip Hlen Hidx)
    as (r & Hr & Hrec).
  exists r. split; [|exact Hrec].
  pose proof (lookup_lt_Some _ _ _ Hi) as Hilen.
  rewrite (parseInterfaceStatus_emitted rawOutput h Hh Hpos) by (fold lines; lia).
  fold lines. do 2 f_equal.
  assert (Hd : drop (S h) lines !! (i - S h)%nat = Some line).
  { rewrite lookup_drop. replace (S h + (i - S h))%nat with i by lia. exact Hi. }
  rewrite (list_split_at _ _ _ Hd) at 1.
  rewrite emitted_app. f_equal. cbn [emitted flat_map].
  rewrite Hr. cbn. f_equal. unfold emitted. f_equal.
  rewrite drop_drop. f_equal. lia.
Qed.

Lemma status_line_record_witness :
  exists r,
    Status.parseInterfaceStatus
      ("sw1#show interface status" +:+ String newline
       ("Port      Name   Status  Vlan  Duplex  Speed Type" +:+
        String newline Status.case3Line))
      = Some ([] ++ r :: [], None) /\
    Status.Interface r = "Gi1/0/1" /\ Status.Status r = "connected".
Proof.
  destruct (status_line_record
              ("sw1#show interface status" +:+ String newline
               ("Port      Name   Status  Vlan  Duplex  Speed Type" +:+
                String newline Status.case3Line))
              Status.case3Line 1%nat 2%nat 4%nat
              ["Gi1/0/1"; "Uplink"; "to"; "core"; "connected"; "1"; "full";
               "1000"; "10/100/1000BaseTX"])
    as [(r & Hp & H0 & _ & Hj & _) _].
  - reflexivity.
  - lia.
  - reflexivity.
  - lia.
  - reflexivity.
  - cbn. lia.
  - reflexivity.
  - cbn. lia.
  - exists "connected". split; reflexivity.
  - intros k s Hk Hs.
    destruct k as [|[|[|[|k]]]]; try lia; injection Hs as <-; reflexivity.
  - exists r. split; [exact Hp|]. cbn in H0, Hj.
    split; congruence.
Defined.

(** ** Which wrappers normalize interface names *)

Lemma In_drop {A} (n : nat) (l : list A) (x : A) : In x (drop n l) -> In x l.
Proof.
  revert l. induction n as [|n IH]; intros [|a l]; cbn; auto.
Qed.



Lemma In_fmap {A B} (f : A -> B) (l : list A) (y : B) :
  In y (f <$> l) -> exists x, y = f x /\ In x l.
Proof.
  rewrite <- list_elem_of_In, list_elem_of_fmap.
  intros (x & -> & Hx). exists x. split; [reflexivity|].
  apply list_elem_of_In. exact Hx.
Qed.

Lemma In_alter {A} (f : A -> A) (i : nat) (l : list A) (x : A) :
  In x (alter f i l) -> In x l \/ exists y, In y l /\ x = f y.
Proof.
  revert i. induction l as [|a l IH]; intros i H; [destruct H|].
  destruct i as [|i]; cbn in H.
  - destruct H as [<-|H]; [right; exists a|left]; cbn; auto.
  - destruct H as [<-|H]; [left; cbn; auto|].
    destruct (IH i H) as [Hl|(y & Hy & ->)]; [left|right; exists y]; cbn; auto.
Qed.










(** ** Device identity *)

Lemma getField_setField (f : Version.field) (x : string) (info : Version.VersionInfo) :
  Version.getField f (Version.setField f x info) = x.
Proof. destruct f, info; reflexivity. Qed.

Lemma getField_setField_other (f g : Version.field) (x : string)
  (info : Version.VersionInfo) :
  f <> g -> Version.getField g (Version.setField f x info) = Version.getField g info.
Proof. intros H. destruct f, g, info; try reflexivity; contradiction. Qed.

Lemma fieldName_inj (f g : Version.field) :
  Version.fieldName f = Version.fieldName g -> f = g.
Proof. destruct f, g; intros H; try reflexivity; discriminate. Qed.

Lemma regexes_lookup (f : Version.field) :
  Version.regexes !! Version.fieldName f
    = Some (Regexp.MustCompile (Version.pattern f)).
Proof. destruct f; vm_compute; reflexivity. Qed.

Lemma firstNonEmpty_Some (groups : list string) (m : string) :
  Version.firstNonEmpty groups = Some m -> isEmpty m = false.
Proof.
  induction groups as [|g groups IH]; [discriminate|].
  cbn [Version.firstNonEmpty]. destruct (isEmpty (Strings.TrimSpace g)) eqn:E.
  - exact IH.
  - intros H. injection H as <-. exact E.
Qed.

Lemma lineValue_nonempty (f : Version.field) (line v : string) :
  lineValue f line = Some v -> isEmpty v = false.
Proof. apply firstNonEmpty_Some. Qed.

(** What the body of the field loop does for its field. *)
Lemma scanField_eq (line : string) (info : Version.VersionInfo) (f : Version.field) :
  Version.scanField (Strings.TrimSpace line) info f =
  if isEmpty (Version.getField f info) then
    match lineValue f line with
    | Some m => Version.setField f m info
    | None => info
    end
  else info.
Proof.
  unfold Version.scanField, lineValue. rewrite regexes_lookup.
  destruct (isEmpty _); [|reflexivity].
  set (matches := Regexp.FindStringSubmatch _ _).
  destruct (1 <? length matches)%nat eqn:E; [reflexivity|].
  apply Nat.ltb_ge in E. rewrite drop_ge by exact E. reflexivity.
Qed.

Lemma scanField_same (line : string) (info : Version.VersionInfo) (f : Version.field) :
  Version.getField f (Version.scanField (Strings.TrimSpace line) info f) =
  if isEmpty (Version.getField f info)
  then default EmptyString (lineValue f line)
  else Version.getField f info.
Proof.
  rewrite scanField_eq. destruct (isEmpty (Version.getField f info)) eqn:E.
  - destruct (lineValue f line); cbn; [apply getField_setField|].
    destruct (Version.getField f info); [reflexivity|discriminate].
  - reflexivity.
Qed.

Lemma scanField_other (line : string) (info : Version.VersionInfo)
  (f g : Version.field) :
  f <> g ->
  Version.getField g (Version.scanField (Strings.TrimSpace line) info f)
    = Version.getField g info.
Proof.
  intros H. rewrite scanField_eq.
  destruct (isEmpty _); [|reflexivity].
  destruct (lineValue f line); [|reflexivity].
  apply getField_setField_other, H.
Qed.

(** The scan of one line sets a field that is still empty to the value the
    line offers, and leaves a populated field alone. *)
Lemma scanLine_field (f : Version.field) (info : Version.VersionInfo) (line : string) :
  Version.getField f (Version.scanLine info line) =
  if isEmpty (Version.getField f info)
  then default EmptyString (lineValue f line)
  else Version.getField f info.
Proof.
  unfold Version.scanLine, Version.fields. cbn [foldl].
  destruct f;
    repeat first [ rewrite scanField_other by discriminate
                 | rewrite scanField_same ];
    reflexivity.
Qed.

Lemma isEmpty_true (s : string) : isEmpty s = true <-> s = EmptyString.
Proof. destruct s; cbn; split; congruence. Qed.

Section Scan.

Variable f : Version.field.

Lemma scan_populated (info : Version.VersionInfo) (lines : list string) :
  isEmpty (Version.getField f info) = false ->
  Version.getField f (foldl Version.scanLine info lines) = Version.getField f info.
Proof.
  revert info. induction lines as [|l lines IH]; intros info H; [reflexivity|].
  cbn [foldl]. rewrite IH; rewrite scanLine_field, H; [reflexivity|exact H].
Qed.

Lemma scan_no_value (info : Version.VersionInfo) (lines : list string) :
  (forall l, In l lines -> lineValue f l = None) ->
  Version.getField f (foldl Version.scanLine info lines) = Version.getField f info.
Proof.
  revert info. induction lines as [|l lines IH]; intros info H; [reflexivity|].
  cbn [foldl]. rewrite IH by (intros x Hx; apply H; right; exact Hx).
  rewrite scanLine_field, (H l (or_introl eq_refl)).
  destruct (isEmpty _) eqn:E; [|reflexivity].
  apply isEmpty_true in E. rewrite E. reflexivity.
Qed.

Lemma scan_first_value (info : Version.VersionInfo) (pre post : list string)
  (line v : string) :
  Version.getField f info = EmptyString ->
  (forall l, In l pre -> lineValue f l = None) ->
  lineValue f line = Some v ->
  Version.getField f (foldl Version.scanLine info (pre ++ line :: post)) = v.
Proof.
  intros Hinfo Hpre Hline. rewrite foldl_app. cbn [foldl].
  assert (Hv : Version.getField f
                 (Version.scanLine (foldl Version.scanLine info pre) line) = v).
  { rewrite scanLine_field, (scan_no_value info pre Hpre), Hinfo, Hline.
    reflexivity. }
  rewrite scan_populated; rewrite Hv; [reflexivity|].
  exact (lineValue_nonempty f line v Hline).
Qed.

End Scan.

Lemma lineMatches_false (f : Version.field) (line : string) :
  lineMatches f line = false -> lineValue f line = None.
Proof.
  unfold lineMatches, lineValue, Regexp.MatchString.
  destruct (Regexp.FindStringSubmatch _ _); [reflexivity|discriminate].
Qed.

Section ToMap.

Variable info : Version.VersionInfo.

Lemma toMap_keeps (f : Version.field) (l : list Version.field)
  (m : gmap string string) :
  m !! Version.fieldName f = Some (Version.getField f info) ->
  foldl (Version.addField info) m l !! Version.fieldName f
    = Some (Version.getField f info).
Proof.
  revert m. induction l as [|g l IH]; intros m H; [exact H|].
  cbn [foldl]. apply IH. unfold Version.addField.
  destruct (isEmpty (Version.getField g info)); [exact H|].
  destruct (decide (Version.fieldName g = Version.fieldName f)) as [E|E].
  - apply fieldName_inj in E as ->. apply lookup_insert_eq.
  - rewrite lookup_insert_ne by exact E. exact H.
Qed.

Lemma toMap_lookup (f : Version.field) (l : list Version.field)
  (m : gmap string string) :
  In f l -> isEmpty (Version.getField f info) = false ->
  foldl (Version.addField info) m l !! Version.fieldName f
    = Some (Version.getField f info).
Proof.
  revert m. induction l as [|g l IH]; intros m Hin Hne; [destruct Hin|].
  cbn [foldl]. destruct Hin as [->|Hin]; [|apply IH; assumption].
  apply toMap_keeps. unfold Version.addField. rewrite Hne.
  apply lookup_insert_eq.
Qed.

End ToMap.

(** C4: the identity parse fails exactly when the Version or the
    SerialNumber field is still empty after the scan of the whole blob; on
    success the mapping holds non-empty entries under both keys; and a
    blob in which no line matches the Version pattern and no line matches
    the serial-number pattern yields the failure. *)
Theorem parseVersionInfo_mandatory (rawOutput : string) :
  let info := Version.scan rawOutput in
  let failure :=
    (None, Errorf "could not parse essential version info from output") in
  (Version.parseVersionInfo rawOutput = failure <->
   Version.Version info = EmptyString \/ Version.SerialNumber info = EmptyString) /\
  (Version.parseVersionInfo rawOutput <> failure ->
   exists m v s,
     Version.parseVersionInfo rawOutput = (Some m, None) /\
     m !! "Version" = Some v /\ v <> EmptyString /\
     m !! "SerialNumber" = Some s /\ s <> EmptyString) /\
  ((forall line, In line (Strings.Split rawOutput newline) ->
      lineMatches Version.FVersion line = false /\
      lineMatches Version.FSerialNumber line = false) ->
   Version.parseVersionInfo rawOutput = failure).
Proof.
  intros info failure. unfold Version.parseVersionInfo. fold info.
  destruct (isEmpty (Version.Version info)) eqn:Ev;
    [|destruct (isEmpty (Version.SerialNumber info)) eqn:Es]; cbn [orb].
  - apply isEmpty_true in Ev. repeat split; auto. intros H. contradiction.
  - apply isEmpty_true in Es. repeat split; auto. intros H. contradiction.
  - assert (Hv : Version.Version info <> EmptyString)
      by (intros E; rewrite E in Ev; discriminate).
    assert (Hs : Version.SerialNumber info <> EmptyString)
      by (intros E; rewrite E in Es; discriminate).
    split; [split; [discriminate|intros [E|E]; contradiction]|].
    split.
    + intros _. exists (Version.toMap info), (Version.Version info),
        (Version.SerialNumber info).
      split; [reflexivity|]. unfold Version.toMap.
      split; [|split; [exact Hv|split; [|exact Hs]]].
      * apply (toMap_lookup info Version.FVersion); [cbn; auto|exact Ev].
      * apply (toMap_lookup info Version.FSerialNumber); [cbn; auto 10|exact Es].
    + intros H. exfalso. apply Hv.
      change (Version.getField Version.FVersion info = EmptyString).
      unfold info, Version.scan. rewrite scan_no_value; [reflexivity|].
      intros l Hl. apply lineMatches_false, (H l Hl).
Qed.

Lemma parseVersionInfo_mandatory_witness :
  Version.parseVersionInfo
    ("Cisco IOS Software, Version 15.2(4)E, RELEASE SOFTWARE (fc2)" +:+
     String newline "Processor board ID FOC1234X5YZ")
    = (Some {[ "Version" := "15.2(4)E"; "Release" := "RELEASE SOFTWARE (fc2)";
               "SerialNumber" := "FOC1234X5YZ" ]}, None) /\
  exists m v s,
    Version.parseVersionInfo
      ("Cisco IOS Software, Version 15.2(4)E, RELEASE SOFTWARE (fc2)" +:+
       String newline "Processor board ID FOC1234X5YZ") = (Some m, None) /\
    m !! "Version" = Some v /\ v <> EmptyString /\
    m !! "SerialNumber" = Some s /\ s <> EmptyString.
Proof.
  split; [vm_compute; reflexivity|].
  apply (parseVersionInfo_mandatory
           ("Cisco IOS Software, Version 15.2(4)E, RELEASE SOFTWARE (fc2)" +:+
            String newline "Processor board ID FOC1234X5YZ")).
  vm_compute. discriminate.
Defined.

(** C6, as stated, fails: both lines match the Restarted patterns, the
    match of the earlier one has only empty groups, and the value comes
    from the later line. *)
Lemma restarted_from_later_line :
  let earlier := "Previous Restart:" in
  let later := "System restarted at 10:00" in
  lineMatches Version.FRestarted earlier = true /\
  lineMatches Version.FRestarted later = true /\
  lineValue Version.FRestarted earlier = None /\
  lineValue Version.FRestarted later = Some "10:00" /\
  Version.Restarted (Version.scan (earlier +:+ String newline later)) = "10:00".
Proof. vm_compute. repeat split; reflexivity. Qed.

(** C6, amended: for every field of the device-identity parser, the final
    value is the first group, not empty once trimmed, of the match on the
    earliest line whose match has such a group; lines before it whose
    match has only empty groups leave the field unset, and every later
    line leaves the populated field unchanged. *)
Theorem first_value_wins (f : Version.field) (rawOutput : string)
  (pre post : list string) (line v : string) :
  Strings.Split rawOutput newline = pre ++ line :: post ->
  (forall l, In l pre -> lineValue f l = None) ->
  lineValue f line = Some v ->
  Version.getField f (Version.scan rawOutput) = v /\
  v <> EmptyString /\
  (forall info l,
     Version.getField f info <> EmptyString ->
     Version.getField f (Version.scanLine info l) = Version.getField f info).
Proof.
  intros Hsplit Hpre Hline. split; [|split].
  - unfold Version.scan. rewrite Hsplit.
    apply scan_first_value; [destruct f; reflexivity|exact Hpre|exact Hline].
  - intros ->. apply lineValue_nonempty in Hline. discriminate.
  - intros info l H. rewrite scanLine_field.
    destruct (isEmpty _) eqn:E; [|reflexivity].
    apply isEmpty_true in E. contradiction.
Qed.

Lemma first_value_wins_witness :
  Version.getField Version.FVersion
    (Version.scan ("Software Version : 1.0" +:+ String newline
                   "Cisco IOS Software, Version 15.2(4)E, RELEASE SOFTWARE"))
    = "1.0".
Proof.
  destruct (first_value_wins Version.FVersion
              ("Software Version : 1.0" +:+ String newline
               "Cisco IOS Software, Version 15.2(4)E, RELEASE SOFTWARE")
              [] ["Cisco IOS Software, Version 15.2(4)E, RELEASE SOFTWARE"]
              "Software Version : 1.0" "1.0") as [H _].
  - reflexivity.
  - intros l [].
  - vm_compute. reflexivity.
  - exact H.
Defined.

(** ** Inline power *)

Lemma moduleEntry_total (fields : list string) :
  Power.moduleShape fields = true -> is_Some (Power.moduleEntry fields).
Proof.
  unfold Power.moduleShape, Power.moduleEntry. intros H.
  apply andb_prop in H as [H _]. apply Nat.eqb_eq in H.
  destruct (lookup_lt_is_Some_2 fields 0%nat) as [a ->]; [lia|].
  destruct (lookup_lt_is_Some_2 fields 1%nat) as [b ->]; [lia|].
  destruct (lookup_lt_is_Some_2 fields 2%nat) as [c ->]; [lia|].
  destruct (lookup_lt_is_Some_2 fields 3%nat) as [d ->]; [lia|].
  cbn. eauto.
Qed.

Lemma interfaceEntry_total (fields : list string) :
  Power.interfaceShape fields = true -> is_Some (Power.interfaceEntry fields).
Proof.
  unfold Power.interfaceShape, Power.interfaceEntry. intros H.
  apply andb_prop in H as [H _]. apply Nat.leb_le in H.
  destruct (lookup_lt_is_Some_2 fields 0%nat) as [a ->]; [lia|].
  destruct (lookup_lt_is_Some_2 fields 1%nat) as [b ->]; [lia|].
  destruct (lookup_lt_is_Some_2 fields 2%nat) as [c ->]; [lia|].
  destruct (lookup_lt_is_Some_2 fields 3%nat) as [d ->]; [lia|].
  rewrite subslice_Some by lia.
  destruct (lookup_lt_is_Some_2 fields (length fields - 2)%nat) as [e ->]; [lia|].
  destruct (lookup_lt_is_Some_2 fields (length fields - 1)%nat) as [g ->]; [lia|].
  cbn. eauto.
Qed.

Lemma state_eta (st : Power.state) :
  Power.mkState (Power.currentSection st) (Power.modules st ++ [])
                (Power.interfaces st ++ []) = st.
Proof. destruct st. cbn. rewrite !app_nil_r. reflexivity. Qed.

(** One turn of the loop never panics; it moves to the section the line
    decides and appends the entry of the line when the line is a valid
    row of the current section. *)
Lemma step_rows (st : Power.state) (line : string) :
  exists ms ifs,
    Power.step st line
      = Some (Power.mkState (track (Power.currentSection st) line)
                            (Power.modules st ++ ms) (Power.interfaces st ++ ifs)) /\
    Some <$> ms = Power.moduleEntry <$>
      rowAt Power.ModuleSection Power.moduleShape (Power.currentSection st) line /\
    Some <$> ifs = Power.interfaceEntry <$>
      rowAt Power.InterfaceSection Power.interfaceShape (Power.currentSection st) line.
Proof.
  unfold Power.step, track, rowAt, isBlank, isSectionHeader.
  destruct (Strings.Fields line) as [|first rest] eqn:Ef.
  - exists [], []. rewrite !app_nil_r. auto.
  - destruct (String.eqb first "Module");
      [exists [], []; rewrite !app_nil_r; auto|].
    destruct (String.eqb first "Interface");
      [exists [], []; rewrite !app_nil_r; auto|].
    cbn [negb orb andb].
    destruct (Power.currentSection st) eqn:Es; cbn [sectionEq andb].
    + exists [], []. rewrite <- Es, state_eta. auto.
    + destruct (Power.moduleShape (first :: rest)) eqn:Esh.
      * destruct (moduleEntry_total _ Esh) as [m Em].
        exists [m], []. rewrite app_nil_r, Em.
        split; [reflexivity|]. split; [|reflexivity].
        cbn [fmap list_fmap]. rewrite Em. reflexivity.
      * exists [], []. rewrite <- Es, state_eta. auto.
    + destruct (Power.interfaceShape (first :: rest)) eqn:Esh.
      * destruct (interfaceEntry_total _ Esh) as [i Ei].
        exists [], [i]. rewrite app_nil_r, Ei.
        split; [reflexivity|]. split; [reflexivity|].
        cbn [fmap list_fmap]. rewrite Ei. reflexivity.
      * exists [], []. rewrite <- Es, state_eta. auto.
Qed.

(** The loop collects the entries of the valid rows, in order. *)
Lemma scan_rows (lines : list string) (st : Power.state) :
  exists sec ms ifs,
    foldLines Power.step st lines
      = Some (Power.mkState sec (Power.modules st ++ ms) (Power.interfaces st ++ ifs)) /\
    Some <$> ms = Power.moduleEntry <$>
      rows Power.ModuleSection Power.moduleShape (Power.currentSection st) lines /\
    Some <$> ifs = Power.interfaceEntry <$>
      rows Power.InterfaceSection Power.interfaceShape (Power.currentSection st) lines.
Proof.
  revert st. induction lines as [|l lines IH]; intros st.
  - exists (Power.currentSection st), [], []. cbn. rewrite state_eta. auto.
  - destruct (step_rows st l) as (ms1 & is1 & Hstep & Hm1 & Hi1).
    cbn [foldLines]. rewrite Hstep. cbn [mbind option_bind].
    destruct (IH (Power.mkState (track (Power.currentSection st) l)
                    (Power.modules st ++ ms1) (Power.interfaces st ++ is1)))
      as (sec & ms2 & is2 & Hfold & Hm2 & Hi2).
    cbn [Power.modules Power.interfaces Power.currentSection] in *.
    exists sec, (ms1 ++ ms2), (is1 ++ is2).
    rewrite Hfold, !app_assoc. split; [reflexivity|].
    cbn [rows]. rewrite !fmap_app, Hm1, Hm2, Hi1, Hi2. auto.
Qed.

(** C8: the inline-power parse fails if and only if both the module
    sequence and the PoE-interface sequence are empty, the sequences being
    the entries of the valid rows of the two sections; a blob with exactly
    one valid Module row and no valid Interface row succeeds with one
    module entry and an empty port sequence, as does the blob of
    end-to-end case 5. *)
Theorem parsePowerInline_fails_iff (rawOutput : string) :
  let lines := Strings.Split rawOutput newline in
  exists modules interfaces,
    Some <$> modules = Power.moduleEntry <$> moduleRows lines /\
    Some <$> interfaces = Power.interfaceEntry <$> interfaceRows lines /\
    Power.parsePowerInline rawOutput = Some (Power.outcome modules interfaces) /\
    (failed (Power.parsePowerInline rawOutput) <->
     modules = [] /\ interfaces = []) /\
    (length (moduleRows lines) = 1%nat -> interfaceRows lines = [] ->
     exists m, Power.parsePowerInline rawOutput = Some ([m], [], None)) /\
    Power.parsePowerInline case5Blob =
      Some ([ {| Power.Module_ := "1"; Power.Available := "1440.0";
                 Power.Used := "123.2"; Power.Remaining := "1316.8" |} ],
            [], None).
Proof.
  intros lines.
  destruct (scan_rows lines Power.initial) as (sec & ms & ifs & Hscan & Hm & Hi).
  cbn [Power.initial Power.modules Power.interfaces Power.currentSection app] in *.
  assert (Hparse : Power.parsePowerInline rawOutput = Some (Power.outcome ms ifs)).
  { unfold Power.parsePowerInline, Power.scan. fold lines. rewrite Hscan.
    reflexivity. }
  exists ms, ifs. split; [exact Hm|]. split; [exact Hi|]. split; [exact Hparse|].
  split; [|split].
  - rewrite Hparse. unfold failed, Power.outcome. split.
    + intros (x & e & H). destruct ms, ifs; try discriminate. auto.
    + intros [-> ->]. eauto.
  - intros H1 H0. rewrite Hparse. unfold moduleRows, interfaceRows in *.
    rewrite H0 in Hi. apply fmap_nil_inv in Hi as ->.
    assert (length ms = 1%nat) as Hlen
      by (rewrite <- H1, <- (length_fmap Some ms), Hm, length_fmap; reflexivity).
    destruct ms as [|m [|? ?]]; try discriminate. cbn. eauto.
  - vm_compute. reflexivity.
Qed.

Lemma parsePowerInline_fails_iff_witness :
  exists m, Power.parsePowerInline case5Blob = Some ([m], [], None).
Proof.
  destruct (parsePowerInline_fails_iff case5Blob)
    as (ms & ifs & _ & _ & _ & _ & H & _).
  apply H; vm_compute; reflexivity.
Defined.






(** ** LLDP neighbors *)

Lemma slice_in_bounds (s : string) (lo hi : Z) :
  0 <= lo -> lo <= hi -> hi <= Strings.len s -> is_Some (Strings.slice s lo hi).
Proof.
  intros H0 H1 H2. unfold Strings.slice.
  replace ((0 <=? lo) && (lo <=? hi) && (hi <=? Strings.len s)) with true;
    [eauto|].
  symmetry. rewrite !andb_true_iff, !Z.leb_le. auto.
Qed.

Section LldpColumns.

Variable c : Lldp.columns.
Hypothesis ordered :
  0 <= Lldp.deviceIDIndex c /\
  Lldp.deviceIDIndex c <= Lldp.localIntfIndex c /\
  Lldp.localIntfIndex c <= Lldp.holdtmeIndex c /\
  Lldp.holdtmeIndex c <= Lldp.capabilityIndex c /\
  Lldp.capabilityIndex c <= Lldp.portIDIndex c.

(** With ordered offsets, the five slices of a line that reaches the
    Port ID column are within its bounds. *)
Lemma lldp_slices (line : string) :
  Lldp.portIDIndex c <= Strings.len line ->
  exists dev intf hold cap port,
    Strings.slice line (Lldp.deviceIDIndex c) (Lldp.localIntfIndex c) = Some dev /\
    Strings.slice line (Lldp.localIntfIndex c) (Lldp.holdtmeIndex c) = Some intf /\
    Strings.slice line (Lldp.holdtmeIndex c) (Lldp.capabilityIndex c) = Some hold /\
    Strings.slice line (Lldp.capabilityIndex c) (Lldp.portIDIndex c) = Some cap /\
    Strings.sliceFrom line (Lldp.portIDIndex c) = Some port /\
    Lldp.entry c line =
      Some {| Lldp.Interface := Strings.TrimSpace intf;
              Lldp.Neighbor := Strings.TrimSpace dev;
              Lldp.NeighborInterface := Strings.TrimSpace port;
              Lldp.HoldTime := Strings.TrimSpace hold;
              Lldp.Capability := Strings.TrimSpace cap |}.
Proof using ordered.
  intros Hlen.
  destruct (slice_in_bounds line (Lldp.deviceIDIndex c) (Lldp.localIntfIndex c))
    as [dev Hdev]; [lia..|].
  destruct (slice_in_bounds line (Lldp.localIntfIndex c) (Lldp.holdtmeIndex c))
    as [intf Hintf]; [lia..|].
  destruct (slice_in_bounds line (Lldp.holdtmeIndex c) (Lldp.capabilityIndex c))
    as [hold Hhold]; [lia..|].
  destruct (slice_in_bounds line (Lldp.capabilityIndex c) (Lldp.portIDIndex c))
    as [cap Hcap]; [lia..|].
  destruct (slice_in_bounds line (Lldp.portIDIndex c) (Strings.len line))
    as [port Hport]; [lia..|].
  exists dev, intf, hold, cap, port. unfold Lldp.entry, Strings.sliceFrom.
  rewrite Hdev, Hintf, Hhold, Hcap, Hport. cbn [mbind option_bind]. auto 10.
Qed.

Lemma lineNeighbors_total (raw : string) : is_Some (Lldp.lineNeighbors c raw).
Proof using ordered.
  unfold Lldp.lineNeighbors. destruct (Lldp.isSkipped c _) eqn:E; [eauto|].
  unfold Lldp.isSkipped in E. apply orb_false_elim in E as [_ E].
  apply Z.ltb_ge in E.
  destruct (lldp_slices _ E) as (? & ? & ? & ? & ? & _ & _ & _ & _ & _ & ->).
  cbn. eauto.
Qed.

End LldpColumns.

(** C10: when the header line holds the five labels at offsets in the
    order Device ID, Local Intf, Hold-time, Capability, Port ID, the LLDP
    parse returns without a panic: a data line (carriage returns removed)
    shorter than the Port ID offset, blank, or holding "Total entries
    displayed" adds no record; for any other data line the five slices
    between adjacent offsets are within the line and the line adds the
    record of their trimmed texts; the result is the records of the lines
    below the header, in order, and no error. *)
Theorem lldp_never_aborts (rawOutput headerLine : string) (i : nat) :
  let lines := Strings.Split rawOutput newline in
  let c := Lldp.headerColumns headerLine in
  firstIndex Lldp.isHeader lines = Some i ->
  lines !! i = Some headerLine ->
  0 <= Lldp.deviceIDIndex c /\
  Lldp.deviceIDIndex c <= Lldp.localIntfIndex c /\
  Lldp.localIntfIndex c <= Lldp.holdtmeIndex c /\
  Lldp.holdtmeIndex c <= Lldp.capabilityIndex c /\
  Lldp.capabilityIndex c <= Lldp.portIDIndex c ->
  (forall raw,
     Strings.len (Lldp.dataLine raw) < Lldp.portIDIndex c \/
     Strings.TrimSpace (Lldp.dataLine raw) = EmptyString \/
     Strings.Contains (Lldp.dataLine raw) "Total entries displayed" = true ->
     Lldp.lineNeighbors c raw = Some []) /\
  (forall raw,
     Lldp.portIDIndex c <= Strings.len (Lldp.dataLine raw) ->
     Strings.TrimSpace (Lldp.dataLine raw) <> EmptyString ->
     Strings.Contains (Lldp.dataLine raw) "Total entries displayed" = false ->
     exists dev intf hold cap port,
       Strings.slice (Lldp.dataLine raw) (Lldp.deviceIDIndex c) (Lldp.localIntfIndex c) = Some dev /\
       Strings.slice (Lldp.dataLine raw) (Lldp.localIntfIndex c) (Lldp.holdtmeIndex c) = Some intf /\
       Strings.slice (Lldp.dataLine raw) (Lldp.holdtmeIndex c) (Lldp.capabilityIndex c) = Some hold /\
       Strings.slice (Lldp.dataLine raw) (Lldp.capabilityIndex c) (Lldp.portIDIndex c) = Some cap /\
       Strings.sliceFrom (Lldp.dataLine raw) (Lldp.portIDIndex c) = Some port /\
       Lldp.lineNeighbors c raw =
         Some [ {| Lldp.Interface := Strings.TrimSpace intf;
                   Lldp.Neighbor := Strings.TrimSpace dev;
                   Lldp.NeighborInterface := Strings.TrimSpace port;
                   Lldp.HoldTime := Strings.TrimSpace hold;
                   Lldp.Capability := Strings.TrimSpace cap |} ]) /\
  Lldp.parseLldpNeighbors rawOutput
    = Some (emitted (Lldp.lineNeighbors c) (drop (S i) lines), None).
Proof.
  intros lines c Hhead Hline Hord. split; [|split].
  - intros raw H. unfold Lldp.lineNeighbors, Lldp.isSkipped.
    destruct H as [H|[H|H]].
    + apply Z.ltb_lt in H. rewrite H, !orb_true_r. reflexivity.
    + rewrite H. reflexivity.
    + rewrite H, orb_true_r. reflexivity.
  - intros raw Hlen Hblank Htotal.
    destruct (lldp_slices c Hord _ Hlen)
      as (dev & intf & hold & cap & port & Hd & Hi & Hh & Hc & Hp & He).
    exists dev, intf, hold, cap, port.
    repeat (split; [assumption|]).
    unfold Lldp.lineNeighbors, Lldp.isSkipped. rewrite Htotal, He.
    replace (Strings.len (Lldp.dataLine raw) <? Lldp.portIDIndex c) with false
      by (symmetry; apply Z.ltb_ge; exact Hlen).
    destruct (Strings.TrimSpace (Lldp.dataLine raw)); [contradiction|reflexivity].
  - unfold Lldp.parseLldpNeighbors. fold lines. rewrite Hhead, Hline.
    cbn [from_option id]. fold c.
    replace ((Lldp.deviceIDIndex c =? -1) || (Lldp.localIntfIndex c =? -1) ||
             (Lldp.holdtmeIndex c =? -1) || (Lldp.capabilityIndex c =? -1) ||
             (Lldp.portIDIndex c =? -1)) with false
      by (symmetry; rewrite !orb_false_iff, !Z.eqb_neq; lia).
    unfold Lldp.step.
    rewrite (foldLines_emitted _ (lineNeighbors_total c Hord)). reflexivity.
Qed.

Lemma lldp_never_aborts_witness :
  Lldp.parseLldpNeighbors
    ("Device ID           Local Intf     Hold-time  Capability      Port ID" +:+
     String newline
     ("sw2.example.com     Gi1/0/1        120        B,R             Gi0/1" +:+
      String newline
      ("short line" +:+ String newline
       (EmptyString +:+ String newline "Total entries displayed: 1"))))
    = Some ([ {| Lldp.Interface := "Gi1/0/1";
                 Lldp.Neighbor := "sw2.example.com";
                 Lldp.NeighborInterface := "Gi0/1";
                 Lldp.HoldTime := "120";
                 Lldp.Capability := "B,R" |} ], None).
Proof.
  destruct (lldp_never_aborts
              ("Device ID           Local Intf     Hold-time  Capability      Port ID" +:+
               String newline
               ("sw2.example.com     Gi1/0/1        120        B,R             Gi0/1" +:+
                String newline
                ("short line" +:+ String newline
                 (EmptyString +:+ String newline "Total entries displayed: 1"))))
              "Device ID           Local Intf     Hold-time  Capability      Port ID"
              0%nat) as (_ & _ & H).
  - reflexivity.
  - reflexivity.
  - vm_compute. repeat split; discriminate.
  - rewrite H. vm_compute. reflexivity.
Defined.

(** ** Patterns anchored on a literal *)

Lemma byteOf_inj (a b : ascii) : Strings.byteOf a = Strings.byteOf b -> a = b.
Proof.
  unfold Strings.byteOf. intros H.
  rewrite <- (Ascii.ascii_N_embedding a), <- (Ascii.ascii_N_embedding b), H.
  reflexivity.
Qed.

Lemma run_spells (lit : string) (n : Regexp.node) (i : nat) (s : string)
  (caps : list string) (k : Regexp.cont) (res : nat * list string) :
  spells n lit = true -> Regexp.run n i s caps k = Some res ->
  Strings.HasPrefix s lit = true.
Proof.
  revert n i s caps k. induction lit as [|c t IH]; intros n i s caps k Hn Hrun.
  - destruct s; reflexivity.
  - cbn [spells] in Hn.
    destruct n as [|fold neg ranges|n1 n2| | | | |]; try discriminate.
    destruct n1 as [|fold neg ranges| | | | | |]; try discriminate.
    destruct fold, neg; try discriminate.
    destruct ranges as [|[lo hi] [|? ?]]; try discriminate.
    apply andb_prop in Hn as [Hn Hr]. apply andb_prop in Hn as [Hlo Hhi].
    apply N.eqb_eq in Hlo, Hhi. subst lo hi.
    cbn [Regexp.run] in Hrun.
    destruct s as [|a s']; [discriminate|].
    destruct (Regexp.inClass false false _ a) eqn:Ea; [|discriminate].
    unfold Regexp.inClass, Regexp.inRanges in Ea. cbn in Ea.
    rewrite !orb_false_r, andb_true_iff in Ea. destruct Ea as [E1 E2].
    apply N.leb_le in E1, E2.
    assert (a = c) as -> by (apply byteOf_inj; unfold Strings.byteOf in *; lia).
    cbn [Strings.HasPrefix]. rewrite Ascii.eqb_refl. cbn [andb].
    exact (IH _ _ _ _ _ Hr Hrun).
Qed.

Lemma findFrom_anchored (re : Regexp.Regexp) (lit : string) (s : string) (i : nat) :
  anchoredLiteral (Regexp.prog re) lit = true ->
  Regexp.findFrom re (S i) s = [].
Proof.
  intros H. unfold anchoredLiteral in H.
  destruct (Regexp.prog re) as [| |n1 n2| | | | |] eqn:Ep; try discriminate.
  destruct n1; try discriminate.
  revert i. induction s as [|a s IH]; intros i; cbn [Regexp.findFrom];
    rewrite Ep; cbn [Regexp.run Nat.eqb]; [reflexivity|apply IH].
Qed.

(** A pattern anchored on a literal matches only texts that begin with
    the literal. *)
Lemma anchored_match_prefix (re : Regexp.Regexp) (lit s : string) :
  anchoredLiteral (Regexp.prog re) lit = true ->
  Regexp.FindStringSubmatch re s <> [] -> Strings.HasPrefix s lit = true.
Proof.
  intros H Hm. unfold Regexp.FindStringSubmatch in Hm.
  assert (Hrun : exists res,
    Regexp.run (Regexp.prog re) 0 s
      (replicate (S (Regexp.numSubexp re)) EmptyString)
      (fun j _ caps => Some (j, caps)) = Some res).
  { destruct s as [|a s']; cbn [Regexp.findFrom] in Hm.
    - destruct (Regexp.run _ _ _ _ _); [eauto|contradiction].
    - destruct (Regexp.run _ _ _ _ _); [eauto|].
      rewrite (findFrom_anchored re lit) in Hm by exact H. contradiction. }
  destruct Hrun as [res Hrun]. unfold anchoredLiteral in H.
  destruct (Regexp.prog re) as [| |n1 n2| | | | |]; try discriminate.
  destruct n1; try discriminate.
  cbn [Regexp.run Nat.eqb] in Hrun. exact (run_spells _ _ _ _ _ _ _ H Hrun).
Qed.

Lemma interfaceStartRegex_anchored :
  anchoredLiteral (Regexp.prog Config.interfaceStartRegex) "interface" = true.
Proof. vm_compute. reflexivity. Qed.

(** ** Running configuration *)

(** A record-start line is never one of the skipped lines. *)
Lemma configStart_not_skipped (raw : string) :
  isConfigStart raw = true -> Config.isSkipped (Strings.TrimSpace raw) = false.
Proof.
  unfold isConfigStart. intros H. apply Nat.ltb_lt in H.
  assert (Hp : Strings.HasPrefix (Strings.TrimSpace raw) "interface" = true).
  { apply (anchored_match_prefix Config.interfaceStartRegex).
    - exact interfaceStartRegex_anchored.
    - intros E. rewrite E in H. cbn in H. lia. }
  unfold Config.isSkipped. destruct (Strings.TrimSpace raw) as [|a t]; [discriminate|].
  cbn [Strings.HasPrefix] in Hp. apply andb_prop in Hp as [Ha _].
  apply Ascii.eqb_eq in Ha. subst a. reflexivity.
Qed.

Lemma config_step_start (configs : list Config.InterfaceConfig)
  (cur : option Config.InterfaceConfig) (raw : string) :
  isConfigStart raw = true ->
  Config.step (configs, cur) raw =
    Some (match cur with Some c => configs ++ [c] | None => configs end,
          Some {| Config.Interface := startName raw;
                  Config.ConfigLines := [Strings.TrimSpace raw] |}).
Proof.
  intros H. unfold Config.step. rewrite (configStart_not_skipped raw H).
  unfold isConfigStart in H. rewrite H. unfold startName.
  apply Nat.ltb_lt in H.
  destruct (lookup_lt_is_Some_2 _ 1%nat H) as [name ->]. reflexivity.
Qed.

Lemma config_step_body (configs : list Config.InterfaceConfig)
  (c : Config.InterfaceConfig) (raw : string) :
  isConfigStart raw = false ->
  Config.step (configs, Some c) raw =
    Some (configs, Some {| Config.Interface := Config.Interface c;
                           Config.ConfigLines :=
                             Config.ConfigLines c ++ bodyLines [raw] |}).
Proof.
  intros H. unfold Config.step, bodyLines. cbn [fmap list_fmap List.filter].
  unfold isConfigStart in H.
  destruct (Config.isSkipped (Strings.TrimSpace raw)); cbn [negb].
  - rewrite app_nil_r. destruct c; reflexivity.
  - rewrite H. reflexivity.
Qed.

Lemma config_step_total (st : Config.state) (raw : string) :
  is_Some (Config.step st raw).
Proof.
  destruct st as [configs cur]. destruct (isConfigStart raw) eqn:E.
  - rewrite config_step_start by exact E. eauto.
  - destruct cur as [c|]; [rewrite config_step_body by exact E; eauto|].
    unfold Config.step. unfold isConfigStart in E. rewrite E.
    destruct (Config.isSkipped _); eauto.
Qed.

Lemma foldLines_total {S} (step : S -> string -> option S) :
  (forall st l, is_Some (step st l)) ->
  forall lines st, is_Some (foldLines step st lines).
Proof.
  intros Htotal lines. induction lines as [|l lines IH]; intros st; [cbn; eauto|].
  cbn [foldLines]. destruct (Htotal st l) as [st' ->]. apply IH.
Qed.

Lemma bodyLines_cons (raw : string) (raws : list string) :
  bodyLines (raw :: raws) = bodyLines [raw] ++ bodyLines raws.
Proof.
  unfold bodyLines. cbn [fmap list_fmap List.filter].
  destruct (negb _); reflexivity.
Qed.

Lemma config_block (post : list string) (configs : list Config.InterfaceConfig)
  (c : Config.InterfaceConfig) :
  (forall l, In l post -> isConfigStart l = false) ->
  foldLines Config.step (configs, Some c) post =
    Some (configs, Some {| Config.Interface := Config.Interface c;
                           Config.ConfigLines :=
                             Config.ConfigLines c ++ bodyLines post |}).
Proof.
  revert c. induction post as [|l post IH]; intros c H.
  - cbn. unfold bodyLines. cbn. rewrite app_nil_r. destruct c; reflexivity.
  - cbn [foldLines]. rewrite config_step_body by (apply H; left; reflexivity).
    cbn [mbind option_bind]. rewrite IH by (intros x Hx; apply H; right; exact Hx).
    cbn [Config.Interface Config.ConfigLines].
    rewrite (bodyLines_cons l post), app_assoc. reflexivity.
Qed.

(** Before the first record-start line nothing is collected. *)
Lemma config_no_start (pre : list string) :
  (forall l, In l pre -> isConfigStart l = false) ->
  foldLines Config.step ([], None) pre = Some ([], None).
Proof.
  induction pre as [|l pre IH]; intros H; [reflexivity|].
  cbn [foldLines].
  assert (Hstep : Config.step ([], None) l = Some ([], None)).
  { pose proof (H l (or_introl eq_refl)) as Hl. unfold isConfigStart in Hl.
    unfold Config.step. rewrite Hl. destruct (Config.isSkipped _); reflexivity. }
  rewrite Hstep. cbn [mbind option_bind].
  apply IH. intros x Hx. apply H. right. exact Hx.
Qed.

(** The record begun by the last record-start line of the running
    configuration closes the output; it is the only record when no line
    before it is a record-start line. *)
Lemma config_last_block (rawOutput : string) (pre post : list string)
  (start : string) :
  Strings.Split rawOutput newline = pre ++ start :: post ->
  isConfigStart start = true ->
  (forall l, In l post -> isConfigStart l = false) ->
  exists init,
    Config.parseInterfaceConfig rawOutput =
      Some (init ++ [ {| Config.Interface := startName start;
                         Config.ConfigLines :=
                           Strings.TrimSpace start :: bodyLines post |} ],
            None) /\
    ((forall l, In l pre -> isConfigStart l = false) -> init = []).
Proof.
  intros Hsplit Hstart Hpost. unfold Config.parseInterfaceConfig.
  rewrite Hsplit, foldLines_app.
  destruct (foldLines Config.step ([], None) pre) as [[configs cur]|] eqn:Epre.
  2: { destruct (foldLines_total Config.step config_step_total pre ([], None))
         as [st Est]. rewrite Est in Epre. discriminate. }
  cbn [mbind option_bind foldLines].
  rewrite (config_step_start _ _ _ Hstart). cbn [mbind option_bind].
  rewrite (config_block post _ _ Hpost). cbn [mbind option_bind].
  cbn [Config.Interface Config.ConfigLines app].
  set (init := match cur with Some c => configs ++ [c] | None => configs end).
  exists init. split.
  - destruct (init ++ _) eqn:E; [|reflexivity].
    apply app_eq_nil in E as [_ E]. discriminate.
  - intros Hpre. rewrite (config_no_start pre Hpre) in Epre.
    injection Epre as <- <-. reflexivity.
Qed.

(** ** Interface details *)

Lemma findString_total (re : Regexp.Regexp) (s : string) :
  is_Some (Interfaces.findString re s).
Proof.
  unfold Interfaces.findString.
  destruct (1 <? length _)%nat eqn:E; [|eauto].
  apply Nat.ltb_lt in E. destruct (lookup_lt_is_Some_2 _ _ E) as [x ->].
  cbn. eauto.
Qed.

Lemma groups_total (n : nat) (re : Regexp.Regexp) (block : string) :
  is_Some (Interfaces.groups n re block).
Proof.
  unfold Interfaces.groups.
  destruct (n <? length _)%nat eqn:E; [|eauto].
  apply Nat.ltb_lt in E. rewrite subslice_Some by lia. cbn. eauto.
Qed.

Ltac some_of lemma :=
  let x := fresh "x" in
  let E := fresh "E" in
  destruct lemma as [x E]; rewrite E; clear E; cbn [mbind option_bind].

Lemma protocolStatus_total (matches : list string) (link : string) :
  is_Some (Interfaces.protocolStatus matches link).
Proof.
  unfold Interfaces.protocolStatus.
  destruct (3 <? length matches)%nat eqn:E; [|eauto].
  apply Nat.ltb_lt in E. some_of (lookup_lt_is_Some_2 matches 3%nat E). eauto.
Qed.

Lemma mediaType_total (block : string) : is_Some (Interfaces.mediaType block).
Proof.
  unfold Interfaces.mediaType.
  set (m := Regexp.FindStringSubmatch _ _).
  destruct ((2 <? length m) && (3 <? length m))%nat eqn:E; [|eauto].
  apply andb_prop in E as [_ E]. apply Nat.ltb_lt in E.
  some_of (lookup_lt_is_Some_2 m 3%nat E). eauto.
Qed.

Lemma inputAndCrcErrors_total (block : string) :
  is_Some (Interfaces.inputAndCrcErrors block).
Proof.
  unfold Interfaces.inputAndCrcErrors.
  some_of (groups_total 2 Interfaces.reInputErrors block).
  match goal with |- is_Some (match ?x with _ => _ end) => destruct x end;
    [eauto|].
  some_of (findString_total Interfaces.reInputErrorsNexus block).
  some_of (findString_total Interfaces.reCrcErrorsNexus block). eauto.
Qed.

(** The parse of a block never indexes a match out of range. *)
Lemma parseSingleInterface_total (block : string) :
  is_Some (Interfaces.parseSingleInterface block).
Proof.
  unfold Interfaces.parseSingleInterface.
  set (matches := Regexp.FindStringSubmatch Interfaces.reStatus block).
  destruct (2 <? length matches)%nat eqn:E2; [|eauto].
  apply Nat.ltb_lt in E2.
  some_of (lookup_lt_is_Some_2 matches 1%nat ltac:(lia)).
  some_of (lookup_lt_is_Some_2 matches 2%nat ltac:(lia)).
  match goal with
  | |- context [Interfaces.protocolStatus ?m ?l] =>
      some_of (protocolStatus_total m l)
  end.
  some_of (groups_total 2 Interfaces.reHardware block).
  some_of (findString_total Interfaces.reDescription block).
  some_of (findString_total Interfaces.reAddress block).
  some_of (groups_total 3 Interfaces.reMtuBwDly block).
  some_of (groups_total 2 Interfaces.reDuplexSpeedMedia block).
  some_of (mediaType_total block).
  some_of (findString_total Interfaces.reEncapsulation block).
  some_of (groups_total 3 Interfaces.reReliabilityLoad block).
  some_of (groups_total 2 Interfaces.reRates block).
  some_of (groups_total 2 Interfaces.reInputCounters block).
  destruct (inputAndCrcErrors_total block) as [[ie ce] ->].
  cbn [mbind option_bind].
  some_of (groups_total 2 Interfaces.reOutputCounters block).
  some_of (groups_total 2 Interfaces.reOutputErrors block).
  some_of (groups_total 3 Interfaces.reLastIO block).
  some_of (findString_total Interfaces.reQueueStrategy block).
  some_of (groups_total 3 Interfaces.reRuntsGiantsThrottles block).
  some_of (groups_total 2 Interfaces.reRuntsGiantsNexus block).
  eauto.
Qed.

Lemma emit_total (interfaces : list Interfaces.InterfaceDetails)
  (currentBlock : list string) :
  is_Some (Interfaces.emit interfaces currentBlock).
Proof.
  unfold Interfaces.emit. destruct currentBlock as [|l ls]; [eauto|].
  some_of (parseSingleInterface_total
             (Strings.Join (l :: ls) (String newline EmptyString))).
  eauto.
Qed.

Lemma interfaces_step_total (st : list Interfaces.InterfaceDetails * list string)
  (line : string) : is_Some (Interfaces.step st line).
Proof.
  destruct st as [interfaces block]. unfold Interfaces.step.
  destruct (Regexp.MatchString _ _).
  - some_of (emit_total interfaces block). eauto.
  - destruct block; eauto.
Qed.

Lemma interfaces_step_start (interfaces : list Interfaces.InterfaceDetails)
  (block : list string) (line : string) :
  Regexp.MatchString Interfaces.reInterfaceStart line = true ->
  Interfaces.step (interfaces, block) line =
    interfaces' ← Interfaces.emit interfaces block; Some (interfaces', [line]).
Proof. intros H. unfold Interfaces.step. rewrite H. reflexivity. Qed.

Lemma interfaces_step_body (interfaces : list Interfaces.InterfaceDetails)
  (l : string) (ls : list string) (line : string) :
  Regexp.MatchString Interfaces.reInterfaceStart line = false ->
  Interfaces.step (interfaces, l :: ls) line = Some (interfaces, l :: ls ++ [line]).
Proof. intros H. unfold Interfaces.step. rewrite H. reflexivity. Qed.

(** Lines that are not record-start lines join the block in progress. *)
Lemma interfaces_block (post : list string)
  (interfaces : list Interfaces.InterfaceDetails) (l : string) (ls : list string) :
  (forall x, In x post ->
     Regexp.MatchString Interfaces.reInterfaceStart x = false) ->
  foldLines Interfaces.step (interfaces, l :: ls) post
    = Some (interfaces, l :: ls ++ post).
Proof.
  revert ls. induction post as [|x post IH]; intros ls H.
  - cbn. rewrite app_nil_r. reflexivity.
  - cbn [foldLines].
    rewrite (interfaces_step_body _ _ _ _ (H x (or_introl eq_refl))).
    cbn [mbind option_bind].
    rewrite IH by (intros y Hy; apply H; right; exact Hy).
    rewrite <- app_assoc. reflexivity.
Qed.

Lemma interfaces_no_start (pre : list string) :
  (forall l, In l pre ->
     Regexp.MatchString Interfaces.reInterfaceStart l = false) ->
  foldLines Interfaces.step ([], []) pre = Some ([], []).
Proof.
  induction pre as [|l pre IH]; intros H; [reflexivity|].
  cbn [foldLines].
  assert (Hstep : Interfaces.step ([], []) l = Some ([], [])).
  { unfold Interfaces.step. rewrite (H l (or_introl eq_refl)). reflexivity. }
  rewrite Hstep. cbn [mbind option_bind].
  apply IH. intros x Hx. apply H. right. exact Hx.
Qed.

(** The block begun by the last record-start line of the active window is
    parsed last; its record closes the output unless it has no name, and
    nothing comes before it when no earlier line is a record-start line. *)
Lemma interfaces_last_block (rawOutput : string) (pre post : list string)
  (start : string) :
  Interfaces.cleanLines rawOutput = pre ++ start :: post ->
  Regexp.MatchString Interfaces.reInterfaceStart start = true ->
  (forall l, In l post ->
     Regexp.MatchString Interfaces.reInterfaceStart l = false) ->
  exists init d,
    Interfaces.parseSingleInterface
      (Strings.Join (start :: post) (String newline EmptyString)) = Some d /\
    Interfaces.parseInterfaces rawOutput =
      Some (if isEmpty (Interfaces.Interface d) then init else init ++ [d], None) /\
    ((forall l, In l pre ->
        Regexp.MatchString Interfaces.reInterfaceStart l = false) -> init = []).
Proof.
  intros Hclean Hstart Hpost. unfold Interfaces.parseInterfaces.
  rewrite Hclean, foldLines_app.
  destruct (foldLines Interfaces.step ([], []) pre) as [[ifs blk]|] eqn:Epre.
  2: { destruct (foldLines_total Interfaces.step interfaces_step_total pre ([], []))
         as [st Est]. rewrite Est in Epre. discriminate. }
  cbn [mbind option_bind foldLines].
  rewrite (interfaces_step_start _ _ _ Hstart).
  destruct (Interfaces.emit ifs blk) as [init|] eqn:Einit.
  2: { destruct (emit_total ifs blk) as [x Ex]. rewrite Ex in Einit. discriminate. }
  cbn [mbind option_bind].
  rewrite (interfaces_block post init start [] Hpost). cbn [mbind option_bind app].
  unfold Interfaces.emit.
  destruct (parseSingleInterface_total
              (Strings.Join (start :: post) (String newline EmptyString)))
    as [d Hd].
  exists init, d. rewrite Hd. split; [reflexivity|]. split; [reflexivity|].
  intros Hpre. rewrite (interfaces_no_start pre Hpre) in Epre.
  injection Epre as <- <-. cbn in Einit. congruence.
Qed.

(** C7, as stated, fails.  For the interface-detail stitcher: inside the
    active window, a record-start line followed by three detail lines gives
    no record when the block does not match the status pattern.  For the
    running-config stitcher: a detail line that begins with "!" is left
    out of the body. *)
Lemma last_block_dropped :
  let details :=
    "sw1#show interface" +:+ String newline
    ("Vlan1 is testing" +:+ String newline
     ("  line a" +:+ String newline ("  line b" +:+ String newline "  line c"))) in
  let config :=
    "interface Vlan1" +:+ String newline
    (" description uplink" +:+ String newline
     ("! note" +:+ String newline " shutdown")) in
  Interfaces.cleanLines details
    = ["Vlan1 is testing"; "  line a"; "  line b"; "  line c"] /\
  Regexp.MatchString Interfaces.reInterfaceStart "Vlan1 is testing" = true /\
  Interfaces.parseInterfaces details = Some ([], None) /\
  Config.parseInterfaceConfig config =
    Some ([ {| Config.Interface := "Vlan1";
               Config.ConfigLines :=
                 ["interface Vlan1"; "description uplink"; "shutdown"] |} ],
          None).
Proof. vm_compute. repeat split; reflexivity. Qed.

(** C7, amended: the running-config stitcher always emits the record begun
    by the last record-start line as the final element, its body being the
    trimmed start line followed by the trimmed text of the later lines that
    are not skipped (blank, or beginning with "!", "version" or
    "hostname").  The interface-detail stitcher works on the lines of the
    active output window, always parses the block begun by the last
    record-start line last, and emits its record as the final element when
    the record has a name; a block without a name is dropped.  With a
    single record-start line the output is that one record: for the
    running configuration always, for the interface details when the
    block has a name.  In the samples, one record-start line followed by
    three detail lines gives one record with all four lines in the
    body. *)
Theorem last_record_emitted (rawOutput : string) (pre post : list string)
  (start : string) :
  (Strings.Split rawOutput newline = pre ++ start :: post ->
   isConfigStart start = true ->
   (forall l, In l post -> isConfigStart l = false) ->
   exists init,
     Config.parseInterfaceConfig rawOutput =
       Some (init ++ [ {| Config.Interface := startName start;
                          Config.ConfigLines :=
                            Strings.TrimSpace start :: bodyLines post |} ],
             None) /\
     ((forall l, In l pre -> isConfigStart l = false) -> init = [])) /\
  (Interfaces.cleanLines rawOutput = pre ++ start :: post ->
   Regexp.MatchString Interfaces.reInterfaceStart start = true ->
   (forall l, In l post ->
      Regexp.MatchString Interfaces.reInterfaceStart l = false) ->
   exists init d,
     Interfaces.parseSingleInterface
       (Strings.Join (start :: post) (String newline EmptyString)) = Some d /\
     Interfaces.parseInterfaces rawOutput =
       Some (if isEmpty (Interfaces.Interface d) then init else init ++ [d],
             None) /\
     ((forall l, In l pre ->
         Regexp.MatchString Interfaces.reInterfaceStart l = false) ->
      init = [])) /\
  Config.parseInterfaceConfig
    ("interface GigabitEthernet1/0/1" +:+ String newline
     (" description uplink" +:+ String newline
      (" switchport mode access" +:+ String newline " shutdown")))
    = Some ([ {| Config.Interface := "GigabitEthernet1/0/1";
                 Config.ConfigLines :=
                   ["interface GigabitEthernet1/0/1"; "description uplink";
                    "switchport mode access"; "shutdown"] |} ], None) /\
  (exists d,
     Interfaces.parseSingleInterface
       ("GigabitEthernet1/0/1 is up, line protocol is up" +:+ String newline
        ("  Description: uplink" +:+ String newline
         ("  MTU 1500 bytes, BW 1000000 Kbit/sec, DLY 10 usec," +:+ String newline
          "  Encapsulation ARPA, loopback not set"))) = Some d /\
     Interfaces.Interface d = "GigabitEthernet1/0/1" /\
     Interfaces.Description d = "uplink" /\
     Interfaces.Mtu d = "1500" /\
     Interfaces.Encapsulation d = "ARPA" /\
     Interfaces.parseInterfaces
       ("sw1#show interface" +:+ String newline
        ("GigabitEthernet1/0/1 is up, line protocol is up" +:+ String newline
         ("  Description: uplink" +:+ String newline
          ("  MTU 1500 bytes, BW 1000000 Kbit/sec, DLY 10 usec," +:+ String newline
           "  Encapsulation ARPA, loopback not set"))))
       = Some ([d], None)).
Proof.
  split; [apply config_last_block|]. split; [apply interfaces_last_block|].
  split; [vm_compute; reflexivity|].
  eexists. split; [vm_compute; reflexivity|].
  vm_compute. repeat split; reflexivity.
Qed.

Lemma last_record_emitted_witness :
  exists init,
    Config.parseInterfaceConfig
      ("hostname sw1" +:+ String newline
       ("interface Vlan1" +:+ String newline
        (" no ip address" +:+ String newline
         ("interface Vlan10" +:+ String newline " ip address 10.0.0.1 255.255.255.0"))))
    = Some (init ++ [ {| Config.Interface := "Vlan10";
                         Config.ConfigLines :=
                           ["interface Vlan10"; "ip address 10.0.0.1 255.255.255.0"] |} ],
            None).
Proof.
  destruct (last_record_emitted
              ("hostname sw1" +:+ String newline
               ("interface Vlan1" +:+ String newline
                (" no ip address" +:+ String newline
                 ("interface Vlan10" +:+ String newline " ip address 10.0.0.1 255.255.255.0"))))
              ["hostname sw1"; "interface Vlan1"; " no ip address"]
              [" ip address 10.0.0.1 255.255.255.0"]
              "interface Vlan10") as [H _].
  destruct H as [init [H _]].
  - reflexivity.
  - reflexivity.
  - intros l [<-|[]]. reflexivity.
  - exists init. rewrite H. reflexivity.
Defined.

(** * Further properties of the code *)

(** ** String facts *)

Lemma append_cons (c : ascii) (a b : string) :
  String c a +:+ b = String c (a +:+ b).
Proof. reflexivity. Qed.

Lemma append_nil (b : string) : EmptyString +:+ b = b.
Proof. reflexivity. Qed.

(** ** The interface-name normalizer *)

Lemma eqb_letter (a b : ascii) :
  isLetter a = true -> isLetter b = false -> Ascii.eqb a b = false.
Proof.
  intros Ha Hb. destruct (Ascii.eqb_spec a b) as [->|]; [congruence|done].
Qed.

Lemma HasPrefix_suffix_letter (rest p : string) (a : ascii) :
  isLetter a = true -> isPortSuffix rest = true ->
  Strings.HasPrefix rest (String a p) = false.
Proof.
  intros Ha Hr. destruct rest as [|b t]; [done|].
  cbn [Strings.HasPrefix]. cbn [isPortSuffix] in Hr.
  apply andb_true_iff in Hr as [Hb _]. apply andb_true_iff in Hb as [Hb _].
  apply negb_true_iff in Hb. by rewrite (eqb_letter a b).
Qed.

Lemma HasPrefix_app_letters (old rest p : string) :
  allLetters p = true -> isPortSuffix rest = true ->
  Strings.HasPrefix (old +:+ rest) p = Strings.HasPrefix old p.
Proof.
  revert p. induction old as [|c o IH]; intros p Hp Hr.
  - destruct p as [|a p']; [by destruct rest|].
    cbn [allLetters] in Hp. apply andb_true_iff in Hp as [Ha _].
    rewrite append_nil, HasPrefix_suffix_letter by done. done.
  - destruct p as [|a p']; [done|].
    cbn [allLetters] in Hp. apply andb_true_iff in Hp as [_ Hp].
    rewrite append_cons. cbn [Strings.HasPrefix]. by rewrite IH.
Qed.

Lemma Contains_suffix_letter (rest p : string) (a : ascii) :
  isLetter a = true -> isPortSuffix rest = true ->
  Strings.Contains rest (String a p) = false.
Proof.
  intros Ha. induction rest as [|b t IH]; intros Hr; [done|].
  rewrite Contains_cons, HasPrefix_suffix_letter by done.
  cbn [isPortSuffix] in Hr. apply andb_true_iff in Hr as [_ Hr].
  by rewrite IH.
Qed.

Lemma Contains_suffix_space (rest : string) :
  isPortSuffix rest = true -> Strings.Contains rest " " = false.
Proof.
  induction rest as [|b t IH]; intros Hr; [done|].
  rewrite Contains_cons, HasPrefix_space.
  cbn [isPortSuffix] in Hr. apply andb_true_iff in Hr as [Hb Hr].
  apply andb_true_iff in Hb as [_ Hb]. apply negb_true_iff in Hb.
  rewrite Ascii.eqb_sym, Hb, IH by done. done.
Qed.

Lemma replaceFrom_skip (r : Strings.Replacer) (a b : string) :
  Strings.replaceFrom r (String.length a) (a +:+ b) = Strings.replaceFrom r 0 b.
Proof.
  induction a as [|c a IH]; [done|].
  rewrite append_cons. cbn [String.length Strings.replaceFrom]. exact IH.
Qed.

Lemma find_ext_In {A} (f g : A -> bool) (l : list A) :
  (forall x, In x l -> f x = g x) -> List.find f l = List.find g l.
Proof.
  induction l as [|x l IH]; intros H; [done|].
  cbn [List.find]. rewrite (H x) by (by left).
  destruct (g x); [done|]. apply IH. intros y Hy. apply H. by right.
Qed.

Lemma aliases_are_letters :
  forallb (fun p => allLetters (fst p) && negb (isEmpty (fst p))) aliasTable = true.
Proof. vm_compute. reflexivity. Qed.

Lemma alias_letters (p : string * string) :
  In p aliasTable ->
  allLetters (fst p) = true /\
  exists a t, fst p = String a t /\ isLetter a = true.
Proof.
  intros Hp. pose proof aliases_are_letters as H.
  rewrite forallb_forall in H. specialize (H p Hp).
  apply andb_true_iff in H as [H1 H2]. split; [done|].
  destruct (fst p) as [|a t]; [done|]. exists a, t. split; [done|].
  cbn [allLetters] in H1. by apply andb_true_iff in H1 as [? _].
Qed.

(** The table lists a longer alias before each alias that is a prefix of
    it, so the first old string that is a prefix of an alias is the alias
    itself; and no alias holds a space. *)
Lemma aliases_first :
  forallb (fun p =>
             match List.find (fun q => Strings.HasPrefix (fst p) (fst q)) aliasTable with
             | Some q => String.eqb (fst q) (fst p) && String.eqb (snd q) (snd p)
             | None => false
             end && negb (Strings.Contains (fst p) " ")) aliasTable = true.
Proof. vm_compute. reflexivity. Qed.

Lemma alias_first (old new : string) :
  In (old, new) aliasTable ->
  List.find (fun q => Strings.HasPrefix old (fst q)) aliasTable = Some (old, new) /\
  Strings.Contains old " " = false.
Proof.
  intros Hp. pose proof aliases_first as H.
  rewrite forallb_forall in H. specialize (H _ Hp). cbn [fst snd] in H.
  apply andb_true_iff in H as [H1 H2]. apply negb_true_iff in H2.
  split; [|exact H2].
  destruct (List.find _ aliasTable) as [[o n]|]; [|discriminate].
  cbn [fst snd] in H1. apply andb_true_iff in H1 as [Ho Hn].
  apply String.eqb_eq in Ho, Hn. by subst.
Qed.

Lemma Replace_head (r : Strings.Replacer) (old new rest : string) :
  Strings.lookup r (old +:+ rest) = Some (old, new) -> old <> EmptyString ->
  Strings.Replace r (old +:+ rest) = new +:+ Strings.Replace r rest.
Proof.
  intros H Hne. destruct old as [|c o]; [done|].
  unfold Strings.Replace. rewrite append_cons in *.
  cbn [Strings.replaceFrom]. rewrite H.
  replace (String.length (String c o) - 1)%nat with (String.length o)
    by (cbn [String.length]; lia).
  by rewrite replaceFrom_skip.
Qed.

(** X1: every verbose alias of the replacement table, followed by a port
    suffix (text with no letter and no space, such as "1/0/24"), is
    normalized to its short form followed by the same suffix. *)
Theorem normalize_alias_shortened (old new rest : string) :
  In (old, new) aliasTable -> isPortSuffix rest = true ->
  normalizeInterfaceName (old +:+ rest) = new +:+ rest.
Proof.
  intros Hin Hr. unfold normalizeInterfaceName.
  destruct (alias_first old new Hin) as [Hfirst Hspace].
  destruct (alias_letters _ Hin) as [_ (a & t & Hold & _)]. cbn [fst] in Hold.
  rewrite ReplaceAll_absent
    by (by rewrite Contains_app_space, Hspace, (Contains_suffix_space rest)).
  rewrite (Replace_head _ old new rest).
  - f_equal. apply Replace_absent. intros p Hp. cbn [Strings.oldnew] in Hp.
    destruct (alias_letters p Hp) as [_ (a' & t' & -> & Ha)].
    by apply Contains_suffix_letter.
  - unfold Strings.lookup. cbn [Strings.oldnew]. rewrite <- Hfirst.
    apply find_ext_In. intros p Hp. apply HasPrefix_app_letters; [|done].
    by destruct (alias_letters p Hp).
  - by rewrite Hold.
Qed.

Lemma normalize_alias_shortened_witness :
  normalizeInterfaceName "TenGigabitEthernet1/0/24" = "Te1/0/24".
Proof.
  apply (normalize_alias_shortened "TenGigabitEthernet" "Te" "1/0/24").
  - cbn [In aliasTable]. do 5 right. left. reflexivity.
  - vm_compute. reflexivity.
Defined.


Lemma replaceAll_space_cons (c : ascii) (t : string) :
  Strings.replaceAllFrom 0 (String c t) " " EmptyString =
  if Ascii.eqb " " c then Strings.replaceAllFrom 0 t " " EmptyString
  else String c (Strings.replaceAllFrom 0 t " " EmptyString).
Proof.
  cbn [Strings.replaceAllFrom]. rewrite HasPrefix_space.
  destruct (Ascii.eqb " " c); reflexivity.
Qed.

Lemma ReplaceAll_space_app (a b : string) :
  Strings.ReplaceAll (a +:+ b) " " EmptyString =
  Strings.ReplaceAll a " " EmptyString +:+ Strings.ReplaceAll b " " EmptyString.
Proof.
  unfold Strings.ReplaceAll. induction a as [|c a IH]; [reflexivity|].
  rewrite append_cons, !replaceAll_space_cons.
  destruct (Ascii.eqb " " c); [exact IH|]. rewrite append_cons. by rewrite IH.
Qed.

(** X2: spaces are insignificant to the normalizer: a name with a space
    inserted anywhere has the normal form of the name without it, a name
    stripped of its spaces beforehand has the same normal form, and no
    normal form contains a space. *)
Theorem normalize_ignores_spaces (a b : string) :
  normalizeInterfaceName (a +:+ " " +:+ b) = normalizeInterfaceName (a +:+ b) /\
  normalizeInterfaceName (Strings.ReplaceAll a " " EmptyString)
    = normalizeInterfaceName a /\
  Strings.Contains (normalizeInterfaceName a) " " = false.
Proof.
  split; [|split].
  - unfold normalizeInterfaceName. f_equal.
    rewrite !ReplaceAll_space_app. reflexivity.
  - unfold normalizeInterfaceName. f_equal.
    apply ReplaceAll_absent. apply ReplaceAll_space_free.
  - apply normalize_space_free.
Qed.

(** ** MAC address table *)


(** ** Interface details *)

Lemma emit_named (interfaces result : list Interfaces.InterfaceDetails)
  (block : list string) :
  (forall r, In r interfaces -> Interfaces.Interface r <> EmptyString) ->
  Interfaces.emit interfaces block = Some result ->
  forall r, In r result -> Interfaces.Interface r <> EmptyString.
Proof.
  intros Hall. unfold Interfaces.emit. destruct block as [|l ls]; cbv beta iota.
  - intros [= <-]. exact Hall.
  - destruct (Interfaces.parseSingleInterface _) as [iface|];
      cbn [mbind option_bind]; [|intros ?; discriminate].
    intros [= <-] r.
    destruct (isEmpty (Interfaces.Interface iface)) eqn:E; [apply Hall|].
    intros Hr. apply in_app_or in Hr as [Hr|[<-|[]]]; [by apply Hall|].
    intros Heq. rewrite Heq in E. discriminate.
Qed.

Lemma interfaces_fold_named (lines : list string)
  (interfaces result : list Interfaces.InterfaceDetails) (block block' : list string) :
  (forall r, In r interfaces -> Interfaces.Interface r <> EmptyString) ->
  foldLines Interfaces.step (interfaces, block) lines = Some (result, block') ->
  forall r, In r result -> Interfaces.Interface r <> EmptyString.
Proof.
  revert interfaces block. induction lines as [|l ls IH]; intros interfaces block Hall.
  - intros [= <- _]. exact Hall.
  - cbn [foldLines].
    destruct (Regexp.MatchString Interfaces.reInterfaceStart l) eqn:Em.
    + rewrite (interfaces_step_start _ _ _ Em).
      destruct (Interfaces.emit interfaces block) as [interfaces'|] eqn:E;
        cbn [mbind option_bind]; [|intros ?; discriminate].
      apply IH. exact (emit_named _ _ _ Hall E).
    + assert (Hs : Interfaces.step (interfaces, block) l =
                   Some (interfaces, match block with
                                     | [] => []
                                     | _ :: _ => block ++ [l]
                                     end)).
      { unfold Interfaces.step. rewrite Em. destruct block; reflexivity. }
      rewrite Hs. cbn [mbind option_bind]. by apply IH.
Qed.

Lemma cleanLines_inactive (lines : list string) :
  (forall line, In line lines ->
     Strings.Contains (Strings.TrimRight line (String "013" EmptyString))
       "show interface" = false) ->
  foldl Interfaces.cleanStep (false, []) lines = (false, []).
Proof.
  induction lines as [|l ls IH]; intros H; [reflexivity|].
  cbn [foldl].
  assert (Hs : Interfaces.cleanStep (false, []) l = (false, [])).
  { unfold Interfaces.cleanStep. rewrite (H l) by (by left). reflexivity. }
  rewrite Hs. apply IH.
  intros line Hl. apply H. by right.
Qed.

(** X4: parseInterfaces never fails and never aborts, and every record it
    returns has a non-empty Interface.  A blob in which no line holds the
    command echo "show interface" yields no record at all.  The error
    Show_interfaces returns is the error of the transport. *)
Theorem parseInterfaces_never_fails (rawOutput : string) :
  (exists records,
     Interfaces.parseInterfaces rawOutput = Some (records, None) /\
     forall r, In r records -> Interfaces.Interface r <> EmptyString) /\
  ((forall line, In line (Strings.Split rawOutput newline) ->
      Strings.Contains (Strings.TrimRight line (String "013" EmptyString))
        "show interface" = false) ->
   Interfaces.parseInterfaces rawOutput = Some ([], None)) /\
  forall RunCommand host,
    exists records,
      Interfaces.Show_interfaces RunCommand host
        = Some (records, snd (RunCommand host "show interface")).
Proof.
  assert (Htotal : forall raw, exists records,
            Interfaces.parseInterfaces raw = Some (records, None) /\
            forall r, In r records -> Interfaces.Interface r <> EmptyString).
  { intros raw. unfold Interfaces.parseInterfaces.
    destruct (foldLines_total Interfaces.step interfaces_step_total
                (Interfaces.cleanLines raw) ([], [])) as [[ifs block] E].
    rewrite E. cbn [mbind option_bind].
    destruct (emit_total ifs block) as [records Er]. rewrite Er.
    cbn [mbind option_bind]. exists records. split; [reflexivity|].
    apply (emit_named ifs records block); [|exact Er].
    apply (interfaces_fold_named (Interfaces.cleanLines raw) [] ifs [] block);
      [intros ? []|exact E]. }
  split; [apply Htotal|]. split.
  - intros H. unfold Interfaces.parseInterfaces, Interfaces.cleanLines.
    rewrite (cleanLines_inactive _ H). reflexivity.
  - intros RunCommand host. unfold Interfaces.Show_interfaces.
    destruct (RunCommand host _) as [out [err|]]; [by eexists|].
    destruct (Htotal out) as (records & -> & _). cbn [mbind option_bind snd].
    destruct records; by eexists.
Qed.

(** ** Device identity: the returned map *)

Lemma field_in_fields (f : Version.field) : In f Version.fields.
Proof. destruct f; cbn; tauto. Qed.

Lemma toMap_source (info : Version.VersionInfo) (l : list Version.field)
  (m : gmap string string) (k v : string) :
  foldl (Version.addField info) m l !! k = Some v ->
  m !! k = Some v \/
  exists f, k = Version.fieldName f /\ Version.getField f info = v /\
            isEmpty v = false.
Proof.
  revert m. induction l as [|f l IH]; intros m H; [by left|].
  cbn [foldl] in H. apply IH in H as [H|H]; [|by right].
  unfold Version.addField in H.
  destruct (isEmpty (Version.getField f info)) eqn:E; [by left|].
  destruct (decide (k = Version.fieldName f)) as [->|Hk].
  - rewrite lookup_insert_eq in H. injection H as <-. right. by exists f.
  - rewrite lookup_insert_ne in H by done. by left.
Qed.

(** X5: the map parseVersionInfo returns holds exactly the fields that
    were found: a key maps to a value if and only if the key is the name
    of a field of the struct whose scanned value is that value and is not
    empty.  No key has an empty value, and no key other than the nine
    field names occurs. *)
Theorem parseVersionInfo_map (rawOutput : string) (m : gmap string string) :
  Version.parseVersionInfo rawOutput = (Some m, None) ->
  forall k v,
    m !! k = Some v <->
    exists f, k = Version.fieldName f /\
              Version.getField f (Version.scan rawOutput) = v /\
              v <> EmptyString.
Proof.
  unfold Version.parseVersionInfo. destruct (_ || _); [discriminate|].
  intros [= <-] k v. unfold Version.toMap. split.
  - intros H. apply toMap_source in H as [H|(f & -> & <- & He)].
    + rewrite lookup_empty in H. discriminate.
    + exists f. split; [done|]. split; [done|].
      intros Heq. rewrite Heq in He. discriminate.
  - intros (f & -> & <- & Hne). apply toMap_lookup; [apply field_in_fields|].
    destruct (Version.getField f _); [done|reflexivity].
Qed.

Lemma parseVersionInfo_map_witness :
  let blob := "Cisco IOS Software, Version 15.2(4)E, RELEASE SOFTWARE (fc2)" +:+
              String newline "Processor board ID FOC1234X5YZ" in
  ({[ "Version" := "15.2(4)E"; "Release" := "RELEASE SOFTWARE (fc2)";
      "SerialNumber" := "FOC1234X5YZ" ]} : gmap string string) !! "Hardware"
    = Some "x" <->
  exists f, "Hardware" = Version.fieldName f /\
            Version.getField f (Version.scan blob) = "x" /\
            "x" <> EmptyString.
Proof.
  intros blob.
  apply (parseVersionInfo_map blob _ ltac:(vm_compute; reflexivity) "Hardware" "x").
Defined.

(** ** Running configuration: one record per start line *)

Lemma config_step_names (raw : string) (configs : list Config.InterfaceConfig)
  (cur : option Config.InterfaceConfig) :
  exists configs' cur',
    Config.step (configs, cur) raw = Some (configs', cur') /\
    Config.Interface <$> (configs' ++ openBlock cur') =
    (Config.Interface <$> (configs ++ openBlock cur)) ++
    (startName <$> List.filter isConfigStart [raw]).
Proof.
  cbn [List.filter]. destruct (isConfigStart raw) eqn:E.
  - rewrite (config_step_start _ _ _ E). eexists _, _. split; [reflexivity|].
    destruct cur; cbn [openBlock]; rewrite ?app_nil_r, !fmap_app; reflexivity.
  - destruct cur as [c|].
    + rewrite (config_step_body _ _ _ E). eexists _, _. split; [reflexivity|].
      cbn [openBlock fmap list_fmap]. rewrite !fmap_app, app_nil_r. reflexivity.
    + exists configs, None. split.
      * unfold Config.step. destruct (Config.isSkipped _); [reflexivity|].
        unfold isConfigStart in E. rewrite E. reflexivity.
      * cbn [openBlock fmap list_fmap]. by rewrite !app_nil_r.
Qed.

Lemma filter_cons_app {A} (p : A -> bool) (x : A) (l : list A) :
  List.filter p (x :: l) = List.filter p [x] ++ List.filter p l.
Proof. cbn [List.filter]. destruct (p x); reflexivity. Qed.

Lemma config_fold_names (lines : list string)
  (configs : list Config.InterfaceConfig) (cur : option Config.InterfaceConfig) :
  exists configs' cur',
    foldLines Config.step (configs, cur) lines = Some (configs', cur') /\
    Config.Interface <$> (configs' ++ openBlock cur') =
    (Config.Interface <$> (configs ++ openBlock cur)) ++
    (startName <$> List.filter isConfigStart lines).
Proof.
  revert configs cur. induction lines as [|raw lines IH]; intros configs cur.
  - exists configs, cur. split; [reflexivity|]. cbn. by rewrite app_nil_r.
  - destruct (config_step_names raw configs cur) as (c1 & k1 & E1 & N1).
    destruct (IH c1 k1) as (c2 & k2 & E2 & N2).
    exists c2, k2. split.
    + cbn [foldLines]. rewrite E1. exact E2.
    + rewrite (filter_cons_app isConfigStart raw lines), (fmap_app startName), N2, N1,
        app_assoc. reflexivity.
Qed.

(** X6: parseInterfaceConfig never aborts and returns one record per
    record-start line (a line whose trimmed text matches the interface
    pattern), in order, the Interface of each being the name captured on
    its start line; it returns the error "no interface configurations
    found" exactly when there is no such line. *)
Theorem parseInterfaceConfig_names (rawOutput : string) :
  let starts := List.filter isConfigStart (Strings.Split rawOutput newline) in
  exists configs,
    Config.parseInterfaceConfig rawOutput =
      Some (configs,
            match starts with
            | [] => Errorf "no interface configurations found"
            | _ :: _ => None
            end) /\
    Config.Interface <$> configs = startName <$> starts.
Proof.
  intros starts. unfold Config.parseInterfaceConfig.
  destruct (config_fold_names (Strings.Split rawOutput newline) [] None)
    as (configs & cur & E & N).
  rewrite E. cbn [mbind option_bind]. cbn [app openBlock fmap list_fmap] in N.
  fold starts in N.
  exists (configs ++ openBlock cur). split; [|exact N].
  assert (Hall : match cur with Some c => configs ++ [c] | None => configs end
                 = configs ++ openBlock cur)
    by (destruct cur; cbn [openBlock]; by rewrite ?app_nil_r).
  rewrite Hall. destruct (configs ++ openBlock cur) as [|c cs], starts as [|s ss];
    try discriminate; reflexivity.
Qed.

(** ** Interface status: failure and shape of the records *)

Lemma firstIndex_None {A} (p : A -> bool) (l : list A) :
  firstIndex p l = None -> forall i x, l !! i = Some x -> p x = false.
Proof.
  induction l as [|a l IH]; intros H i x Hx; [discriminate|].
  cbn [firstIndex] in H. destruct (p a) eqn:E; [discriminate|].
  destruct (firstIndex p l); [discriminate|].
  destruct i as [|i]; [injection Hx as <-; exact E|]. by apply (IH eq_refl i).
Qed.

(** X7: parseInterfaceStatus never aborts, and it fails exactly when no
    line other than the first and the last of the blob holds both "Port"
    and "Vlan": the header is looked for from the second line on and must
    be followed by at least one line.  A failure carries no record. *)
Theorem parseInterfaceStatus_failure (rawOutput : string) :
  let lines := Strings.Split rawOutput newline in
  exists records err,
    Status.parseInterfaceStatus rawOutput = Some (records, err) /\
    (err <> None <->
     forall i line, (1 <= i)%nat -> (S i < length lines)%nat ->
                    lines !! i = Some line -> Status.isHeader line = false) /\
    (err <> None ->
     records = [] /\
     err = Errorf "could not find interface status header in output").
Proof.
  intros lines. unfold Status.parseInterfaceStatus. fold lines. clearbody lines.
  destruct (firstIndex Status.isHeader (drop 1 lines)) as [k|] eqn:E.
  - apply firstIndex_Some in E as [(x & Hx & Hp) Hmin].
    rewrite lookup_drop in Hx.
    destruct (length lines <=? S (S k))%nat eqn:El.
    + apply Nat.leb_le in El. eexists _, _. split; [reflexivity|].
      split; [|done]. split; [|done]. intros _ i line Hi Hlen Hline.
      apply (Hmin (i - 1)%nat line); [lia|].
      rewrite lookup_drop. by replace (1 + (i - 1))%nat with i by lia.
    + apply Nat.leb_gt in El. unfold Status.step.
      rewrite (foldLines_emitted _ lineRecords_total). cbn [mbind option_bind app].
      eexists _, _. split; [reflexivity|]. split; [|done]. split; [done|].
      intros H. exfalso. rewrite (H (1 + k)%nat x) in Hp; [discriminate|lia|lia|done].
  - eexists _, _. split; [reflexivity|]. split; [|done]. split; [|done].
    intros _ i line Hi _ Hline.
    apply (firstIndex_None _ _ E (i - 1)%nat line).
    rewrite lookup_drop. by replace (1 + (i - 1))%nat with i by lia.
Qed.

Lemma fieldsFrom_nonempty (s : string) (skip : nat) (cur x : string) :
  In x (Strings.fieldsFrom skip cur s) -> x <> EmptyString.
Proof.
  revert skip cur. induction s as [|c t IH]; intros skip cur.
  - cbn [Strings.fieldsFrom]. unfold Strings.flush.
    destruct cur; [intros []|intros [<-|[]]; done].
  - cbn [Strings.fieldsFrom]. destruct skip; [|apply IH].
    destruct (Strings.spaceWidth (String c t)); [apply IH|].
    intros H. apply in_app_or in H as [H|H]; [|by eapply IH].
    unfold Strings.flush in H. destruct cur; [destruct H|].
    destruct H as [<-|[]]. done.
Qed.

(** [strings.Fields] never returns an empty token. *)
Lemma Fields_nonempty (s x : string) : In x (Strings.Fields s) -> x <> EmptyString.
Proof. apply fieldsFrom_nonempty. Qed.

Lemma lookup_In {A} (l : list A) (i : nat) (x : A) : l !! i = Some x -> In x l.
Proof.
  revert i. induction l as [|a l IH]; intros [|i] H; try discriminate.
  - injection H as <-. by left.
  - right. by apply (IH i).
Qed.

Lemma Join_nonempty (x : string) (rest : list string) (sep : string) :
  x <> EmptyString -> Strings.Join (x :: rest) sep <> EmptyString.
Proof.
  intros Hx. destruct x as [|a t]; [done|].
  destruct rest; cbn [Strings.Join]; [done|]. rewrite append_cons. done.
Qed.

Lemma lineRecords_inv (rawLine : string) (rs : list Status.InterfaceStatus)
  (r : Status.InterfaceStatus) :
  Status.lineRecords rawLine = Some rs -> In r rs ->
  let fields := Strings.Fields (Strings.TrimSpace rawLine) in
  Status.isSkipped (Strings.TrimSpace rawLine) = false /\
  (6 <= length fields)%nat /\
  exists j, Status.findStatusIndex fields = Some j.
Proof.
  intros H Hr fields. unfold Status.lineRecords in H. cbv zeta in H.
  fold fields in H.
  destruct (Status.isSkipped _); [injection H as <-; destruct Hr|].
  split; [reflexivity|].
  destruct (length fields <? 6)%nat eqn:El; [injection H as <-; destruct Hr|].
  apply Nat.ltb_ge in El. split; [exact El|].
  destruct (fields !! 0%nat); [|discriminate]. cbn [mbind option_bind] in H.
  destruct (Status.findStatusIndex fields) as [j|];
    [by exists j|injection H as <-; destruct Hr].
Qed.

(** X8: every record parseInterfaceStatus returns has one of the six
    status keywords as its Status, and its Interface, VlanID, Duplex,
    Speed and Type are not empty. *)
Theorem status_records_wellformed (rawOutput : string)
  (records : list Status.InterfaceStatus) (err : error)
  (r : Status.InterfaceStatus) :
  Status.parseInterfaceStatus rawOutput = Some (records, err) -> In r records ->
  Status.isStatusKeyword (Status.Status r) = true /\
  Status.Interface r <> EmptyString /\
  Status.VlanID r <> EmptyString /\
  Status.Duplex r <> EmptyString /\
  Status.Speed r <> EmptyString /\
  Status.Type_ r <> EmptyString.
Proof.
  unfold Status.parseInterfaceStatus, Status.step. intros H Hr.
  destruct (firstIndex _ _) as [k|]; [|injection H as <- _; contradiction].
  destruct (_ <=? _)%nat; [injection H as <- _; contradiction|].
  rewrite (foldLines_emitted _ lineRecords_total) in H.
  cbn in H. injection H as <- _.
  apply (emitted_In _ lineRecords_total) in Hr as (line & rs & _ & Hrs & Hr).
  destruct (lineRecords_inv _ _ _ Hrs Hr) as (Hskip & Hlen & j & Hj).
  destruct (lineRecords_pivot line _ j eq_refl Hskip Hlen Hj)
    as (r' & Hr' & H0 & _ & Hs & Hv & Hd & Hp & Ht).
  rewrite Hr' in Hrs. injection Hrs as <-. destruct Hr as [<-|[]].
  apply findStatusIndex_Some in Hj as (Hjr & (s & Hjs & Hkw) & _).
  rewrite Hs in Hjs. injection Hjs as <-.
  split; [exact Hkw|].
  repeat split;
    try (eapply Fields_nonempty, lookup_In; eassumption).
  rewrite Ht.
  destruct (drop (j + 4) (Strings.Fields (Strings.TrimSpace line)))
    as [|x rest] eqn:Ed.
  - apply (f_equal length) in Ed. rewrite length_drop in Ed. cbn in Ed. lia.
  - apply Join_nonempty. apply (Fields_nonempty (Strings.TrimSpace line)).
    apply (In_drop (j + 4)). rewrite Ed. by left.
Qed.

Lemma status_records_wellformed_witness :
  Status.isStatusKeyword (Status.Status Status.case3Record) = true /\
  Status.Interface Status.case3Record <> EmptyString /\
  Status.VlanID Status.case3Record <> EmptyString /\
  Status.Duplex Status.case3Record <> EmptyString /\
  Status.Speed Status.case3Record <> EmptyString /\
  Status.Type_ Status.case3Record <> EmptyString.
Proof.
  apply (status_records_wellformed
           ("sw1#show interface status" +:+ String newline
            ("Port      Name   Status  Vlan  Duplex  Speed Type" +:+
             String newline Status.case3Line))
           [Status.case3Record] None).
  - vm_compute. reflexivity.
  - left. reflexivity.
Defined.

(** ** VLAN table *)

Lemma vlan_loop_cons (vlans : list Vlan.VlanInfo) (raw : string)
  (rest : list string) :
  Vlan.loop vlans (raw :: rest) =
  if isVlanTypeLine raw then Some vlans else Vlan.loop (vlanLine vlans raw) rest.
Proof.
  cbn [Vlan.loop]. unfold isVlanTypeLine, vlanLine.
  set (line := Strings.TrimRight raw _).
  destruct (Strings.HasPrefix line "VLAN Type"); [reflexivity|].
  destruct (isEmpty line); [reflexivity|].
  destruct (Regexp.MatchString Vlan.isNewVlanLine line).
  - destruct (length (Strings.Fields line) <? 3)%nat eqn:El; [reflexivity|].
    apply Nat.ltb_ge in El.
    destruct (lookup_lt_is_Some_2 (Strings.Fields line) 0%nat) as [a ->]; [lia|].
    destruct (lookup_lt_is_Some_2 (Strings.Fields line) 1%nat) as [b ->]; [lia|].
    destruct (lookup_lt_is_Some_2 (Strings.Fields line) 2%nat) as [c ->]; [lia|].
    cbn [mbind option_bind from_option id].
    destruct (3 <? length (Strings.Fields line))%nat eqn:E3.
    + apply Nat.ltb_lt in E3. rewrite subslice_to_end by lia. reflexivity.
    + reflexivity.
  - destruct vlans; reflexivity.
Qed.

Lemma vlan_loop_total (lines : list string) (vlans : list Vlan.VlanInfo) :
  is_Some (Vlan.loop vlans lines).
Proof.
  revert vlans. induction lines as [|raw rest IH]; intros vlans; [by eexists|].
  rewrite vlan_loop_cons. destruct (isVlanTypeLine raw); [by eexists|apply IH].
Qed.

Lemma vlan_loop_stop (pre post : list string) (stop : string)
  (vlans : list Vlan.VlanInfo) :
  isVlanTypeLine stop = true ->
  Vlan.loop vlans (pre ++ stop :: post) = Vlan.loop vlans (pre ++ [stop]).
Proof.
  intros Hstop. revert vlans. induction pre as [|raw pre IH]; intros vlans.
  - cbn [app]. by rewrite !vlan_loop_cons, Hstop.
  - cbn [app]. rewrite !vlan_loop_cons. destruct (isVlanTypeLine raw); [done|apply IH].
Qed.

Lemma firstIndex_app_Some {A} (p : A -> bool) (l1 l2 : list A) (i : nat) :
  firstIndex p l1 = Some i -> firstIndex p (l1 ++ l2) = Some i.
Proof.
  revert i. induction l1 as [|x l1 IH]; intros i H; [discriminate|].
  cbn [firstIndex app] in *. destruct (p x); [exact H|].
  destruct (firstIndex p l1) as [k|]; [|discriminate].
  by rewrite (IH k eq_refl).
Qed.

(** X9: parseVlanInfo reads nothing below the line that opens the second
    table: when the line starting with "VLAN Type" stands at least two
    lines below the header, two blobs that agree up to that line give the
    same result. *)
Theorem parseVlanInfo_stops (rawOutput rawOutput' : string)
  (pre post post' : list string) (stop : string) (i : nat) :
  Strings.Split rawOutput newline = pre ++ stop :: post ->
  Strings.Split rawOutput' newline = pre ++ stop :: post' ->
  firstIndex Vlan.isHeader pre = Some i -> (i + 2 <= length pre)%nat ->
  isVlanTypeLine stop = true ->
  Vlan.parseVlanInfo rawOutput = Vlan.parseVlanInfo rawOutput'.
Proof.
  intros E E' Hi Hlen Hstop. unfold Vlan.parseVlanInfo. rewrite E, E'.
  rewrite !(firstIndex_app_Some _ _ _ _ Hi).
  rewrite !drop_app_le by lia.
  by rewrite (vlan_loop_stop _ post), (vlan_loop_stop _ post').
Qed.

Lemma parseVlanInfo_stops_witness :
  Vlan.parseVlanInfo
    ("VLAN Name     Status    Ports" +:+ String newline
     ("---- -------- --------- -------" +:+ String newline
      ("10   DATA     active    Gi1/0/1" +:+ String newline
       ("VLAN Type  SAID       MTU" +:+ String newline
        "10   enet  100010     1500")))) =
  Vlan.parseVlanInfo
    ("VLAN Name     Status    Ports" +:+ String newline
     ("---- -------- --------- -------" +:+ String newline
      ("10   DATA     active    Gi1/0/1" +:+ String newline
       "VLAN Type  SAID       MTU"))).
Proof.
  apply (parseVlanInfo_stops _ _
           ["VLAN Name     Status    Ports"; "---- -------- --------- -------";
            "10   DATA     active    Gi1/0/1"]
           ["10   enet  100010     1500"] []
           "VLAN Type  SAID       MTU" 0%nat).
  - vm_compute. reflexivity.
  - vm_compute. reflexivity.
  - vm_compute. reflexivity.
  - cbn. lia.
  - vm_compute. reflexivity.
Defined.

(** *** The records of the VLAN table *)

Lemma HasPrefix_refl (s : string) : Strings.HasPrefix s s = true.
Proof.
  induction s as [|c s IH]; [reflexivity|].
  cbn [Strings.HasPrefix]. by rewrite Ascii.eqb_refl, IH.
Qed.

Lemma HasPrefix_app_l (s a b : string) :
  Strings.HasPrefix s (a +:+ b) = true -> Strings.HasPrefix s a = true.
Proof.
  revert s. induction a as [|c a IH]; intros s; [by destruct s|].
  rewrite append_cons. destruct s as [|d s]; [done|].
  cbn [Strings.HasPrefix]. intros H. apply andb_true_iff in H as [-> H].
  by rewrite (IH s H).
Qed.

Lemma fieldsFrom_head (s cur : string) :
  cur <> EmptyString ->
  exists tok rest,
    Strings.fieldsFrom 0 cur s = tok :: rest /\ Strings.HasPrefix tok cur = true.
Proof.
  revert cur. induction s as [|d t IH]; intros cur Hcur.
  - cbn [Strings.fieldsFrom]. unfold Strings.flush.
    destruct cur as [|a cur']; [done|]. eexists _, _. split; [reflexivity|].
    apply HasPrefix_refl.
  - cbn [Strings.fieldsFrom]. destruct (Strings.spaceWidth (String d t)).
    + destruct (IH (cur +:+ String d EmptyString)) as (tok & rest & E & Hp).
      { destruct cur; [done|]. by rewrite append_cons. }
      exists tok, rest. split; [exact E|]. by apply HasPrefix_app_l in Hp.
    + unfold Strings.flush. destruct cur as [|a cur']; [done|].
      eexists _, _. split; [reflexivity|]. apply HasPrefix_refl.
Qed.

Lemma spaceWidth_digit (c : ascii) (t : string) :
  isDigit c = true -> Strings.spaceWidth (String c t) = 0%nat.
Proof.
  unfold isDigit. cbv zeta. intros H.
  apply andb_true_iff in H as [H1 H2].
  apply N.leb_le in H1, H2.
  unfold Strings.spaceWidth. cbv zeta.
  set (x := Strings.byteOf c) in *.
  assert (E1 : ((9 <=? x) && (x <=? 13) || (x =? 32))%N = false).
  { apply orb_false_iff. split; [apply andb_false_iff; right; apply N.leb_gt; lia|].
    apply N.eqb_neq. lia. }
  assert (E2 : (x =? 194)%N = false) by (apply N.eqb_neq; lia).
  assert (E3 : (x =? 225)%N = false) by (apply N.eqb_neq; lia).
  assert (E4 : (x =? 226)%N = false) by (apply N.eqb_neq; lia).
  assert (E5 : (x =? 227)%N = false) by (apply N.eqb_neq; lia).
  rewrite E1. destruct t as [|b r]; [reflexivity|].
  rewrite E2. cbn [andb]. destruct r as [|d r]; [reflexivity|].
  rewrite E3, E4, E5. reflexivity.
Qed.

(** A line the pattern [^\d] matches begins with a digit. *)
Lemma isNewVlanLine_digit (line : string) :
  Regexp.MatchString Vlan.isNewVlanLine line = true -> startsWithDigit line = true.
Proof.
  unfold Regexp.MatchString, Regexp.FindStringSubmatch.
  assert (Hp : Regexp.prog Vlan.isNewVlanLine =
               Regexp.Cat Regexp.Bol
                 (Regexp.Cat (Regexp.Byte false false [(48, 57)]%N) Regexp.Empty))
    by (vm_compute; reflexivity).
  assert (Ha : anchoredLiteral (Regexp.prog Vlan.isNewVlanLine) EmptyString = true)
    by (rewrite Hp; reflexivity).
  destruct line as [|c t].
  - cbn [Regexp.findFrom]. rewrite Hp. cbn. discriminate.
  - cbn [Regexp.findFrom]. rewrite (findFrom_anchored _ _ t 0 Ha).
    rewrite Hp. cbn [Regexp.run Nat.eqb].
    unfold Regexp.inClass. cbn [xorb andb orb Regexp.inRanges existsb fst snd].
    unfold startsWithDigit, isDigit. cbv zeta.
    destruct ((48 <=? Strings.byteOf c)%N && (Strings.byteOf c <=? 57)%N);
      [reflexivity|]. cbn. discriminate.
Qed.

Lemma Fields_head_digit (line : string) :
  startsWithDigit line = true ->
  exists tok rest,
    Strings.Fields line = tok :: rest /\ startsWithDigit tok = true.
Proof.
  destruct line as [|c t]; [discriminate|]. cbn [startsWithDigit]. intros Hc.
  unfold Strings.Fields. cbn [Strings.fieldsFrom].
  rewrite (spaceWidth_digit c t Hc). rewrite append_nil.
  destruct (fieldsFrom_head t (String c EmptyString)) as (tok & rest & E & Hp);
    [done|].
  exists tok, rest. split; [exact E|].
  destruct tok as [|a tok']; [discriminate|]. cbn [Strings.HasPrefix] in Hp.
  apply andb_true_iff in Hp as [Hp _]. apply Ascii.eqb_eq in Hp. subst a.
  exact Hc.
Qed.

Lemma vlanLine_shape (vlans : list Vlan.VlanInfo) (raw : string) :
  (forall v, In v vlans -> vlanShape v) ->
  forall v, In v (vlanLine vlans raw) -> vlanShape v.
Proof.
  intros Hall. unfold vlanLine.
  set (line := Strings.TrimRight raw _).
  destruct (isEmpty line); [exact Hall|].
  destruct (Regexp.MatchString Vlan.isNewVlanLine line) eqn:Em.
  - destruct (length (Strings.Fields line) <? 3)%nat eqn:El; [exact Hall|].
    apply Nat.ltb_ge in El. intros v Hv.
    apply in_app_or in Hv as [Hv|[<-|[]]]; [by apply Hall|].
    destruct (Fields_head_digit line (isNewVlanLine_digit line Em))
      as (tok & rest & E & Hd).
    destruct (lookup_lt_is_Some_2 (Strings.Fields line) 1%nat) as [b Eb]; [lia|].
    destruct (lookup_lt_is_Some_2 (Strings.Fields line) 2%nat) as [c Ec]; [lia|].
    unfold vlanShape. cbn [Vlan.VLANID Vlan.VLANName Vlan.Status].
    rewrite Eb, Ec. rewrite E. cbn [lookup list_lookup from_option id].
    split; [exact Hd|]. split; eapply Fields_nonempty, lookup_In; eassumption.
  - destruct vlans as [|v0 vs] eqn:Ev; [exact Hall|]. rewrite <- Ev in *.
    intros v Hv. unfold Vlan.appendToLast in Hv.
    apply In_alter in Hv as [Hv|(y & Hy & ->)]; [by apply Hall|].
    exact (Hall y Hy).
Qed.

Lemma vlan_loop_shape (lines : list string) (vlans result : list Vlan.VlanInfo) :
  (forall v, In v vlans -> vlanShape v) ->
  Vlan.loop vlans lines = Some result ->
  forall v, In v result -> vlanShape v.
Proof.
  revert vlans. induction lines as [|raw rest IH]; intros vlans Hall.
  - intros [= <-]. exact Hall.
  - rewrite vlan_loop_cons. destruct (isVlanTypeLine raw).
    + intros [= <-]. exact Hall.
    + apply IH. by apply vlanLine_shape.
Qed.

Lemma In_lookup {A} (l : list A) (x : A) : In x l -> exists i, l !! i = Some x.
Proof.
  induction l as [|a l IH]; intros H; [destruct H|].
  destruct H as [->|H]; [by exists 0%nat|].
  destruct (IH H) as [i Hi]. by exists (S i).
Qed.

(** X10: parseVlanInfo never aborts; it fails exactly when no line of the
    blob begins with "VLAN Name", and then returns no record.  In every
    record it returns the VLANID begins with a digit, VLANName and Status
    are not empty, and no port is the empty string. *)
Theorem parseVlanInfo_records (rawOutput : string) :
  exists vlans err,
    Vlan.parseVlanInfo rawOutput = Some (vlans, err) /\
    (err <> None <->
     forall line, In line (Strings.Split rawOutput newline) ->
                  Strings.HasPrefix line "VLAN Name" = false) /\
    (err <> None ->
     vlans = [] /\ err = Errorf "could not find VLAN header in output") /\
    forall v, In v vlans ->
      startsWithDigit (Vlan.VLANID v) = true /\
      Vlan.VLANName v <> EmptyString /\ Vlan.Status v <> EmptyString /\
      forall p, In p (Vlan.Ports v) -> p <> EmptyString.
Proof.
  unfold Vlan.parseVlanInfo.
  destruct (firstIndex Vlan.isHeader (Strings.Split rawOutput newline))
    as [i|] eqn:E.
  - destruct (vlan_loop_total (drop (i + 2) (Strings.Split rawOutput newline)) [])
      as [vlans Ev].
    rewrite Ev. cbn [mbind option_bind]. eexists _, _. split; [reflexivity|].
    split; [|split; [done|]].
    + split; [done|]. intros H. exfalso.
      apply firstIndex_Some in E as [(x & Hx & Hp) _].
      unfold Vlan.isHeader in Hp. rewrite (H x) in Hp; [discriminate|].
      by apply lookup_In in Hx.
    + intros v Hv. apply In_fmap in Hv as (v0 & -> & Hv0).
      destruct (vlan_loop_shape _ [] vlans (fun _ (H : In _ []) => match H with end)
                  Ev v0 Hv0) as (Hd & Hn & Hs).
      cbn [Vlan.clean Vlan.VLANID Vlan.VLANName Vlan.Status Vlan.Ports].
      split; [exact Hd|]. split; [exact Hn|]. split; [exact Hs|].
      intros p Hp. unfold Vlan.cleanPorts in Hp.
      apply filter_In in Hp as [_ Hp]. intros ->. discriminate.
  - eexists _, _. split; [reflexivity|]. split; [|split; [done|intros ? []]].
    split; [|done]. intros _ line Hl.
    apply In_lookup in Hl as [n Hn]. exact (firstIndex_None _ _ E n line Hn).
Qed.

(** ** CDP neighbors: slice bounds and two-line entries *)

Lemma slice_out_of_bounds (s : string) (lo hi : Z) :
  Strings.len s < hi -> Strings.slice s lo hi = None.
Proof.
  intros H. unfold Strings.slice.
  replace (hi <=? Strings.len s) with false by (symmetry; apply Z.leb_gt; lia).
  by rewrite andb_false_r.
Qed.

Section CdpColumns.

Variable c : Cdp.columns.
Hypothesis ordered : cdpOrdered c.

Lemma cdp_entry_Some (deviceID line : string) :
  Cdp.portIDIndex c <= Strings.len line ->
  exists intf hold cap plat port,
    Strings.slice line (Cdp.localIntfIndex c) (Cdp.holdtmeIndex c) = Some intf /\
    Strings.slice line (Cdp.holdtmeIndex c) (Cdp.capabilityIndex c) = Some hold /\
    Strings.slice line (Cdp.capabilityIndex c) (Cdp.platformIndex c) = Some cap /\
    Strings.slice line (Cdp.platformIndex c) (Cdp.portIDIndex c) = Some plat /\
    Strings.sliceFrom line (Cdp.portIDIndex c) = Some port /\
    Cdp.entry c deviceID line =
      Some {| Cdp.Neighbor := deviceID;
              Cdp.Interface := Strings.TrimSpace intf;
              Cdp.HoldTime := Strings.TrimSpace hold;
              Cdp.Capability := Strings.TrimSpace cap;
              Cdp.Platform := Strings.TrimSpace plat;
              Cdp.NeighborInterface := Strings.TrimSpace port |}.
Proof using ordered.
  intros Hlen. destruct ordered as (H0 & H1 & H2 & H3 & H4).
  destruct (slice_in_bounds line (Cdp.localIntfIndex c) (Cdp.holdtmeIndex c))
    as [intf Ei]; [lia..|].
  destruct (slice_in_bounds line (Cdp.holdtmeIndex c) (Cdp.capabilityIndex c))
    as [hold Eh]; [lia..|].
  destruct (slice_in_bounds line (Cdp.capabilityIndex c) (Cdp.platformIndex c))
    as [cap Ec]; [lia..|].
  destruct (slice_in_bounds line (Cdp.platformIndex c) (Cdp.portIDIndex c))
    as [plat Ep]; [lia..|].
  destruct (slice_in_bounds line (Cdp.portIDIndex c) (Strings.len line))
    as [port Eo]; [lia..|].
  exists intf, hold, cap, plat, port. unfold Cdp.entry, Strings.sliceFrom.
  rewrite Ei, Eh, Ec, Ep, Eo. cbn [mbind option_bind]. auto 10.
Qed.

Lemma cdp_entry_None (deviceID line : string) :
  Strings.len line < Cdp.portIDIndex c -> Cdp.entry c deviceID line = None.
Proof.
  intros Hlen. unfold Cdp.entry.
  rewrite (slice_out_of_bounds line (Cdp.platformIndex c) (Cdp.portIDIndex c) Hlen).
  destruct (Strings.slice line (Cdp.localIntfIndex c) _); [|reflexivity].
  destruct (Strings.slice line (Cdp.holdtmeIndex c) _); [|reflexivity].
  destruct (Strings.slice line (Cdp.capabilityIndex c) _); reflexivity.
Qed.

(** The test for a detail line never slices out of range. *)
Lemma cdp_detail_total (line : string) :
  exists isDetailLine : bool,
    (if Strings.len line >? Cdp.localIntfIndex c then
       deviceIDArea ← Strings.slice line 0 (Cdp.localIntfIndex c);
       if isEmpty (Strings.TrimSpace deviceIDArea) then
         rest ← Strings.sliceFrom line (Cdp.localIntfIndex c);
         Some (negb (isEmpty (Strings.TrimSpace rest)))
       else Some false
     else Some false) = Some isDetailLine.
Proof using ordered.
  destruct ordered as (H0 & _).
  destruct (Strings.len line >? Cdp.localIntfIndex c) eqn:E; [|by eexists].
  rewrite Z.gtb_ltb in E. apply Z.ltb_lt in E.
  destruct (slice_in_bounds line 0 (Cdp.localIntfIndex c)) as [a Ea]; [lia..|].
  destruct (slice_in_bounds line (Cdp.localIntfIndex c) (Strings.len line))
    as [b Eb]; [lia..|].
  unfold Strings.sliceFrom. rewrite Ea, Eb. cbn [mbind option_bind].
  destruct (isEmpty (Strings.TrimSpace a)); by eexists.
Qed.

Lemma cdp_step_safe (st : list Cdp.CdpNeighbor * string) (line : string) :
  Strings.len line < Cdp.platformIndex c \/
  Cdp.portIDIndex c <= Strings.len line ->
  is_Some (Cdp.step c st line).
Proof using ordered.
  intros Hlen. destruct st as [neighbors lastDeviceID]. unfold Cdp.step.
  destruct (Cdp.isSkipped _); [by eexists|].
  destruct (cdp_detail_total line) as [d ->]. cbn [mbind option_bind].
  pose proof ordered as (H0 & H1 & H2 & H3 & H4).
  destruct d.
  - destruct (isEmpty lastDeviceID); [by eexists|].
    destruct Hlen as [Hlen|Hlen].
    + replace (Strings.len line <? Cdp.portIDIndex c) with true
        by (symmetry; apply Z.ltb_lt; lia).
      replace (Strings.len line <? Cdp.platformIndex c) with true
        by (symmetry; apply Z.ltb_lt; lia).
      by eexists.
    + replace (Strings.len line <? Cdp.portIDIndex c) with false
        by (symmetry; apply Z.ltb_ge; lia).
      cbn [andb].
      destruct (cdp_entry_Some lastDeviceID line Hlen)
        as (? & ? & ? & ? & ? & _ & _ & _ & _ & _ & ->).
      by eexists.
  - destruct (Strings.len line >=? Cdp.platformIndex c) eqn:Ep; [|by eexists].
    rewrite Z.geb_leb in Ep. apply Z.leb_le in Ep.
    destruct Hlen as [Hlen|Hlen]; [lia|].
    assert (Hd : is_Some (if Strings.len line >? Cdp.localIntfIndex c
                          then Strings.TrimSpace <$>
                                 Strings.slice line 0 (Cdp.localIntfIndex c)
                          else Some (Strings.TrimSpace line))).
    { destruct (Strings.len line >? Cdp.localIntfIndex c) eqn:E; [|by eexists].
      rewrite Z.gtb_ltb in E. apply Z.ltb_lt in E.
      destruct (slice_in_bounds line 0 (Cdp.localIntfIndex c)) as [a ->]; [lia..|].
      by eexists. }
    destruct Hd as [deviceID ->]. cbn [mbind option_bind].
    destruct (cdp_entry_Some deviceID line Hlen)
      as (? & ? & ? & ? & ? & _ & _ & _ & _ & _ & ->).
    by eexists.
Qed.

Lemma cdp_step_abort (neighbors : list Cdp.CdpNeighbor)
  (lastDeviceID line : string) :
  Cdp.isSkipped (Strings.TrimSpace line) = false ->
  Cdp.platformIndex c <= Strings.len line ->
  Strings.len line < Cdp.portIDIndex c ->
  lastDeviceID <> EmptyString ->
  Cdp.step c (neighbors, lastDeviceID) line = None.
Proof using ordered.
  intros Hskip Hp Hlen Hlast. unfold Cdp.step. rewrite Hskip.
  destruct (cdp_detail_total line) as [d ->]. cbn [mbind option_bind].
  destruct lastDeviceID as [|a t]; [done|]. cbn [isEmpty].
  replace (Strings.len line <? Cdp.platformIndex c) with false
    by (symmetry; apply Z.ltb_ge; lia).
  rewrite andb_false_r.
  replace (Strings.len line >=? Cdp.platformIndex c) with true
    by (symmetry; rewrite Z.geb_leb; apply Z.leb_le; lia).
  destruct d.
  - by rewrite cdp_entry_None.
  - destruct (if Strings.len line >? Cdp.localIntfIndex c then _ else _);
      cbn [mbind option_bind]; [|reflexivity].
    by rewrite cdp_entry_None.
Qed.

End CdpColumns.

(** X11: with the header offsets in the order of the columns, the data
    loop of parseCdpNeighbors slices within bounds on every line that is
    shorter than the Platform offset or at least as long as the Port ID
    offset, so a blob whose data lines are all such is parsed without
    abort and without error.  The check on short detail lines does not
    cover the lengths in between: a line that is not skipped, reaches the
    Platform offset, stops before the Port ID offset and follows a pending
    device ID makes the loop abort on a slice out of range. *)
Theorem parseCdpNeighbors_bounds (rawOutput headerLine : string) (i : nat) :
  let lines := Strings.Split rawOutput newline in
  let c := Cdp.headerColumns headerLine in
  firstIndex Cdp.isHeader lines = Some i ->
  lines !! i = Some headerLine ->
  cdpOrdered c ->
  ((forall line, In line (drop (S i) lines) ->
      Strings.len line < Cdp.platformIndex c \/
      Cdp.portIDIndex c <= Strings.len line) ->
   exists neighbors, Cdp.parseCdpNeighbors rawOutput = Some (neighbors, None)) /\
  (forall neighbors lastDeviceID line,
     Cdp.isSkipped (Strings.TrimSpace line) = false ->
     Cdp.platformIndex c <= Strings.len line ->
     Strings.len line < Cdp.portIDIndex c ->
     lastDeviceID <> EmptyString ->
     Cdp.step c (neighbors, lastDeviceID) line = None).
Proof.
  intros lines c Hi Hh Hord. split.
  - intros Hlines. unfold Cdp.parseCdpNeighbors. fold lines. rewrite Hi, Hh.
    cbn [from_option id]. fold c.
    pose proof Hord as (H0 & H1 & H2 & H3 & H4).
    replace (_ || _) with false.
    2:{ symmetry. repeat (apply orb_false_iff; split); apply Z.eqb_neq; lia. }
    assert (Hfold : forall ls st,
              (forall line, In line ls ->
                 Strings.len line < Cdp.platformIndex c \/
                 Cdp.portIDIndex c <= Strings.len line) ->
              is_Some (foldLines (Cdp.step c) st ls)).
    { induction ls as [|l ls IH]; intros st Hls; [by eexists|].
      cbn [foldLines].
      destruct (cdp_step_safe c Hord st l) as [st' ->]; [apply Hls; by left|].
      cbn [mbind option_bind]. apply IH. intros line Hl. apply Hls. by right. }
    destruct (Hfold (drop (S i) lines) ([], EmptyString) Hlines) as [[ns last] ->].
    cbn [mbind option_bind]. by exists ns.
  - intros neighbors lastDeviceID line. by apply cdp_step_abort.
Qed.

Lemma parseCdpNeighbors_bounds_witness :
  exists neighbors,
    Cdp.parseCdpNeighbors Cdp.case1BlobIntrfce = Some (neighbors, None).
Proof.
  destruct (parseCdpNeighbors_bounds Cdp.case1BlobIntrfce
              "Device ID        Local Intrfce  Hldtme   Capability  Platform  Port ID"
              0%nat) as [H _].
  - vm_compute. reflexivity.
  - vm_compute. reflexivity.
  - vm_compute. repeat split; discriminate.
  - apply H. intros line Hl. vm_compute in Hl.
    destruct Hl as [<-|[<-|[]]]; [right|left]; vm_compute; [discriminate|reflexivity].
Defined.

(** X12: an entry split over two lines is stitched into one record.  With
    the header offsets in the order of the columns, a line that is not
    skipped, is shorter than the Platform offset and does not pass for a
    detail line is kept as the pending device ID; the detail line after it
    (blank up to the Local Intrfce offset, not blank from there on, at
    least as long as the Port ID offset) then gives one record whose
    Neighbor is the trimmed first line and whose other fields are cut out
    of the second line at the header offsets, and clears the pending
    device ID. *)
Theorem cdp_two_line_entry (c : Cdp.columns) (neighbors : list Cdp.CdpNeighbor)
  (lastDeviceID deviceLine detailLine area rest : string) :
  cdpOrdered c ->
  Cdp.isSkipped (Strings.TrimSpace deviceLine) = false ->
  Strings.len deviceLine < Cdp.platformIndex c ->
  (Strings.len deviceLine <= Cdp.localIntfIndex c \/
   exists a, Strings.slice deviceLine 0 (Cdp.localIntfIndex c) = Some a /\
             Strings.TrimSpace a <> EmptyString) ->
  Cdp.isSkipped (Strings.TrimSpace detailLine) = false ->
  Cdp.portIDIndex c <= Strings.len detailLine ->
  Cdp.localIntfIndex c < Strings.len detailLine ->
  Strings.slice detailLine 0 (Cdp.localIntfIndex c) = Some area ->
  Strings.TrimSpace area = EmptyString ->
  Strings.sliceFrom detailLine (Cdp.localIntfIndex c) = Some rest ->
  Strings.TrimSpace rest <> EmptyString ->
  exists intf hold cap plat port,
    Strings.slice detailLine (Cdp.localIntfIndex c) (Cdp.holdtmeIndex c) = Some intf /\
    Strings.slice detailLine (Cdp.holdtmeIndex c) (Cdp.capabilityIndex c) = Some hold /\
    Strings.slice detailLine (Cdp.capabilityIndex c) (Cdp.platformIndex c) = Some cap /\
    Strings.slice detailLine (Cdp.platformIndex c) (Cdp.portIDIndex c) = Some plat /\
    Strings.sliceFrom detailLine (Cdp.portIDIndex c) = Some port /\
    foldLines (Cdp.step c) (neighbors, lastDeviceID) [deviceLine; detailLine] =
      Some (neighbors ++
            [ {| Cdp.Neighbor := Strings.TrimSpace deviceLine;
                 Cdp.Interface := Strings.TrimSpace intf;
                 Cdp.HoldTime := Strings.TrimSpace hold;
                 Cdp.Capability := Strings.TrimSpace cap;
                 Cdp.Platform := Strings.TrimSpace plat;
                 Cdp.NeighborInterface := Strings.TrimSpace port |} ],
            EmptyString).
Proof.
  intros Hord Hs1 Hl1 Hnd Hs2 Hl2 Hloc Harea Hblank Hrest Hnb.
  destruct (cdp_entry_Some c Hord (Strings.TrimSpace deviceLine) detailLine Hl2)
    as (intf & hold & cap & plat & port & Ei & Eh & Ec & Ep & Eo & Ee).
  exists intf, hold, cap, plat, port. repeat (split; [assumption|]).
  assert (H1 : Cdp.step c (neighbors, lastDeviceID) deviceLine
               = Some (neighbors, Strings.TrimSpace deviceLine)).
  { unfold Cdp.step. rewrite Hs1.
    replace (Strings.len deviceLine >=? Cdp.platformIndex c) with false
      by (symmetry; rewrite Z.geb_leb; apply Z.leb_gt; lia).
    destruct (Strings.len deviceLine >? Cdp.localIntfIndex c) eqn:E.
    - rewrite Z.gtb_ltb in E. apply Z.ltb_lt in E.
      destruct Hnd as [Hnd|(a & Ea & Hne)]; [lia|].
      rewrite Ea. cbn [mbind option_bind].
      destruct (Strings.TrimSpace a); [done|]. reflexivity.
    - reflexivity. }
  assert (H2 : Cdp.step c (neighbors, Strings.TrimSpace deviceLine) detailLine
               = Some (neighbors ++
                       [ {| Cdp.Neighbor := Strings.TrimSpace deviceLine;
                            Cdp.Interface := Strings.TrimSpace intf;
                            Cdp.HoldTime := Strings.TrimSpace hold;
                            Cdp.Capability := Strings.TrimSpace cap;
                            Cdp.Platform := Strings.TrimSpace plat;
                            Cdp.NeighborInterface := Strings.TrimSpace port |} ],
                       EmptyString)).
  { unfold Cdp.step. rewrite Hs2.
    replace (Strings.len detailLine >? Cdp.localIntfIndex c) with true
      by (symmetry; rewrite Z.gtb_ltb; apply Z.ltb_lt; lia).
    rewrite Harea. cbn [mbind option_bind]. rewrite Hblank. cbn [isEmpty].
    rewrite Hrest. cbn [mbind option_bind].
    destruct (Strings.TrimSpace rest) eqn:Er; [done|]. cbn [isEmpty negb].
    assert (Hd : isEmpty (Strings.TrimSpace deviceLine) = false).
    { unfold Cdp.isSkipped in Hs1. by apply orb_false_iff in Hs1 as [Hs1 _];
        apply orb_false_iff in Hs1 as [Hs1 _]; apply orb_false_iff in Hs1 as [Hs1 _]. }
    rewrite Hd.
    replace (Strings.len detailLine <? Cdp.portIDIndex c) with false
      by (symmetry; apply Z.ltb_ge; lia).
    cbn [andb]. rewrite Ee. reflexivity. }
  cbn [foldLines]. rewrite H1. cbn [mbind option_bind]. rewrite H2. reflexivity.
Qed.

Lemma cdp_two_line_entry_witness :
  let header :=
    "Device ID        Local Intrfce     Holdtme    Capability  Platform  Port ID" in
  let deviceLine := "switch-core-with-a-long-name.example.com" in
  let detailLine :=
    "                 Gig 1/0/1         120        R S I       WS-C3850  Gig 1/0/24" in
  exists intf hold cap plat port,
    Strings.slice detailLine 17 35 = Some intf /\
    Strings.slice detailLine 35 46 = Some hold /\
    Strings.slice detailLine 46 58 = Some cap /\
    Strings.slice detailLine 58 68 = Some plat /\
    Strings.sliceFrom detailLine 68 = Some port /\
    foldLines (Cdp.step (Cdp.headerColumns header)) ([], EmptyString)
      [deviceLine; detailLine] =
      Some ([] ++
            [ {| Cdp.Neighbor := Strings.TrimSpace deviceLine;
                 Cdp.Interface := Strings.TrimSpace intf;
                 Cdp.HoldTime := Strings.TrimSpace hold;
                 Cdp.Capability := Strings.TrimSpace cap;
                 Cdp.Platform := Strings.TrimSpace plat;
                 Cdp.NeighborInterface := Strings.TrimSpace port |} ],
            EmptyString).
Proof.
  intros header deviceLine detailLine.
  apply (cdp_two_line_entry (Cdp.headerColumns header) [] EmptyString
           deviceLine detailLine "                 "
           "Gig 1/0/1         120        R S I       WS-C3850  Gig 1/0/24").
  - vm_compute. repeat split; discriminate.
  - vm_compute. reflexivity.
  - vm_compute. reflexivity.
  - right. exists "switch-core-with-". split; [vm_compute; reflexivity|].
    vm_compute. discriminate.
  - vm_compute. reflexivity.
  - vm_compute. discriminate.
  - vm_compute. reflexivity.
  - vm_compute. reflexivity.
  - vm_compute. reflexivity.
  - vm_compute. reflexivity.
  - vm_compute. discriminate.
Defined.

(** ** Inline power: the records and the wrapper *)

Lemma rows_In (want : Power.section) (shape : list string -> bool)
  (lines : list string) (sec : Power.section) (row : list string) :
  In row (rows want shape sec lines) ->
  shape row = true /\ exists line, row = Strings.Fields line.
Proof.
  revert sec. induction lines as [|l ls IH]; intros sec H; [destruct H|].
  cbn [rows] in H. apply in_app_or in H as [H|H]; [|by apply (IH _ H)].
  unfold rowAt in H.
  destruct (negb (isBlank l) && negb (isSectionHeader l) && sectionEq sec want)
    ; cbn [andb] in H; [|destruct H].
  destruct (shape (Strings.Fields l)) eqn:E; [|destruct H].
  destruct H as [<-|[]]. split; [exact E|by exists l].
Qed.

Lemma entries_In {A B} (f : A -> option B) (l : list A) (out : list B) (y : B) :
  Some <$> out = f <$> l -> In y out -> exists x, In x l /\ f x = Some y.
Proof.
  revert l. induction out as [|b out IH]; intros [|a l] H Hy;
    try destruct Hy; try discriminate.
  - subst b. cbn [fmap list_fmap] in H. injection H as H _.
    exists a. split; [by left|done].
  - cbn [fmap list_fmap] in H. injection H as _ H.
    destruct (IH l H H0) as (x & Hx & Hf). exists x. split; [by right|done].
Qed.

Lemma parsePowerInline_rows (rawOutput : string) :
  exists ms ifs,
    Power.parsePowerInline rawOutput = Some (Power.outcome ms ifs) /\
    Some <$> ms = Power.moduleEntry <$>
      moduleRows (Strings.Split rawOutput newline) /\
    Some <$> ifs = Power.interfaceEntry <$>
      interfaceRows (Strings.Split rawOutput newline).
Proof.
  destruct (scan_rows (Strings.Split rawOutput newline) Power.initial)
    as (sec & ms & ifs & E & Hm & Hi).
  exists ms, ifs. unfold Power.parsePowerInline, Power.scan. rewrite E.
  cbn [mbind option_bind Power.initial Power.modules Power.interfaces app].
  auto.
Qed.

Lemma outcome_lists (ms : list Power.PowerModuleInfo)
  (ifs : list Power.PowerInterfaceInfo) :
  fst (fst (Power.outcome ms ifs)) = ms /\ snd (fst (Power.outcome ms ifs)) = ifs.
Proof. destruct ms, ifs; split; reflexivity. Qed.

(** X13: in every module record parsePowerInline returns, the four fields
    are not empty and Module is not dash-led; in every interface record
    the Interface holds a "/" and Admin, Oper, Power, Class and Max are
    not empty. *)
Theorem parsePowerInline_records (rawOutput : string)
  (modules : list Power.PowerModuleInfo)
  (interfaces : list Power.PowerInterfaceInfo) (err : error) :
  Power.parsePowerInline rawOutput = Some (modules, interfaces, err) ->
  (forall m, In m modules ->
     Strings.HasPrefix (Power.Module_ m) "---" = false /\
     Power.Module_ m <> EmptyString /\ Power.Available m <> EmptyString /\
     Power.Used m <> EmptyString /\ Power.Remaining m <> EmptyString) /\
  (forall i, In i interfaces ->
     Strings.Contains (Power.Interface i) "/" = true /\
     Power.Admin i <> EmptyString /\ Power.Oper i <> EmptyString /\
     Power.Power i <> EmptyString /\ Power.Class i <> EmptyString /\
     Power.Max i <> EmptyString).
Proof.
  intros H. destruct (parsePowerInline_rows rawOutput) as (ms & ifs & E & Hm & Hi).
  rewrite E in H. injection H as H.
  destruct (outcome_lists ms ifs) as [Hms Hifs]. rewrite H in Hms, Hifs.
  cbn [fst snd] in Hms, Hifs. subst ms ifs. split.
  - intros m Hin. destruct (entries_In _ _ _ m Hm Hin) as (row & Hrow & Hentry).
    apply rows_In in Hrow as [Hshape [line ->]].
    unfold Power.moduleShape in Hshape. apply andb_true_iff in Hshape as [_ Hdash].
    apply negb_true_iff in Hdash.
    unfold Power.moduleEntry in Hentry.
    destruct (Strings.Fields line !! 0%nat) as [a|] eqn:Ea; [|discriminate].
    destruct (Strings.Fields line !! 1%nat) as [b|] eqn:Eb; [|discriminate].
    destruct (Strings.Fields line !! 2%nat) as [c|] eqn:Ec; [|discriminate].
    destruct (Strings.Fields line !! 3%nat) as [d|] eqn:Ed; [|discriminate].
    cbn [mbind option_bind from_option id] in *. injection Hentry as <-.
    cbn [Power.Module_ Power.Available Power.Used Power.Remaining].
    split; [exact Hdash|].
    repeat split; eapply Fields_nonempty, lookup_In; eassumption.
  - intros i Hin. destruct (entries_In _ _ _ i Hi Hin) as (row & Hrow & Hentry).
    apply rows_In in Hrow as [Hshape [line ->]].
    unfold Power.interfaceShape in Hshape. apply andb_true_iff in Hshape as [_ Hslash].
    unfold Power.interfaceEntry in Hentry.
    destruct (Strings.Fields line !! 0%nat) as [a|] eqn:Ea; [|discriminate].
    destruct (Strings.Fields line !! 1%nat) as [b|] eqn:Eb; [|discriminate].
    destruct (Strings.Fields line !! 2%nat) as [c|] eqn:Ec; [|discriminate].
    destruct (Strings.Fields line !! 3%nat) as [d|] eqn:Ed; [|discriminate].
    cbn [mbind option_bind from_option id] in *.
    destruct (subslice _ _ _) as [dev|];
      cbn [mbind option_bind] in Hentry; [|discriminate].
    destruct (Strings.Fields line !! (length (Strings.Fields line) - 2)%nat)
      as [e|] eqn:Ee; cbn [mbind option_bind] in Hentry; [|discriminate].
    destruct (Strings.Fields line !! (length (Strings.Fields line) - 1)%nat)
      as [f|] eqn:Ef; cbn [mbind option_bind] in Hentry; [|discriminate].
    injection Hentry as <-.
    cbn [Power.Interface Power.Admin Power.Oper Power.Power Power.Class Power.Max].
    split; [exact Hslash|].
    repeat split; eapply Fields_nonempty, lookup_In; eassumption.
Qed.

Lemma parsePowerInline_records_witness :
  Strings.Contains "Gi1/0/1" "/" = true /\
  "auto" <> EmptyString /\ "on" <> EmptyString /\ "15.4" <> EmptyString /\
  "3" <> EmptyString /\ "30.0" <> EmptyString.
Proof.
  destruct (parsePowerInline_records wattsBlob []
              [ {| Power.Interface := "Gi1/0/1"; Power.Admin := "auto";
                   Power.Oper := "on"; Power.Power := "15.4";
                   Power.Device := "Cisco IP Phone 7962";
                   Power.Class := "3"; Power.Max := "30.0" |} ] None
              ltac:(vm_compute; reflexivity)) as [_ H].
  exact (H _ ltac:(left; reflexivity)).
Defined.

(** ** The wrappers and the errors they return *)

(** X14: the wrappers that log a parse failure and go on never report
    it: Show_power_inline never aborts and returns exactly the error of
    the transport, and whatever Show_cdp_neighbors and Show_lldp_neighbors
    return carries exactly the error of the transport.  Show_version
    passes the error of the transport through and, when the transport
    succeeds, returns the parsed map or the parser's failure wrapped in a
    message that names the host. *)
Theorem wrappers_errors (RunCommand : Transport) (host : string) :
  (exists modules interfaces,
     Show_power_inline RunCommand host
       = Some (modules, interfaces, snd (RunCommand host "show power inline"))) /\
  (forall records err,
     Cdp.Show_cdp_neighbors RunCommand host = Some (records, err) ->
     err = snd (RunCommand host "show cdp neighbors")) /\
  (forall records err,
     Lldp.Show_lldp_neighbors RunCommand host = Some (records, err) ->
     err = snd (RunCommand host "show lldp neighbors")) /\
  Show_version RunCommand host =
    match RunCommand host "show version" with
    | (_, Some e) => (None, Some e)
    | (out, None) =>
        match fst (Version.parseVersionInfo out) with
        | Some m => (Some m, None)
        | None =>
            (None,
             Errorf ("error parsing 'show version' output for " +:+ host +:+
                     ": could not parse essential version info from output"))
        end
    end.
Proof.
  split; [|split; [|split]].
  - unfold Show_power_inline.
    destruct (RunCommand host _) as [out [e|]]; [by eexists _, _|].
    destruct (parsePowerInline_rows out) as (ms & ifs & -> & _).
    cbn [mbind option_bind snd].
    destruct ms, ifs; cbn [Power.outcome]; by eexists _, _.
  - unfold Cdp.Show_cdp_neighbors. intros records err.
    destruct (RunCommand host _) as [out [e|]]; [by intros [= _ <-]|].
    destruct (Cdp.parseCdpNeighbors out) as [[recs perr]|];
      cbn [mbind option_bind snd]; [|discriminate].
    destruct (Cdp.normalize <$> recs); by intros [= _ <-].
  - unfold Lldp.Show_lldp_neighbors. intros records err.
    destruct (RunCommand host _) as [out [e|]]; [by intros [= _ <-]|].
    destruct (Lldp.parseLldpNeighbors out) as [[recs perr]|];
      cbn [mbind option_bind snd]; [|discriminate].
    destruct (Lldp.normalize <$> recs); by intros [= _ <-].
  - unfold Show_version.
    destruct (RunCommand host _) as [out [e|]]; [reflexivity|].
    unfold Version.parseVersionInfo. destruct (_ || _); reflexivity.
Qed.

(** ** The header labels of the neighbor tables *)

Lemma indexFrom_absent (s substr : string) (i : Z) :
  Strings.Contains s substr = false -> Strings.indexFrom i s substr = -1.
Proof.
  revert i. induction s as [|c t IH]; intros i H.
  - cbn [Strings.Contains Strings.indexFrom] in *.
    apply orb_false_iff in H as [-> _]. reflexivity.
  - rewrite Contains_cons in H. apply orb_false_iff in H as [Hp Ht].
    cbn [Strings.indexFrom]. rewrite Hp. by apply IH.
Qed.

Lemma indexFrom_present (s substr : string) (i : Z) :
  Strings.Contains s substr = true ->
  i <= Strings.indexFrom i s substr <= i + Strings.len s.
Proof.
  revert i. induction s as [|c t IH]; intros i H.
  - cbn [Strings.Contains Strings.indexFrom] in *. rewrite orb_false_r in H.
    rewrite H. unfold Strings.len. cbn. lia.
  - rewrite Contains_cons in H. cbn [Strings.indexFrom].
    destruct (Strings.HasPrefix (String c t) substr).
    + unfold Strings.len. lia.
    + cbn [orb] in H. specialize (IH (i + 1) H).
      unfold Strings.len in *. cbn [String.length]. lia.
Qed.

(** [strings.Index] returns -1 exactly when the text does not contain the
    label. *)
Lemma Index_absent (s substr : string) :
  (Strings.Index s substr =? -1) = negb (Strings.Contains s substr).
Proof.
  unfold Strings.Index. destruct (Strings.Contains s substr) eqn:E.
  - pose proof (indexFrom_present s substr 0 E). cbn [negb].
    apply Z.eqb_neq. lia.
  - by rewrite indexFrom_absent.
Qed.

Lemma Index_prefix (s substr : string) :
  Strings.HasPrefix s substr = true -> Strings.Index s substr = 0.
Proof.
  unfold Strings.Index. intros H. destruct s; cbn [Strings.indexFrom]; by rewrite H.
Qed.

(** X15: parseLldpNeighbors returns no record and no error when no line
    begins with "Device ID".  Otherwise the first such line is the header:
    the Device ID column starts at offset 0, the parse fails with "could
    not parse LLDP neighbors header columns" when one of the labels
    "Local Intf", "Hold-time", "Capability", "Port ID" does not occur in
    that line, and returns no error when all four occur. *)
Theorem parseLldpNeighbors_header (rawOutput : string) :
  let lines := Strings.Split rawOutput newline in
  (firstIndex Lldp.isHeader lines = None ->
   Lldp.parseLldpNeighbors rawOutput = Some ([], None)) /\
  (forall i headerLine,
     firstIndex Lldp.isHeader lines = Some i -> lines !! i = Some headerLine ->
     let present :=
       Strings.Contains headerLine "Local Intf" &&
       Strings.Contains headerLine "Hold-time" &&
       Strings.Contains headerLine "Capability" &&
       Strings.Contains headerLine "Port ID" in
     Lldp.deviceIDIndex (Lldp.headerColumns headerLine) = 0 /\
     (present = false ->
      Lldp.parseLldpNeighbors rawOutput =
        Some ([], Errorf "could not parse LLDP neighbors header columns")) /\
     (present = true ->
      forall records err,
        Lldp.parseLldpNeighbors rawOutput = Some (records, err) -> err = None)).
Proof.
  intros lines. split.
  - intros E. unfold Lldp.parseLldpNeighbors. fold lines. by rewrite E.
  - intros i h E Hh present.
    assert (H0 : Lldp.deviceIDIndex (Lldp.headerColumns h) = 0).
    { apply firstIndex_Some in E as [(x & Hx & Hp) _].
      rewrite Hh in Hx. injection Hx as <-. by apply Index_prefix. }
    split; [exact H0|].
    unfold Lldp.parseLldpNeighbors. fold lines. rewrite E, Hh.
    cbn [from_option id]. rewrite H0.
    cbn [Lldp.headerColumns Lldp.localIntfIndex Lldp.holdtmeIndex
         Lldp.capabilityIndex Lldp.portIDIndex].
    rewrite !Index_absent. change (0 =? -1) with false. cbn [orb].
    subst present. split.
    + intros Hp.
      destruct (Strings.Contains h "Local Intf"); [|reflexivity].
      destruct (Strings.Contains h "Hold-time"); [|reflexivity].
      destruct (Strings.Contains h "Capability"); [|reflexivity].
      destruct (Strings.Contains h "Port ID"); [discriminate|reflexivity].
    + intros Hp.
      apply andb_true_iff in Hp as [Hp ->]. apply andb_true_iff in Hp as [Hp ->].
      apply andb_true_iff in Hp as [-> ->]. cbn [negb orb].
      intros records err H.
      destruct (foldLines _ _ _); cbn [mbind option_bind] in H; [|discriminate].
      by injection H as _ <-.
Qed.

(** X16: parseCdpNeighbors returns no record and no error when no line
    holds both "Device" and "Port ID".  Otherwise the first such line is
    the header: the parse fails with the header-columns error when
    "Local Intrfce", "Capability" or "Platform" does not occur in that
    line or neither "Hldtme" nor "Holdtme" does, and returns no error
    when they all occur. *)
Theorem parseCdpNeighbors_header (rawOutput : string) :
  let lines := Strings.Split rawOutput newline in
  (firstIndex Cdp.isHeader lines = None ->
   Cdp.parseCdpNeighbors rawOutput = Some ([], None)) /\
  (forall i headerLine,
     firstIndex Cdp.isHeader lines = Some i -> lines !! i = Some headerLine ->
     let present :=
       Strings.Contains headerLine "Local Intrfce" &&
       (Strings.Contains headerLine "Hldtme" ||
        Strings.Contains headerLine "Holdtme") &&
       Strings.Contains headerLine "Capability" &&
       Strings.Contains headerLine "Platform" in
     (present = false ->
      Cdp.parseCdpNeighbors rawOutput =
        Some ([], Errorf "could not parse CDP neighbors header columns correctly (check alignment)")) /\
     (present = true ->
      forall records err,
        Cdp.parseCdpNeighbors rawOutput = Some (records, err) -> err = None)).
Proof.
  intros lines. split.
  - intros E. unfold Cdp.parseCdpNeighbors. fold lines. by rewrite E.
  - intros i h E Hh present.
    assert (Hport : Strings.Contains h "Port ID" = true).
    { apply firstIndex_Some in E as [(x & Hx & Hp) _].
      rewrite Hh in Hx. injection Hx as <-. unfold Cdp.isHeader in Hp.
      by apply andb_true_iff in Hp as [_ Hp]. }
    unfold Cdp.parseCdpNeighbors. fold lines. rewrite E, Hh.
    cbn [from_option id].
    cbn [Cdp.headerColumns Cdp.localIntfIndex Cdp.holdtmeIndex
         Cdp.capabilityIndex Cdp.platformIndex Cdp.portIDIndex].
    assert (Hhold :
      ((if Strings.Index h "Hldtme" =? -1 then Strings.Index h "Holdtme"
        else Strings.Index h "Hldtme") =? -1)
      = negb (Strings.Contains h "Hldtme" || Strings.Contains h "Holdtme")).
    { destruct (Strings.Index h "Hldtme" =? -1) eqn:E2.
      - rewrite Index_absent in E2. apply negb_true_iff in E2.
        rewrite E2. cbn [orb]. apply Index_absent.
      - rewrite E2. rewrite Index_absent in E2. apply negb_false_iff in E2.
        by rewrite E2. }
    rewrite Hhold, !Index_absent, Hport. cbn [negb]. rewrite orb_false_r.
    subst present. split.
    + intros Hp.
      destruct (Strings.Contains h "Local Intrfce"); [|reflexivity].
      destruct (Strings.Contains h "Hldtme" || Strings.Contains h "Holdtme");
        [|reflexivity].
      destruct (Strings.Contains h "Capability"); [|reflexivity].
      destruct (Strings.Contains h "Platform"); [discriminate|reflexivity].
    + intros Hp.
      apply andb_true_iff in Hp as [Hp ->]. apply andb_true_iff in Hp as [Hp ->].
      apply andb_true_iff in Hp as [-> ->]. cbn [negb orb].
      intros records err H.
      destruct (foldLines _ _ _) as [[ns last]|];
        cbn [mbind option_bind] in H; [|discriminate].
      by injection H as _ <-.
Qed.

(** ** Running configuration: the lines of a block *)

Lemma config_step_eq (configs : list Config.InterfaceConfig)
  (cur : option Config.InterfaceConfig) (raw : string) :
  Config.step (configs, cur) raw =
  Some (if isConfigStart raw
        then (configs ++ openBlock cur,
              Some {| Config.Interface := startName raw;
                      Config.ConfigLines := [Strings.TrimSpace raw] |})
        else (configs,
              match cur with
              | Some c => Some {| Config.Interface := Config.Interface c;
                                  Config.ConfigLines :=
                                    Config.ConfigLines c ++ bodyLines [raw] |}
              | None => None
              end)).
Proof.
  destruct (isConfigStart raw) eqn:E.
  - rewrite (config_step_start _ _ _ E).
    destruct cur; cbn [openBlock]; by rewrite ?app_nil_r.
  - destruct cur as [c|]; [exact (config_step_body _ _ _ E)|].
    unfold Config.step. destruct (Config.isSkipped _); [reflexivity|].
    unfold isConfigStart in E. by rewrite E.
Qed.

Lemma configStart_prefix (raw : string) :
  isConfigStart raw = true ->
  Strings.HasPrefix (Strings.TrimSpace raw) "interface" = true.
Proof.
  unfold isConfigStart. intros H. apply Nat.ltb_lt in H.
  apply (anchored_match_prefix Config.interfaceStartRegex).
  - exact interfaceStartRegex_anchored.
  - intros E. rewrite E in H. cbn in H. lia.
Qed.

Lemma config_step_shape (configs configs' : list Config.InterfaceConfig)
  (cur cur' : option Config.InterfaceConfig) (raw : string) :
  (forall c, In c (configs ++ openBlock cur) -> configShape c) ->
  Config.step (configs, cur) raw = Some (configs', cur') ->
  forall c, In c (configs' ++ openBlock cur') -> configShape c.
Proof.
  intros Hall. rewrite config_step_eq. destruct (isConfigStart raw) eqn:E.
  - intros [= <- <-] c Hc. cbn [openBlock] in Hc.
    apply in_app_or in Hc as [Hc|[<-|[]]]; [by apply Hall|].
    split; cbn [Config.ConfigLines].
    + eexists _, _. split; [reflexivity|]. by apply configStart_prefix.
    + intros l [<-|[]]. by apply configStart_not_skipped.
  - intros [= <- <-] c Hc. destruct cur as [c0|]; [|by apply Hall].
    cbn [openBlock] in *.
    apply in_app_or in Hc as [Hc|[<-|[]]];
      [apply Hall, in_or_app; by left|].
    destruct (Hall c0) as [(first & rest & Ef & Hp) Hns];
      [apply in_or_app; right; by left|].
    split; cbn [Config.ConfigLines].
    + rewrite Ef. eexists _, _. split; [reflexivity|exact Hp].
    + intros l Hl. apply in_app_or in Hl as [Hl|Hl]; [by apply Hns|].
      unfold bodyLines in Hl. apply filter_In in Hl as [_ Hl].
      by apply negb_true_iff in Hl.
Qed.

Lemma config_fold_shape (lines : list string)
  (configs configs' : list Config.InterfaceConfig)
  (cur cur' : option Config.InterfaceConfig) :
  (forall c, In c (configs ++ openBlock cur) -> configShape c) ->
  foldLines Config.step (configs, cur) lines = Some (configs', cur') ->
  forall c, In c (configs' ++ openBlock cur') -> configShape c.
Proof.
  revert configs cur. induction lines as [|raw lines IH]; intros configs cur Hall.
  - by intros [= <- <-].
  - cbn [foldLines].
    destruct (Config.step (configs, cur) raw) as [[c1 k1]|] eqn:E;
      cbn [mbind option_bind]; [|discriminate].
    apply IH. exact (config_step_shape _ _ _ _ _ Hall E).
Qed.

(** X17: in every record parseInterfaceConfig returns, ConfigLines begins
    with a line that starts with "interface" (the trimmed start line),
    and none of its lines is empty or begins with "!", "version" or
    "hostname". *)
Theorem parseInterfaceConfig_lines (rawOutput : string)
  (configs : list Config.InterfaceConfig) (err : error)
  (c : Config.InterfaceConfig) :
  Config.parseInterfaceConfig rawOutput = Some (configs, err) -> In c configs ->
  (exists first rest,
     Config.ConfigLines c = first :: rest /\
     Strings.HasPrefix first "interface" = true) /\
  forall l, In l (Config.ConfigLines c) ->
    l <> EmptyString /\ Strings.HasPrefix l "!" = false /\
    Strings.HasPrefix l "version" = false /\
    Strings.HasPrefix l "hostname" = false.
Proof.
  unfold Config.parseInterfaceConfig. intros H Hc.
  destruct (foldLines Config.step ([], None) (Strings.Split rawOutput newline))
    as [[cs cur]|] eqn:E; cbn [mbind option_bind] in H; [|discriminate].
  assert (Hall : match cur with Some c => cs ++ [c] | None => cs end
                 = cs ++ openBlock cur)
    by (destruct cur; cbn [openBlock]; by rewrite ?app_nil_r).
  rewrite Hall in H.
  assert (Hin : In c (cs ++ openBlock cur)).
  { destruct (cs ++ openBlock cur); injection H as <- _; [destruct Hc|exact Hc]. }
  destruct (config_fold_shape _ [] cs None cur
              (fun _ (H : In _ ([] ++ [])) => match H with end) E c Hin)
    as [Hfirst Hlines].
  split; [exact Hfirst|]. intros l Hl. specialize (Hlines l Hl).
  unfold Config.isSkipped in Hlines.
  apply orb_false_iff in Hlines as [Hlines H4].
  apply orb_false_iff in Hlines as [Hlines H3].
  apply orb_false_iff in Hlines as [H1 H2].
  split; [by destruct l|]. auto.
Qed.

Lemma parseInterfaceConfig_lines_witness :
  let c := {| Config.Interface := "Vlan1";
              Config.ConfigLines := ["interface Vlan1"; "shutdown"] |} in
  (exists first rest,
     Config.ConfigLines c = first :: rest /\
     Strings.HasPrefix first "interface" = true) /\
  forall l, In l (Config.ConfigLines c) ->
    l <> EmptyString /\ Strings.HasPrefix l "!" = false /\
    Strings.HasPrefix l "version" = false /\
    Strings.HasPrefix l "hostname" = false.
Proof.
  intros c.
  apply (parseInterfaceConfig_lines
           ("interface Vlan1" +:+ String newline
            ("!" +:+ String newline " shutdown")) [c] None c).
  - vm_compute. reflexivity.
  - left. reflexivity.
Defined.

(** ** The normalizer never lengthens a name *)

Lemma length_append (a b : string) :
  String.length (a +:+ b) = (String.length a + String.length b)%nat.
Proof.
  induction a as [|c a IH]; [reflexivity|].
  rewrite append_cons. cbn [String.length]. by rewrite IH.
Qed.

Lemma HasPrefix_length (s p : string) :
  Strings.HasPrefix s p = true -> (String.length p <= String.length s)%nat.
Proof.
  revert s. induction p as [|a p IH]; intros s H; [cbn; lia|].
  destruct s as [|b s]; [discriminate|]. cbn [Strings.HasPrefix] in H.
  apply andb_true_iff in H as [_ H]. specialize (IH s H). cbn [String.length]. lia.
Qed.

Lemma replaceAll_space_length (s : string) :
  (String.length (Strings.ReplaceAll s " " EmptyString) <= String.length s)%nat.
Proof.
  unfold Strings.ReplaceAll. induction s as [|c t IH]; [reflexivity|].
  rewrite replaceAll_space_cons. destruct (Ascii.eqb " " c); cbn [String.length]; lia.
Qed.

Lemma replaceFrom_length (r : Strings.Replacer) :
  (forall p, In p (Strings.oldnew r) ->
     (String.length (snd p) <= String.length (fst p))%nat /\
     (1 <= String.length (fst p))%nat) ->
  forall s skip,
    (String.length (Strings.replaceFrom r skip s) + Nat.min skip (String.length s)
     <= String.length s)%nat.
Proof.
  intros Hshort. induction s as [|c t IH]; intros skip.
  - cbn. lia.
  - cbn [Strings.replaceFrom String.length]. destruct skip as [|k].
    + destruct (Strings.lookup r (String c t)) as [[old new]|] eqn:E.
      * unfold Strings.lookup in E. apply find_some in E as [Hin Hp].
        cbn [fst] in Hp. apply HasPrefix_length in Hp. cbn [String.length] in Hp.
        destruct (Hshort _ Hin) as [Hn Ho]. cbn [fst snd] in Hn, Ho.
        rewrite length_append. specialize (IH (String.length old - 1)%nat). lia.
      * specialize (IH 0%nat). cbn [String.length]. lia.
    + specialize (IH k). lia.
Qed.

Lemma aliases_shorten :
  forallb (fun p => (String.length (snd p) <=? String.length (fst p))%nat &&
                    (1 <=? String.length (fst p))%nat) aliasTable = true.
Proof. vm_compute. reflexivity. Qed.

(** X18: normalizeInterfaceName never lengthens a name. *)
Theorem normalize_never_longer (name : string) :
  (String.length (normalizeInterfaceName name) <= String.length name)%nat.
Proof.
  unfold normalizeInterfaceName, Strings.Replace.
  pose proof (replaceAll_space_length name) as H1.
  pose proof (replaceFrom_length (Strings.NewReplacer aliasTable)) as H2.
  specialize (H2 (fun p Hp =>
    let H := proj1 (forallb_forall _ _) aliases_shorten p Hp in
    match andb_prop _ _ H with
    | conj Ha Hb => conj (proj1 (Nat.leb_le _ _) Ha) (proj1 (Nat.leb_le _ _) Hb)
    end) (Strings.ReplaceAll name " " EmptyString) 0%nat).
  lia.
Qed.

(** ** The earlier CDP parser *)

Lemma legacy_step_records (c : Cdp.columns) (neighbors neighbors' : list Cdp.CdpNeighbor)
  (last last' line : string) :
  CdpLegacy.step c (neighbors, last) line = Some (neighbors', last') ->
  neighbors' = neighbors \/
  (last <> EmptyString /\ last' = EmptyString /\
   exists r, neighbors' = neighbors ++ [r] /\
             Cdp.Neighbor r = last /\ Cdp.HoldTime r = EmptyString).
Proof.
  unfold CdpLegacy.step.
  destruct (Cdp.isSkipped _); [intros [= <- <-]; by left|].
  destruct (if Strings.len line >? Cdp.platformIndex c then _ else _)
    as [deviceID|]; cbn [mbind option_bind]; [|discriminate].
  destruct (if isEmpty deviceID && _ then _ else _) as [[|]|];
    cbn [mbind option_bind]; [| |discriminate].
  - destruct (isEmpty last) eqn:El; [intros [= <- <-]; by left|].
    destruct (Strings.slice line (Cdp.localIntfIndex c) _) as [intf|];
      cbn [mbind option_bind]; [|discriminate].
    destruct (Strings.slice line (Cdp.capabilityIndex c) _) as [cap|];
      cbn [mbind option_bind]; [|discriminate].
    destruct (Strings.slice line (Cdp.platformIndex c - 1) _) as [plat|];
      cbn [mbind option_bind]; [|discriminate].
    destruct (Strings.sliceFrom line _) as [port|];
      cbn [mbind option_bind]; [|discriminate].
    intros [= <- <-]. right. split; [by destruct last|]. split; [reflexivity|].
    eexists. split; [reflexivity|]. split; reflexivity.
  - destruct (negb _); intros [= <- _]; by left.
Qed.

Lemma legacy_fold_records (c : Cdp.columns) (lines : list string)
  (neighbors neighbors' : list Cdp.CdpNeighbor) (last last' : string) :
  (forall r, In r neighbors ->
     Cdp.HoldTime r = EmptyString /\ Cdp.Neighbor r <> EmptyString) ->
  foldLines (CdpLegacy.step c) (neighbors, last) lines = Some (neighbors', last') ->
  forall r, In r neighbors' ->
    Cdp.HoldTime r = EmptyString /\ Cdp.Neighbor r <> EmptyString.
Proof.
  revert neighbors last. induction lines as [|l ls IH]; intros neighbors last Hall.
  - by intros [= <- _].
  - cbn [foldLines].
    destruct (CdpLegacy.step c (neighbors, last) l) as [[n1 l1]|] eqn:E;
      cbn [mbind option_bind]; [|discriminate].
    apply IH.
    apply legacy_step_records in E as [->|(Hl & _ & r0 & -> & Hn & Hh)];
      [exact Hall|].
    intros r Hr. apply in_app_or in Hr as [Hr|[<-|[]]]; [by apply Hall|].
    split; [exact Hh|]. by rewrite Hn.
Qed.

(** X19: the earlier parseCdpNeighbors never fills HoldTime: in every
    record it returns HoldTime is empty and Neighbor is not.  A record is
    only ever built from a detail line that follows a line naming a
    device, so an entry on one line, as in the blob of end-to-end case 1,
    gives no record. *)
Theorem legacy_cdp_records (rawOutput : string)
  (neighbors : list Cdp.CdpNeighbor) (err : error) :
  CdpLegacy.parseCdpNeighbors rawOutput = Some (neighbors, err) ->
  (forall r, In r neighbors ->
     Cdp.HoldTime r = EmptyString /\ Cdp.Neighbor r <> EmptyString) /\
  (forall c records last line records' last',
     CdpLegacy.step c (records, last) line = Some (records', last') ->
     last = EmptyString -> records' = records) /\
  CdpLegacy.parseCdpNeighbors Cdp.case1BlobIntrfce = Some ([], None).
Proof.
  intros H. split; [|split].
  - unfold CdpLegacy.parseCdpNeighbors in H.
    destruct (firstIndex _ _) as [i|]; [|injection H as <- _; intros ? []].
    destruct (_ || _); [injection H as <- _; intros ? []|].
    destruct (foldLines _ _ _) as [[ns last]|] eqn:E;
      cbn [mbind option_bind] in H; [|discriminate].
    injection H as <- _.
    exact (legacy_fold_records _ _ [] ns EmptyString last
             (fun _ (H : In _ []) => match H with end) E).
  - intros c records last line records' last' E ->.
    apply legacy_step_records in E as [->|(Hl & _)]; [reflexivity|done].
  - vm_compute. reflexivity.
Qed.

Lemma legacy_cdp_records_witness :
  let blob :=
    "Device ID        Local Intrfce     Holdtme    Capability  Platform  Port ID" +:+
    String newline
    ("switch-core-with-a-long-name.example.com" +:+ String newline
     "                 Gig 1/0/1         120        R S I       WS-C3850  Gig 1/0/24") in
  let r := {| Cdp.Neighbor := "switch-core-with-a-long-name.example.com";
              Cdp.Interface := "Gig 1/0/1";
              Cdp.HoldTime := EmptyString;
              Cdp.Capability := "R S I";
              Cdp.Platform := "WS-C3850";
              Cdp.NeighborInterface := "Gig 1/0/24" |} in
  Cdp.HoldTime r = EmptyString /\ Cdp.Neighbor r <> EmptyString.
Proof.
  intros blob r.
  destruct (legacy_cdp_records blob [r] None ltac:(vm_compute; reflexivity))
    as [H _].
  exact (H r ltac:(left; reflexivity)).
Defined.
